(** * investment_system.py: the record manager and its file store

    A shallow embedding of the core of [investment_system.py] (the filename
    sanitizer, the file store, the database session and the
    [ProjectManager] operations) together with the properties stated for it.

    Modelling conventions.
    - A Python [str] is the list of its code points ([pystr]); literals are
      written in UTF-8 and decoded by [py].
    - [os.path] comes in two flavours ([Posix], [Nt]) for [splitext]; the
      file system and [pathlib] follow the POSIX flavour: no symbolic links,
      no permissions, no resource limits.
    - The Unicode database, the storage directory, the working directory and
      the text of library exceptions are not part of the program: they are
      the variables of the sections [Sanitizer] and [Platform].
    - Every read of the clock, the random UUID and the faults of the
      database engine are inputs of a call ([oracle]). *)

From Stdlib Require Import ZArith List String Ascii Lia.
From stdpp Require Import gmap strings list.

Open Scope Z_scope.

(** ** Python strings *)

Abbreviation pystr := (list Z).

Definition chr (a : ascii) : Z := Z.of_N (N_of_ascii a).

(** UTF-8 decoding of a literal: [need] continuation bytes are still
    expected for the code point accumulated in [acc]. *)
Fixpoint utf8_go (need : nat) (acc : Z) (bs : list Z) : pystr :=
  match bs with
  | [] => []
  | b :: rest =>
      match need with
      | O =>
          if b <? 128 then b :: utf8_go O 0 rest
          else if b <? 224 then utf8_go 1 (Z.land b 31) rest
          else if b <? 240 then utf8_go 2 (Z.land b 15) rest
          else utf8_go 3 (Z.land b 7) rest
      | S n =>
          let acc' := acc * 64 + Z.land b 63 in
          match n with
          | O => acc' :: utf8_go O 0 rest
          | _ => utf8_go n acc' rest
          end
      end
  end.

Definition py (s : string) : pystr :=
  utf8_go O 0 (List.map chr (list_ascii_of_string s)).

Definition str_eqb (a b : pystr) : bool := bool_decide (a = b).

(** [s.rfind(c)]: the highest index of [c] in [s], or [-1]. *)
Fixpoint rfind_from (i : Z) (c : Z) (s : pystr) (last : Z) : Z :=
  match s with
  | [] => last
  | x :: r => rfind_from (i + 1) c r (if x =? c then i else last)
  end.

Definition rfind (c : Z) (s : pystr) : Z := rfind_from 0 c s (-1).

(** [s[:i]] and [s[i:]] for an index [0 <= i]. *)
Definition slice_to (i : Z) (s : pystr) : pystr := take (Z.to_nat i) s.
Definition slice_from (i : Z) (s : pystr) : pystr := drop (Z.to_nat i) s.

(** [str(n)] for a natural number, and two- and four-digit zero padding as
    [strftime] prints the fields of a date. *)
Definition digit (d : Z) : Z := chr "0" + d mod 10.

Fixpoint decimal_go (fuel : nat) (n : Z) (acc : pystr) : pystr :=
  match fuel with
  | O => acc
  | S k => if n <? 10 then digit n :: acc else decimal_go k (n / 10) (digit n :: acc)
  end.

Definition str_of_nat (n : nat) : pystr :=
  decimal_go (S n) (Z.of_nat n) [].

Definition pad2 (n : Z) : pystr := [digit (n / 10); digit n].
Definition pad4 (n : Z) : pystr := [digit (n / 1000); digit (n / 100); digit (n / 10); digit n].

(** ** os.path.splitext *)

Inductive flavour := Posix | Nt.

Definition os_sep (fl : flavour) : Z :=
  match fl with Posix => chr "/" | Nt => chr "\" end.

Definition os_altsep (fl : flavour) : option Z :=
  match fl with Posix => None | Nt => Some (chr "/") end.

Definition extsep : Z := chr ".".

(** The [while filenameIndex < dotIndex] loop of [genericpath._splitext]:
    it skips the dots that lead the file name. *)
Fixpoint splitext_scan (fuel : nat) (p : pystr) (filenameIndex dotIndex : Z)
  : pystr * pystr :=
  match fuel with
  | O => (p, [])
  | S k =>
      if filenameIndex <? dotIndex then
        if bool_decide (p !! Z.to_nat filenameIndex = Some extsep)
        then splitext_scan k p (filenameIndex + 1) dotIndex
        else (slice_to dotIndex p, slice_from dotIndex p)
      else (p, [])
  end.

Definition splitext (fl : flavour) (p : pystr) : pystr * pystr :=
  let sepIndex := rfind (os_sep fl) p in
  let sepIndex :=
    match os_altsep fl with
    | Some a => Z.max sepIndex (rfind a p)
    | None => sepIndex
    end in
  let dotIndex := rfind extsep p in
  if dotIndex >? sepIndex
  then splitext_scan (length p) p (sepIndex + 1) dotIndex
  else (p, []).

(** ** Character classes of [re] *)

Definition ascii_isalnum (c : Z) : bool :=
  ((chr "0" <=? c) && (c <=? chr "9"))
  || ((chr "A" <=? c) && (c <=? chr "Z"))
  || ((chr "a" <=? c) && (c <=? chr "z")).

Inductive class_item :=
| ClsWord
| ClsRange (lo hi : Z)
| ClsChar (c : Z).

(** The two patterns of [sanitize_filename], without their leading [^]:
    [\w\u4e00-\u9fff\-_. ] and [\w.]. *)
Definition stem_class : list class_item :=
  [ClsWord; ClsRange 19968 40959; ClsChar (chr "-"); ClsChar (chr "_");
   ClsChar (chr "."); ClsChar (chr " ")].

Definition ext_class : list class_item := [ClsWord; ClsChar (chr ".")].

Definition unnamed_file : pystr := Eval vm_compute in py "unnamed_file".
Definition dot_bin : pystr := Eval vm_compute in py ".bin".

Section Sanitizer.

(** [str.isalnum] of one character beyond ASCII, as the Unicode database of
    the running interpreter has it. *)
Variable unicode_isalnum : Z -> bool.

Definition py_isalnum (c : Z) : bool :=
  if c <? 128 then ascii_isalnum c else unicode_isalnum c.

(** [\w] of a [str] pattern: alphanumeric or the underscore. *)
Definition is_word (c : Z) : bool := py_isalnum c || (c =? chr "_").

Definition item_matches (it : class_item) (c : Z) : bool :=
  match it with
  | ClsWord => is_word c
  | ClsRange lo hi => (lo <=? c) && (c <=? hi)
  | ClsChar x => c =? x
  end.

Definition in_class (cls : list class_item) (c : Z) : bool :=
  existsb (fun it => item_matches it c) cls.

(** [re.sub('[^cls]', '', s)]: every character outside the class is
    replaced by the empty string. *)
Fixpoint re_sub_negated (cls : list class_item) (s : pystr) : pystr :=
  match s with
  | [] => []
  | c :: r =>
      if negb (in_class cls c) then re_sub_negated cls r
      else c :: re_sub_negated cls r
  end.

Definition sanitize_filename (fl : flavour) (filename : pystr) : pystr :=
  match filename with
  | [] => unnamed_file ++ dot_bin
  | _ =>
      let '(name, ext) := splitext fl filename in
      let safe_name := re_sub_negated stem_class name in
      let safe_ext := re_sub_negated ext_class ext in
      let safe_name := match safe_name with [] => unnamed_file | _ => safe_name end in
      let safe_ext := match safe_ext with [] => dot_bin | _ => safe_ext end in
      safe_name ++ safe_ext
  end.

End Sanitizer.

(** ** pathlib, POSIX flavour

    A [Path] is kept as the list of its parts from the root [/]; a relative
    string is joined to the directory it is relative to. *)

Abbreviation parts := (list pystr).

Definition slash : Z := chr "/".
Definition dot : pystr := [chr "."].
Definition dotdot : pystr := [chr "."; chr "."].

(** [s.split('/')] *)
Fixpoint split_slash (s : pystr) : list pystr :=
  match s with
  | [] => [[]]
  | x :: r =>
      if x =? slash then [] :: split_slash r
      else match split_slash r with
           | [] => [[x]]
           | h :: t => (x :: h) :: t
           end
  end.

(** The parts of a path string: empty parts and [.] are dropped, [..] is
    kept. *)
Definition parse_parts (s : pystr) : parts :=
  List.filter (fun x => negb (str_eqb x [] || str_eqb x dot)) (split_slash s).

Definition is_absolute (s : pystr) : bool :=
  match s with
  | c :: _ => c =? slash
  | [] => false
  end.

(** [base / s] *)
Definition path_join (base : parts) (s : pystr) : parts :=
  if is_absolute s then parse_parts s else base ++ parse_parts s.

(** [Path(s).name] *)
Definition path_name (s : pystr) : pystr := List.last (parse_parts s) [].

(** [p.parent]: the root is its own parent. *)
Definition path_parent (p : parts) : parts := removelast p.

(** [os.path.basename(s)] *)
Definition basename (s : pystr) : pystr := slice_from (rfind slash s + 1) s.

(** ** The file system *)

Record filesystem := {
  fs_files : gmap parts (list Z);
  fs_dirs : gset parts
}.

Inductive node := Missing | RegularFile | Directory.

Inductive exn :=
| FileNotFoundError
| NotADirectoryError
| FileExistsError
| IsADirectoryError
| OtherOSError
| SameFileError
| ShutilError
| AttributeError
| IntegrityError
| OperationalError.

(** What is stored at a canonical location (no [..] in it). *)
Definition node_at (fs : filesystem) (q : parts) : node :=
  if bool_decide (q = [] ∨ q ∈ fs_dirs fs) then Directory
  else match fs_files fs !! q with
       | Some _ => RegularFile
       | None => Missing
       end.

(** Path resolution from the location [cur]: every part but the last must
    lead through a directory; [..] steps to the parent. *)
Fixpoint walk (fs : filesystem) (cur : parts) (p : parts) : exn + parts :=
  match p with
  | [] => inr cur
  | c :: rest =>
      match node_at fs cur with
      | Directory =>
          walk fs (if str_eqb c dotdot then path_parent cur else cur ++ [c]) rest
      | RegularFile => inl NotADirectoryError
      | Missing => inl FileNotFoundError
      end
  end.

Definition locate (fs : filesystem) (p : parts) : exn + parts := walk fs [] p.

(** [os.stat] *)
Definition stat (fs : filesystem) (p : parts) : exn + parts * node :=
  match locate fs p with
  | inl e => inl e
  | inr q =>
      match node_at fs q with
      | Missing => inl FileNotFoundError
      | k => inr (q, k)
      end
  end.

Definition path_exists (fs : filesystem) (p : parts) : bool :=
  match stat fs p with inr _ => true | inl _ => false end.

Definition path_is_dir (fs : filesystem) (p : parts) : bool :=
  match stat fs p with inr (_, Directory) => true | _ => false end.

Definition samefile (fs : filesystem) (a b : parts) : bool :=
  match stat fs a, stat fs b with
  | inr (qa, _), inr (qb, _) => bool_decide (qa = qb)
  | _, _ => false
  end.

Definition ends_with_dotdot (p : parts) : bool := str_eqb (List.last p []) dotdot.

Definition add_dir (fs : filesystem) (q : parts) : filesystem :=
  {| fs_files := fs_files fs; fs_dirs := {[q]} ∪ fs_dirs fs |}.

Definition write_file (fs : filesystem) (q : parts) (data : list Z) : filesystem :=
  {| fs_files := <[q := data]> (fs_files fs); fs_dirs := fs_dirs fs |}.

Definition remove_file (fs : filesystem) (q : parts) : filesystem :=
  {| fs_files := delete q (fs_files fs); fs_dirs := fs_dirs fs |}.

Definition remove_dir (fs : filesystem) (q : parts) : filesystem :=
  {| fs_files := fs_files fs; fs_dirs := fs_dirs fs ∖ {[q]} |}.

Definition under (q k : parts) : bool := bool_decide (q `prefix_of` k).

(** Everything at or below [q] disappears. *)
Definition remove_tree (fs : filesystem) (q : parts) : filesystem :=
  {| fs_files := filter (fun kv => ¬ q `prefix_of` kv.1) (fs_files fs);
     fs_dirs := filter (fun k => ¬ q `prefix_of` k) (fs_dirs fs) |}.

Definition rekey (qs qd k : parts) : parts :=
  if under qs k then qd ++ drop (length qs) k else k.

(** The tree at [qs] becomes the tree at [qd]. *)
Definition move_tree (fs : filesystem) (qs qd : parts) : filesystem :=
  {| fs_files :=
       list_to_map (List.map (fun kv => (rekey qs qd kv.1, kv.2)) (map_to_list (fs_files fs)));
     fs_dirs := list_to_set (List.map (rekey qs qd) (elements (fs_dirs fs))) |}.

(** The entries of the directory at [q]. *)
Definition children (fs : filesystem) (q : parts) : list parts :=
  List.filter (fun k => bool_decide (k ≠ [] ∧ path_parent k = q))
    (List.map fst (map_to_list (fs_files fs)) ++ elements (fs_dirs fs)).

(** The content of the regular file that a path leads to. *)
Definition read_file (fs : filesystem) (p : parts) : option (list Z) :=
  match stat fs p with
  | inr (q, RegularFile) => fs_files fs !! q
  | _ => None
  end.

(** [os.mkdir] *)
Definition os_mkdir (fs : filesystem) (p : parts) : exn + filesystem :=
  match locate fs p with
  | inl e => inl e
  | inr q =>
      match node_at fs q with
      | Missing => inr (add_dir fs q)
      | _ => inl FileExistsError
      end
  end.

(** [Path.mkdir(parents=False, exist_ok=exist_ok)] *)
Definition path_mkdir (fs : filesystem) (p : parts) (exist_ok : bool)
  : exn + filesystem :=
  match os_mkdir fs p with
  | inr fs' => inr fs'
  | inl FileNotFoundError => inl FileNotFoundError
  | inl e => if exist_ok && path_is_dir fs p then inr fs else inl e
  end.

(** [Path.mkdir(parents=True, exist_ok=True)] on the path whose parts are
    [rev rp]: a missing parent is created first, by the same call. *)
Fixpoint mkdir_parents_rev (fs : filesystem) (rp : parts) : exn + filesystem :=
  match os_mkdir fs (rev rp) with
  | inr fs' => inr fs'
  | inl FileNotFoundError =>
      match rp with
      | [] => inl FileNotFoundError
      | _ :: rparent =>
          match mkdir_parents_rev fs rparent with
          | inl e => inl e
          | inr fs1 => path_mkdir fs1 (rev rp) true
          end
      end
  | inl e => if path_is_dir fs (rev rp) then inr fs else inl e
  end.

Definition mkdir_parents (fs : filesystem) (p : parts) : exn + filesystem :=
  mkdir_parents_rev fs (rev p).

(** [shutil.copy2(src, dst)] for a source path [srcp] whose last
    component, as [os.path.basename] gives it, is [base]. *)
Definition copy2_at (fs : filesystem) (srcp : parts) (base : pystr) (dst : parts)
  : exn + filesystem :=
  let dst := if path_is_dir fs dst then dst ++ parse_parts base else dst in
  if samefile fs srcp dst then inl SameFileError
  else
    match stat fs srcp with
    | inl e => inl e
    | inr (_, Directory) => inl IsADirectoryError
    | inr (qs, _) =>
        match fs_files fs !! qs with
        | None => inl FileNotFoundError
        | Some data =>
            match locate fs dst with
            | inl e => inl e
            | inr qd =>
                match node_at fs qd with
                | Directory => inl IsADirectoryError
                | _ => inr (write_file fs qd data)
                end
            end
        end
    end.

(** A path that reaches the system as a string, with no [Path] in between:
    the empty string names nothing, and a string that ends in a slash or in
    a part [.] names a directory only. *)
Definition wants_directory (s : pystr) : bool :=
  let c := List.last (split_slash s) [] in
  str_eqb c [] || str_eqb c dot.

(** [os.stat(s)] for a string [s] relative to [cwd]. *)
Definition os_stat (fs : filesystem) (cwd : parts) (s : pystr) : exn + parts * node :=
  match s with
  | [] => inl FileNotFoundError
  | _ =>
      match stat fs (path_join cwd s) with
      | inl e => inl e
      | inr (q, Directory) => inr (q, Directory)
      | inr (q, k) => if wants_directory s then inl NotADirectoryError else inr (q, k)
      end
  end.

(** The content of the regular file that the string [s] leads to. *)
Definition os_read_file (fs : filesystem) (cwd : parts) (s : pystr) : option (list Z) :=
  match os_stat fs cwd s with
  | inr (q, RegularFile) => fs_files fs !! q
  | _ => None
  end.

(** The source given as a string, relative to [cwd]: a source that the
    system does not find cannot be opened, whatever the destination. *)
Definition shutil_copy2 (fs : filesystem) (cwd : parts) (src : pystr) (dst : parts)
  : exn + filesystem :=
  match os_stat fs cwd src with
  | inl e => inl e
  | inr _ => copy2_at fs (path_join cwd src) (basename src) dst
  end.

(** The source given as the string of an absolute [Path]. *)
Definition shutil_copy2_parts (fs : filesystem) (src dst : parts) : exn + filesystem :=
  copy2_at fs src (List.last src []) dst.

(** [os.rename] *)
Definition os_rename (fs : filesystem) (src dst : parts) : exn + filesystem :=
  if ends_with_dotdot src || ends_with_dotdot dst then inl OtherOSError
  else
    match stat fs src with
    | inl e => inl e
    | inr (qs, ks) =>
        match locate fs dst with
        | inl e => inl e
        | inr qd =>
            if bool_decide (qs = qd) then inr fs
            else
              match ks, node_at fs qd with
              | RegularFile, Directory => inl IsADirectoryError
              | RegularFile, _ =>
                  match fs_files fs !! qs with
                  | Some data => inr (write_file (remove_file fs qs) qd data)
                  | None => inl FileNotFoundError
                  end
              | Directory, RegularFile => inl NotADirectoryError
              | Directory, Directory =>
                  if under qs qd then inl OtherOSError
                  else match children fs qd with
                       | [] => inr (move_tree (remove_dir fs qd) qs qd)
                       | _ :: _ => inl OtherOSError
                       end
              | Directory, Missing =>
                  if under qs qd then inl OtherOSError
                  else inr (move_tree fs qs qd)
              | Missing, _ => inl FileNotFoundError
              end
        end
    end.

(** [os.remove] *)
Definition os_remove (fs : filesystem) (p : parts) : exn + filesystem :=
  match stat fs p with
  | inl e => inl e
  | inr (q, RegularFile) => inr (remove_file fs q)
  | inr (_, _) => inl IsADirectoryError
  end.

(** [os.rmdir] *)
Definition os_rmdir (fs : filesystem) (p : parts) : exn + filesystem :=
  if ends_with_dotdot p then inl OtherOSError
  else
    match stat fs p with
    | inl e => inl e
    | inr (q, Directory) =>
        match q, children fs q with
        | _ :: _, [] => inr (remove_dir fs q)
        | _, _ => inl OtherOSError
        end
    | inr (_, _) => inl NotADirectoryError
    end.

(** Everything strictly below [q] disappears. *)
Definition remove_content (fs : filesystem) (q : parts) : filesystem :=
  {| fs_files := filter (fun kv => ¬ q `prefix_of` kv.1) (fs_files fs);
     fs_dirs := filter (fun k => k = q ∨ ¬ q `prefix_of` k) (fs_dirs fs) |}.

(** [shutil.rmtree]: the content is removed, then the directory itself;
    the root, or a path that ends in [..], cannot be removed itself. *)
Definition shutil_rmtree (fs : filesystem) (p : parts) : filesystem * option exn :=
  match stat fs p with
  | inl e => (fs, Some e)
  | inr (q, Directory) =>
      if ends_with_dotdot p || bool_decide (q = []) then (remove_content fs q, Some OtherOSError)
      else (remove_tree fs q, None)
  | inr (_, _) => (fs, Some NotADirectoryError)
  end.

(** [os.makedirs(name, exist_ok=False)] on the path whose parts are [rev rp]. *)
Fixpoint makedirs_rev (fs : filesystem) (rp : parts) : exn + filesystem :=
  match rp with
  | [] => os_mkdir fs []
  | _ :: rhead =>
      let made :=
        if path_exists fs (rev rhead) then inr fs
        else match makedirs_rev fs rhead with
             | inl FileExistsError => inr fs
             | r => r
             end in
      match made with
      | inl e => inl e
      | inr fs1 => os_mkdir fs1 (rev rp)
      end
  end.

(** A copy of the tree at [qs] is added at [qd]. *)
Definition copy_tree (fs : filesystem) (qs qd : parts) : filesystem :=
  {| fs_files :=
       list_to_map
         (List.map (fun kv => (rekey qs qd kv.1, kv.2))
            (List.filter (fun kv => under qs kv.1) (map_to_list (fs_files fs))))
       ∪ fs_files fs;
     fs_dirs :=
       list_to_set (List.map (rekey qs qd) (List.filter (under qs) (elements (fs_dirs fs))))
       ∪ fs_dirs fs |}.

(** [os.path.normpath] of an absolute path: [..] is cancelled textually. *)
Definition normpath (p : parts) : parts :=
  fold_left (fun acc c => if str_eqb c dotdot then path_parent acc else acc ++ [c]) p [].

(** [shutil._destinsrc] *)
Definition destinsrc (src dst : parts) : bool := under (normpath src) (normpath dst).

(** [shutil.copytree(src, dst, symlinks=True)] followed by
    [shutil.rmtree(src)], for a directory [src]. *)
Definition copytree_rmtree (fs : filesystem) (src dst : parts) : filesystem * option exn :=
  match makedirs_rev fs (rev dst) with
  | inl e => (fs, Some e)
  | inr fs1 =>
      match stat fs1 src, stat fs1 dst with
      | inr (qs, _), inr (qd, _) => shutil_rmtree (copy_tree fs1 qs qd) src
      | inl e, _ => (fs1, Some e)
      | _, inl e => (fs1, Some e)
      end
  end.

(** The [try: os.rename ... except OSError:] part of [shutil.move]. *)
Definition rename_or_copy (fs : filesystem) (src dst real_dst : parts)
  : filesystem * option exn :=
  match os_rename fs src real_dst with
  | inr fs' => (fs', None)
  | inl _ =>
      if path_is_dir fs src then
        if destinsrc src dst then (fs, Some ShutilError)
        else copytree_rmtree fs src real_dst
      else
        match shutil_copy2_parts fs src real_dst with
        | inl e => (fs, Some e)
        | inr fs1 =>
            match os_remove fs1 src with
            | inl e => (fs1, Some e)
            | inr fs2 => (fs2, None)
            end
        end
  end.

(** [shutil.move(src, dst)] *)
Definition shutil_move (fs : filesystem) (src dst : parts) : filesystem * option exn :=
  if path_is_dir fs dst then
    if samefile fs src dst then
      match os_rename fs src dst with
      | inl e => (fs, Some e)
      | inr fs' => (fs', None)
      end
    else
      let real_dst := dst ++ parse_parts (List.last src []) in
      if path_exists fs real_dst then (fs, Some ShutilError)
      else rename_or_copy fs src dst real_dst
  else rename_or_copy fs src dst dst.

(** ** Dates *)

Record datetime := {
  year : Z; month : Z; day : Z;
  hour : Z; minute : Z; second : Z; microsecond : Z
}.

(** [strftime("%Y%m%d_%H%M%S")], for a four-digit year. *)
Definition strftime_stamp (t : datetime) : pystr :=
  pad4 (year t) ++ pad2 (month t) ++ pad2 (day t) ++ [chr "_"]
  ++ pad2 (hour t) ++ pad2 (minute t) ++ pad2 (second t).

(** [strftime("%m-%d %H:%M")] *)
Definition strftime_short (t : datetime) : pystr :=
  pad2 (month t) ++ [chr "-"] ++ pad2 (day t) ++ [chr " "]
  ++ pad2 (hour t) ++ [chr ":"] ++ pad2 (minute t).

(** [strftime("%Y-%m-%d %H:%M")] *)
Definition strftime_long (t : datetime) : pystr :=
  pad4 (year t) ++ [chr "-"] ++ strftime_short t.

Definition datetime_key (t : datetime) : list Z :=
  [year t; month t; day t; hour t; minute t; second t; microsecond t].

Fixpoint lex_ltb (a b : list Z) : bool :=
  match a, b with
  | x :: a', y :: b' => (x <? y) || ((x =? y) && lex_ltb a' b')
  | [], _ :: _ => true
  | _, _ => false
  end.

(** ** The table [projects] *)

Module Project.
Record t := {
  id : pystr;
  name : pystr;
  stage : pystr;
  project_type : pystr;
  industry : pystr;
  industry_code : pystr;
  financial_data : pystr;
  team : pystr;
  business_model : pystr;
  core_resource : pystr;
  market_share : pystr;
  business_outlook : pystr;
  other_info : pystr;
  remark : pystr;
  marked : pystr;
  files : list pystr;
  create_time : option datetime;
  update_time : option datetime
}.

Definition set_stage (s : pystr) (p : t) : t :=
  {| id := id p; name := name p; stage := s; project_type := project_type p;
     industry := industry p; industry_code := industry_code p;
     financial_data := financial_data p; team := team p;
     business_model := business_model p; core_resource := core_resource p;
     market_share := market_share p; business_outlook := business_outlook p;
     other_info := other_info p; remark := remark p; marked := marked p;
     files := files p; create_time := create_time p; update_time := update_time p |}.

Definition set_files (l : list pystr) (p : t) : t :=
  {| id := id p; name := name p; stage := stage p; project_type := project_type p;
     industry := industry p; industry_code := industry_code p;
     financial_data := financial_data p; team := team p;
     business_model := business_model p; core_resource := core_resource p;
     market_share := market_share p; business_outlook := business_outlook p;
     other_info := other_info p; remark := remark p; marked := marked p;
     files := l; create_time := create_time p; update_time := update_time p |}.

Definition set_times (c u : option datetime) (p : t) : t :=
  {| id := id p; name := name p; stage := stage p; project_type := project_type p;
     industry := industry p; industry_code := industry_code p;
     financial_data := financial_data p; team := team p;
     business_model := business_model p; core_resource := core_resource p;
     market_share := market_share p; business_outlook := business_outlook p;
     other_info := other_info p; remark := remark p; marked := marked p;
     files := files p; create_time := c; update_time := u |}.
End Project.

#[global] Instance datetime_eq_dec : EqDecision datetime.
Proof. solve_decision. Defined.

#[global] Instance project_eq_dec : EqDecision Project.t.
Proof. solve_decision. Defined.

(** ** The world: file system, table, clock and trace *)

Inductive event :=
| EvMkdir (p : parts)
| EvCopy (src : pystr) (dst : parts)
| EvMove (src dst : parts)
| EvRemove (p : parts)
| EvRmtree (p : parts)
| EvRmdir (p : parts)
| EvPrint (text : pystr)
| EvSelect
| EvSessionAdd (pid : pystr)
| EvSessionDelete (pid : pystr)
| EvInsert (pid : pystr)
| EvUpdate (pid : pystr)
| EvDelete (pid : pystr)
| EvCommit
| EvRollback.

Record world := {
  w_fs : filesystem;
  w_table : list Project.t;
  w_ticks : nat;
  w_log : list event
}.

Definition set_fs (fs : filesystem) (w : world) : world :=
  {| w_fs := fs; w_table := w_table w; w_ticks := w_ticks w; w_log := w_log w |}.

Definition set_table (tb : list Project.t) (w : world) : world :=
  {| w_fs := w_fs w; w_table := tb; w_ticks := w_ticks w; w_log := w_log w |}.

Definition tick (w : world) : world :=
  {| w_fs := w_fs w; w_table := w_table w; w_ticks := S (w_ticks w); w_log := w_log w |}.

Definition log (ev : event) (w : world) : world :=
  {| w_fs := w_fs w; w_table := w_table w; w_ticks := w_ticks w; w_log := w_log w ++ [ev] |}.

(** The unit of work of a session: objects added, loaded objects with their
    current attributes, and the ids of the objects marked for deletion.
    [Session] is a scoped session that [get_db] closes on every exit, so a
    [with get_db()] block starts from the empty session. *)
Record session := {
  s_new : list Project.t;
  s_loaded : list Project.t;
  s_deleted : list pystr
}.

Definition no_session : session := {| s_new := []; s_loaded := []; s_deleted := [] |}.

(** What a call draws from outside: the sixteen random bytes of
    [uuid.uuid4], the successive readings of the clock, and whether the
    database engine fails on reading or on writing. *)
Record oracle := {
  uuid_bytes : Z;
  clock : nat -> datetime;
  db_read_fails : bool;
  db_write_fails : bool
}.

(** Computations over a state [S] that may raise. *)
Definition M (S A : Type) : Type := S -> (exn + A) * S.

Abbreviation io := (M world).
Abbreviation tx := (M (session * world)).

Definition ret {S A} (a : A) : M S A := fun s => (inr a, s).
Definition raise {S A} (e : exn) : M S A := fun s => (inl e, s).

Definition bind {S A B} (m : M S A) (k : A -> M S B) : M S B :=
  fun s =>
    match m s with
    | (inr a, s') => k a s'
    | (inl e, s') => (inl e, s')
    end.

Notation "'do' x <- m ; k" := (bind m (fun x => k))
  (at level 10, x name, m at level 100, k at level 200).
Notation "'run' m ; k" := (bind m (fun _ => k))
  (at level 10, m at level 100, k at level 200).

(** [try: m except: pass] *)
Definition swallow {S} (m : M S unit) : M S unit :=
  fun s =>
    match m s with
    | (inl _, s') => (inr tt, s')
    | r => r
    end.

(** A function whose body is one [try] with a handler that returns. *)
Definition returning {A} (m : io A) (h : exn -> world -> A * world) : world -> A * world :=
  fun w =>
    match m w with
    | (inr a, w') => (a, w')
    | (inl e, w') => h e w'
    end.

(** A call of a function that returns and never raises. *)
Definition call {A} (f : world -> A * world) : io A :=
  fun w => let '(a, w') := f w in (inr a, w').

(** An action on the world inside a [with get_db()] block. *)
Definition lift {A} (m : io A) : tx A :=
  fun sw =>
    match m (snd sw) with
    | (r, w') => (r, (fst sw, w'))
    end.

Definition emit (ev : event) : io unit := fun w => (inr tt, log ev w).

Definition read_fs {A} (f : filesystem -> A) : io A := fun w => (inr (f (w_fs w)), w).

(** An operation on the file system that changes it or raises; it is
    recorded when it succeeds. *)
Definition fs_op (f : filesystem -> exn + filesystem) (ev : event) : io unit :=
  fun w =>
    match f (w_fs w) with
    | inl e => (inl e, w)
    | inr fs' => (inr tt, log ev (set_fs fs' w))
    end.

(** An operation that may change the file system and raise as well. *)
Definition fs_op2 (f : filesystem -> filesystem * option exn) (ev : event) : io unit :=
  fun w =>
    match f (w_fs w) with
    | (fs', Some e) => (inl e, set_fs fs' w)
    | (fs', None) => (inr tt, log ev (set_fs fs' w))
    end.

(** [datetime.now()] *)
Definition now (o : oracle) : io datetime :=
  fun w => (inr (clock o (w_ticks w)), tick w).

Fixpoint for_each {S A} (f : A -> M S unit) (l : list A) : M S unit :=
  match l with
  | [] => ret tt
  | a :: rest => run f a; for_each f rest
  end.

(** ** The session *)

Definition find_row (pid : pystr) (tb : list Project.t) : option Project.t :=
  List.find (fun r => str_eqb (Project.id r) pid) tb.

Definition has_row (pid : pystr) (tb : list Project.t) : bool :=
  existsb (fun r => str_eqb (Project.id r) pid) tb.

Definition set_loaded (l : list Project.t) (s : session) : session :=
  {| s_new := s_new s; s_loaded := l; s_deleted := s_deleted s |}.

(** [db.query(Project).filter(Project.id == pid).first()]: an object that
    is already loaded is returned as it is. *)
Definition query_first (o : oracle) (pid : pystr) : tx (option Project.t) :=
  fun '(s, w) =>
    if db_read_fails o then (inl OperationalError, (s, w))
    else
      let w1 := log EvSelect w in
      match find_row pid (s_loaded s) with
      | Some obj => (inr (Some obj), (s, w1))
      | None =>
          match find_row pid (w_table w1) with
          | Some r => (inr (Some r), (set_loaded (s_loaded s ++ [r]) s, w1))
          | None => (inr None, (s, w1))
          end
      end.

(** An assignment to an attribute of the loaded object [pid]. *)
Definition set_attr (pid : pystr) (f : Project.t -> Project.t) : tx unit :=
  fun '(s, w) =>
    (inr tt,
     (set_loaded
        (List.map (fun r => if str_eqb (Project.id r) pid then f r else r) (s_loaded s)) s,
      w)).

(** [db.add(project)] *)
Definition session_add (p : Project.t) : tx unit :=
  fun '(s, w) =>
    (inr tt,
     ({| s_new := s_new s ++ [p]; s_loaded := s_loaded s; s_deleted := s_deleted s |},
      log (EvSessionAdd (Project.id p)) w)).

(** [db.delete(project)] *)
Definition session_delete (p : Project.t) : tx unit :=
  fun '(s, w) =>
    (inr tt,
     ({| s_new := s_new s; s_loaded := s_loaded s;
         s_deleted := s_deleted s ++ [Project.id p] |},
      log (EvSessionDelete (Project.id p)) w)).

(** A statement that writes fails when the engine does. *)
Definition sql_write (o : oracle) : io unit :=
  if db_write_fails o then raise OperationalError else ret tt.

Definition or_default (d : datetime) (v : option datetime) : option datetime :=
  match v with Some _ => v | None => Some d end.

(** INSERT, with the column defaults [datetime.now]; the primary key is
    unique. *)
Definition sql_insert (o : oracle) (p : Project.t) : io unit :=
  do c <- now o;
  do u <- now o;
  run sql_write o;
  fun w =>
    if has_row (Project.id p) (w_table w) then (inl IntegrityError, w)
    else
      let row :=
        Project.set_times (or_default c (Project.create_time p))
          (or_default u (Project.update_time p)) p in
      (inr tt, log (EvInsert (Project.id p)) (set_table (w_table w ++ [row]) w)).

(** UPDATE of the row of a loaded object, if an attribute has changed and
    the object is not marked for deletion; [update_time] is then set by
    [onupdate]. *)
Definition sql_update (o : oracle) (deleted : list pystr) (obj : Project.t) : io unit :=
  fun w =>
    match find_row (Project.id obj) (w_table w) with
    | None => (inr tt, w)
    | Some r =>
        if bool_decide (obj = r) || bool_decide (Project.id obj ∈ deleted)
        then (inr tt, w)
        else
          (do u <- now o;
           run sql_write o;
           fun w1 =>
             let row := Project.set_times (Project.create_time obj) (Some u) obj in
             (inr tt,
              log (EvUpdate (Project.id obj))
                (set_table
                   (List.map
                      (fun x => if str_eqb (Project.id x) (Project.id obj) then row else x)
                      (w_table w1)) w1))) w
    end.

(** DELETE *)
Definition sql_delete (o : oracle) (pid : pystr) : io unit :=
  run sql_write o;
  fun w =>
    (inr tt,
     log (EvDelete pid)
       (set_table (List.filter (fun x => negb (str_eqb (Project.id x) pid)) (w_table w)) w)).

(** The flush of the unit of work. *)
Definition flush (o : oracle) (s : session) : io unit :=
  run for_each (sql_insert o) (s_new s);
  run for_each (sql_update o (s_deleted s)) (s_loaded s);
  for_each (sql_delete o) (s_deleted s).

(** [db.commit()] *)
Definition commit (o : oracle) (s : session) : io unit :=
  run flush o s;
  emit EvCommit.

(** The context manager [get_db]: commit after the body, roll back to the
    table at the start on any exception and raise it again, close. *)
Definition get_db {A} (o : oracle) (body : tx A) : io A :=
  fun w =>
    let snapshot := w_table w in
    match body (no_session, w) with
    | (inr a, (s, w1)) =>
        match commit o s w1 with
        | (inr _, w2) => (inr a, w2)
        | (inl e, w2) => (inl e, log EvRollback (set_table snapshot w2))
        end
    | (inl e, (_, w1)) => (inl e, log EvRollback (set_table snapshot w1))
    end.

(** ** Record ids *)

(** [uuid.UUID(bytes=..., version=4).int] *)
Definition uuid4_int (rnd : Z) : Z :=
  let i := rnd mod 2 ^ 128 in
  let i := Z.land i (Z.lnot (Z.shiftl 49152 48)) in
  let i := Z.lor i (Z.shiftl 32768 48) in
  let i := Z.land i (Z.lnot (Z.shiftl 61440 64)) in
  Z.lor i (Z.shiftl 4 76).

Definition hexdigit (d : Z) : Z :=
  if d <? 10 then chr "0" + d else chr "a" + (d - 10).

Fixpoint hex_digits (n : nat) (v : Z) (acc : pystr) : pystr :=
  match n with
  | O => acc
  | S k => hex_digits k (v / 16) (hexdigit (v mod 16) :: acc)
  end.

(** [u.hex]: ['%032x' % u.int] *)
Definition uuid_hex (u : Z) : pystr := hex_digits 32 u [].

Definition proj_ : pystr := Eval vm_compute in py "proj_".

(** [f"proj_{u.hex[:8]}"] *)
Definition project_id_of (u : Z) : pystr := proj_ ++ slice_to 8 (uuid_hex u).

Definition generate_project_id (o : oracle) : pystr :=
  project_id_of (uuid4_int (uuid_bytes o)).

Definition is_lower_hex (c : Z) : bool :=
  ((chr "0" <=? c) && (c <=? chr "9")) || ((chr "a" <=? c) && (c <=? chr "f")).

(** ** Uploaded files *)

(** What the form hands over for a file: an object with a [name]
    attribute (the path of a temporary file), or a plain string. *)
Inductive upload :=
| TempFile (name : pystr)
| StrPath (s : pystr).

Definition truthy (file : upload) : bool :=
  match file with
  | TempFile _ => true
  | StrPath [] => false
  | StrPath (_ :: _) => true
  end.

Definition PROJECT_STAGES : list pystr := Eval vm_compute in
  [py "储备项目"; py "拟推进项目"; py "立项阶段"; py "已开展商务尽调项目";
   py "初审阶段"; py "尽职调查阶段"; py "决策阶段"; py "投后管理阶段";
   py "项目业绩回溯"; py "投资退出阶段"].

Definition uploaded_file : pystr := Eval vm_compute in py "uploaded_file".
Definition msg_save_failed : pystr := Eval vm_compute in py "保存文件失败: ".
Definition msg_name_empty : pystr := Eval vm_compute in py "❌ 新增失败：项目名称不能为空".
Definition msg_add_failed : pystr := Eval vm_compute in py "❌ 新增失败：".
Definition msg_not_found : pystr := Eval vm_compute in py "❌ 项目不存在".
Definition msg_delete_failed : pystr := Eval vm_compute in py "❌ 删除失败：".
Definition msg_move_failed : pystr := Eval vm_compute in py "❌ 阶段更新失败：".
Definition msg_query_failed : pystr := Eval vm_compute in py "❌ 查询失败：".
Definition msg_list_failed : pystr := Eval vm_compute in py "查询出错：".
Definition ok_project : pystr := Eval vm_compute in py "✅ 项目「".
Definition ok_added : pystr := Eval vm_compute in py "」新增成功！ID：".
Definition ok_deleted : pystr := Eval vm_compute in py "」已删除！".
Definition ok_moved_from : pystr := Eval vm_compute in py "✅ 项目已从「".
Definition ok_moved_to : pystr := Eval vm_compute in py "」移至「".
Definition ok_moved_end : pystr := Eval vm_compute in py "」".

Definition key_name : pystr := Eval vm_compute in py "项目名称".
Definition key_type : pystr := Eval vm_compute in py "项目类型".
Definition key_industry : pystr := Eval vm_compute in py "所属行业".
Definition key_industry_code : pystr := Eval vm_compute in py "所属行业代码".
Definition key_financial : pystr := Eval vm_compute in py "项目核心财务数据".
Definition key_team : pystr := Eval vm_compute in py "项目团队".
Definition key_model : pystr := Eval vm_compute in py "商业模式".
Definition key_resource : pystr := Eval vm_compute in py "核心竞争资源".
Definition key_share : pystr := Eval vm_compute in py "市场占有率".
Definition key_outlook : pystr := Eval vm_compute in py "商业展望".
Definition key_other : pystr := Eval vm_compute in py "其他".

(** [d.get(key, "")] *)
Definition dict_get (d : gmap pystr pystr) (key : pystr) : pystr :=
  default [] (d !! key).

(** ** The start of the program: the data directory

    [get_base_dir] and the statements of the module that make the storage
    directories run once, before anything else; they act on the file system
    and on the standard output. *)

(** A [Path] as [pathlib] keeps it: its parts, and whether it starts at the
    root. *)
Record pypath := {
  rooted : bool;
  segments : parts
}.

(** [Path(s)] *)
Definition Path (s : pystr) : pypath :=
  {| rooted := is_absolute s; segments := parse_parts s |}.

(** [p / s] *)
Definition joinpath (p : pypath) (s : pystr) : pypath :=
  if is_absolute s then Path s
  else {| rooted := rooted p; segments := segments p ++ parse_parts s |}.

Fixpoint join_slash (l : parts) : pystr :=
  match l with
  | [] => []
  | [c] => c
  | c :: rest => c ++ [slash] ++ join_slash rest
  end.

(** [str(p)] *)
Definition path_str (p : pypath) : pystr :=
  match segments p with
  | [] => if rooted p then [slash] else dot
  | _ :: _ => (if rooted p then [slash] else []) ++ join_slash (segments p)
  end.

(** The parts from the root of the path that the system calls see, in the
    working directory [cwd]. *)
Definition resolve (cwd : parts) (p : pypath) : parts :=
  if rooted p then segments p else cwd ++ segments p.

(** [Path.touch()]: the time of an existing entry is updated (the model
    keeps no times), a missing file is created empty. *)
Definition path_touch (fs : filesystem) (p : parts) : exn + filesystem :=
  match stat fs p with
  | inr _ => inr fs
  | inl _ =>
      match locate fs p with
      | inl e => inl e
      | inr q => inr (write_file fs q [])
      end
  end.

Record console := {
  c_fs : filesystem;
  c_out : list pystr
}.

Definition on_fs (f : filesystem -> exn + filesystem) : M console unit :=
  fun s =>
    match f (c_fs s) with
    | inl e => (inl e, s)
    | inr fs' => (inr tt, {| c_fs := fs'; c_out := c_out s |})
    end.

Definition print (text : pystr) : M console unit :=
  fun s => (inr tt, {| c_fs := c_fs s; c_out := c_out s ++ [text] |}).

Definition data_dir_name : pystr := Eval vm_compute in py "lvtou_investment_data".
Definition write_test : pystr := Eval vm_compute in py ".write_test".
Definition uploaded_files : pystr := Eval vm_compute in py "uploaded_files".
Definition msg_chosen : pystr := Eval vm_compute in py "✅ 数据目录已选择: ".
Definition msg_default : pystr := Eval vm_compute in py "⚠️ 使用默认目录: ".

(** The body of the [try] in the loop of [get_base_dir]. *)
Definition probe (cwd : parts) (path : pypath) : M console pypath :=
  run on_fs (fun fs => mkdir_parents fs (resolve cwd path));
  let test_file := joinpath path write_test in
  run on_fs (fun fs => path_touch fs (resolve cwd test_file));
  run on_fs (fun fs => os_remove fs (resolve cwd test_file));
  run print (msg_chosen ++ path_str path);
  ret path.

(** The loop of [get_base_dir]: [except: continue]. *)
Fixpoint first_usable (cwd : parts) (candidates : list pypath)
  : M console (option pypath) :=
  match candidates with
  | [] => ret None
  | path :: rest =>
      fun s =>
        match probe cwd path s with
        | (inr p, s') => (inr (Some p), s')
        | (inl _, s') => first_usable cwd rest s'
        end
  end.

Definition candidates (home tmp : pypath) : list pypath :=
  [Path (py "D:/lvtou_investment_data");
   Path (py "E:/lvtou_investment_data");
   joinpath home data_dir_name;
   joinpath tmp data_dir_name].

(** [home] is [Path.home()] and [tmp] is [Path(tempfile.gettempdir())]. *)
Definition get_base_dir (cwd : parts) (home tmp : pypath) : M console pypath :=
  do found <- first_usable cwd (candidates home tmp);
  match found with
  | Some path => ret path
  | None =>
      let fallback := joinpath home data_dir_name in
      run on_fs (fun fs => mkdir_parents fs (resolve cwd fallback));
      run print (msg_default ++ path_str fallback);
      ret fallback
  end.

(** [FILE_STORAGE_DIR.mkdir(exist_ok=True)] and the loop over the stages
    that follows it; the result is [FILE_STORAGE_DIR]. *)
Definition make_storage (cwd : parts) (base_dir : pypath) : M console pypath :=
  let storage := joinpath base_dir uploaded_files in
  run on_fs (fun fs => path_mkdir fs (resolve cwd storage) true);
  run for_each
        (fun stage => on_fs (fun fs => path_mkdir fs (resolve cwd (joinpath storage stage)) true))
        PROJECT_STAGES;
  ret storage.

Section Platform.

Variable unicode_isalnum : Z -> bool.

(** [FILE_STORAGE_DIR], the working directory of the process, and [str(e)]
    for an exception. *)
Variable FILE_STORAGE_DIR : parts.
Variable cwd : parts.
Variable exn_text : exn -> pystr.

(** ** The file store *)

Definition save_uploaded_file (o : oracle) (file : upload) (stage project_id : pystr)
  : world -> option pystr * world :=
  if negb (truthy file) then fun w => (None, w)
  else
    returning
      (let relative_dir := stage ++ [slash] ++ project_id in
       let abs_dir := path_join FILE_STORAGE_DIR relative_dir in
       run fs_op (fun fs => mkdir_parents fs abs_dir) (EvMkdir abs_dir);
       do t <- now o;
       let timestamp := strftime_stamp t in
       let orig_name :=
         match file with
         | TempFile n => path_name n
         | StrPath _ => uploaded_file
         end in
       let safe_name := sanitize_filename unicode_isalnum Posix orig_name in
       let file_name := timestamp ++ [chr "_"] ++ safe_name in
       let abs_path := path_join abs_dir file_name in
       do src <- match file with
                 | TempFile n => ret n
                 | StrPath _ => raise AttributeError
                 end;
       run fs_op (fun fs => shutil_copy2 fs cwd src abs_path) (EvCopy src abs_path);
       ret (Some (relative_dir ++ [slash] ++ file_name)))
      (fun e w => (None, log (EvPrint (msg_save_failed ++ exn_text e)) w)).

Definition get_file_objects (file_paths : list pystr) (fs : filesystem) : list parts :=
  List.filter (path_exists fs) (List.map (path_join FILE_STORAGE_DIR) file_paths).

Definition delete_project_files (project : Project.t) : io unit :=
  match Project.files project with
  | [] => ret tt
  | _ =>
      run for_each
        (fun rel_path =>
           let abs_path := path_join FILE_STORAGE_DIR rel_path in
           swallow
             (do there <- read_fs (fun fs => path_exists fs abs_path);
              if there then fs_op (fun fs => os_remove fs abs_path) (EvRemove abs_path)
              else ret tt))
        (Project.files project);
      let project_dir :=
        path_join (path_join FILE_STORAGE_DIR (Project.stage project)) (Project.id project) in
      swallow
        (do there <- read_fs (fun fs => path_exists fs project_dir);
         if there then fs_op2 (fun fs => shutil_rmtree fs project_dir) (EvRmtree project_dir)
         else ret tt)
  end.

(** ** ProjectManager *)

(** The loop of [add_project] over the uploaded files. *)
Fixpoint save_files (o : oracle) (stage project_id : pystr)
  (files : list (option upload)) (file_paths : list pystr) : io (list pystr) :=
  match files with
  | [] => ret file_paths
  | None :: rest => save_files o stage project_id rest file_paths
  | Some file :: rest =>
      do file_path <- call (save_uploaded_file o file stage project_id);
      match file_path with
      | Some (c :: p) => save_files o stage project_id rest (file_paths ++ [c :: p])
      | _ => save_files o stage project_id rest file_paths
      end
  end.

(** The [with get_db() as db:] block of [add_project]. *)
Definition add_project_block (o : oracle) (stage project_name : pystr)
  (project_data : gmap pystr pystr) (remark marked : pystr)
  (files : option (list (option upload))) : tx pystr :=
  let project_id := generate_project_id o in
  let project :=
    {| Project.id := project_id;
       Project.name := project_name;
       Project.stage := stage;
       Project.project_type := dict_get project_data key_type;
       Project.industry := dict_get project_data key_industry;
       Project.industry_code := dict_get project_data key_industry_code;
       Project.financial_data := dict_get project_data key_financial;
       Project.team := dict_get project_data key_team;
       Project.business_model := dict_get project_data key_model;
       Project.core_resource := dict_get project_data key_resource;
       Project.market_share := dict_get project_data key_share;
       Project.business_outlook := dict_get project_data key_outlook;
       Project.other_info := dict_get project_data key_other;
       Project.remark := remark;
       Project.marked := marked;
       Project.files := [];
       Project.create_time := None;
       Project.update_time := None |} in
  do file_paths <- lift (save_files o stage project_id (default [] files) []);
  let project := Project.set_files file_paths project in
  run session_add project;
  ret project_id.

Definition add_project (o : oracle) (stage : pystr) (project_data : gmap pystr pystr)
  (remark marked : pystr) (files : option (list (option upload)))
  : world -> pystr * world :=
  returning
    (let project_name := dict_get project_data key_name in
     match project_name with
     | [] => ret msg_name_empty
     | _ :: _ =>
         do project_id <-
           get_db o (add_project_block o stage project_name project_data remark marked files);
         ret (ok_project ++ project_name ++ ok_added ++ project_id)
     end)
    (fun e w => (msg_add_failed ++ exn_text e, w)).

(** The [with get_db() as db:] block of [delete_project]. *)
Definition delete_project_block (o : oracle) (project_id : pystr) : tx pystr :=
  do found <- query_first o project_id;
  match found with
  | None => ret msg_not_found
  | Some project =>
      let project_name := Project.name project in
      run lift (delete_project_files project);
      run session_delete project;
      ret (ok_project ++ project_name ++ ok_deleted)
  end.

Definition delete_project (o : oracle) (project_id : pystr) : world -> pystr * world :=
  returning
    (get_db o (delete_project_block o project_id))
    (fun e w => (msg_delete_failed ++ exn_text e, w)).

(** The loop of [update_project_stage] over the stored paths. *)
Fixpoint relocate_files (new_stage project_id : pystr) (rel_paths : list pystr)
  (new_file_paths : list pystr) : io (list pystr) :=
  match rel_paths with
  | [] => ret new_file_paths
  | rel_path :: rest =>
      let old_abs_path := path_join FILE_STORAGE_DIR rel_path in
      do there <- read_fs (fun fs => path_exists fs old_abs_path);
      if there then
        let file_name := path_name rel_path in
        let new_rel_path := new_stage ++ [slash] ++ project_id ++ [slash] ++ file_name in
        let new_abs_path := path_join FILE_STORAGE_DIR new_rel_path in
        run fs_op (fun fs => mkdir_parents fs (path_parent new_abs_path))
              (EvMkdir (path_parent new_abs_path));
        run fs_op2 (fun fs => shutil_move fs old_abs_path new_abs_path)
              (EvMove old_abs_path new_abs_path);
        relocate_files new_stage project_id rest (new_file_paths ++ [new_rel_path])
      else relocate_files new_stage project_id rest new_file_paths
  end.

(** [old_dir.iterdir()] *)
Definition iterdir (p : parts) : io (list parts) :=
  fun w =>
    match stat (w_fs w) p with
    | inl e => (inl e, w)
    | inr (q, Directory) => (inr (children (w_fs w) q), w)
    | inr (_, _) => (inl NotADirectoryError, w)
    end.

(** The removal of the old directory when it is left empty. *)
Definition remove_if_empty (old_dir : parts) : io unit :=
  swallow
    (do there <- read_fs (fun fs => path_exists fs old_dir);
     if there then
       do entries <- iterdir old_dir;
       match entries with
       | [] => fs_op (fun fs => os_rmdir fs old_dir) (EvRmdir old_dir)
       | _ :: _ => ret tt
       end
     else ret tt).

(** The [with get_db() as db:] block of [update_project_stage]. *)
Definition update_project_stage_block (o : oracle) (project_id new_stage : pystr)
  : tx pystr :=
  do found <- query_first o project_id;
  match found with
  | None => ret msg_not_found
  | Some project =>
      let old_stage := Project.stage project in
      run set_attr project_id (Project.set_stage new_stage);
      run match Project.files project with
          | [] => ret tt
          | _ :: _ =>
              do new_file_paths <-
                lift (relocate_files new_stage project_id (Project.files project) []);
              set_attr project_id (Project.set_files new_file_paths)
          end;
      let old_dir := path_join (path_join FILE_STORAGE_DIR old_stage) project_id in
      run lift (remove_if_empty old_dir);
      ret (ok_moved_from ++ old_stage ++ ok_moved_to ++ new_stage ++ ok_moved_end)
  end.

Definition update_project_stage (o : oracle) (project_id new_stage : pystr)
  : world -> pystr * world :=
  returning
    (get_db o (update_project_stage_block o project_id new_stage))
    (fun e w => (msg_move_failed ++ exn_text e, w)).

(** The rows of a listing, as the dictionaries [get_projects_by_stage]
    builds. *)
Record summary := {
  sum_id : pystr;
  sum_name : pystr;
  sum_marked : pystr;
  sum_remark : pystr;
  sum_files : list pystr;
  sum_update_time : pystr
}.

Definition time_ltb (a b : option datetime) : bool :=
  match a, b with
  | None, Some _ => true
  | Some x, Some y => lex_ltb (datetime_key x) (datetime_key y)
  | _, _ => false
  end.

(** [ORDER BY update_time DESC]; rows with equal times keep the order of
    the table. *)
Fixpoint insert_desc (r : Project.t) (l : list Project.t) : list Project.t :=
  match l with
  | [] => [r]
  | x :: rest =>
      if time_ltb (Project.update_time x) (Project.update_time r)
      then r :: x :: rest
      else x :: insert_desc r rest
  end.

Definition order_desc (l : list Project.t) : list Project.t :=
  fold_left (fun acc r => insert_desc r acc) l [].

(** [x or d] for a string. *)
Definition or_else (x d : pystr) : pystr :=
  match x with [] => d | _ :: _ => x end.

Definition text_none : pystr := Eval vm_compute in py "无".
Definition text_unknown : pystr := Eval vm_compute in py "未知".
Definition text_blank : pystr := Eval vm_compute in py "未填写".
Definition highlight : pystr := Eval vm_compute in py "highlight".

Definition summary_of (p : Project.t) : summary :=
  {| sum_id := Project.id p;
     sum_name := Project.name p;
     sum_marked := Project.marked p;
     sum_remark := or_else (Project.remark p) text_none;
     sum_files := Project.files p;
     sum_update_time :=
       match Project.update_time p with
       | Some t => strftime_short t
       | None => text_unknown
       end |}.

Definition query_by_stage (o : oracle) (stage : pystr) (limit : nat) : tx (list Project.t) :=
  lift
    (fun w =>
       if db_read_fails o then (inl OperationalError, w)
       else
         (inr (take limit
                 (order_desc
                    (List.filter (fun r => str_eqb (Project.stage r) stage) (w_table w)))),
          log EvSelect w)).

Definition get_projects_by_stage (o : oracle) (stage : pystr) (limit : nat)
  : world -> list summary * world :=
  returning
    (get_db o
       (do projects <- query_by_stage o stage limit;
        ret (List.map summary_of projects)))
    (fun e w => ([], log (EvPrint (msg_list_failed ++ exn_text e)) w)).

Definition nl : pystr := [10].

Definition detail_text (proj : Project.t) : pystr :=
  let stamp v :=
    match v with
    | Some t => strftime_long t
    | None => text_unknown
    end in
  nl ++ py "╔════════════════════════════════════════╗"
  ++ nl ++ py "║         项目详细信息                   ║"
  ++ nl ++ py "╚════════════════════════════════════════╝"
  ++ nl
  ++ nl ++ py "📌 项目ID：" ++ Project.id proj
  ++ nl ++ py "📌 项目名称：" ++ Project.name proj
  ++ nl ++ py "📌 当前阶段：" ++ Project.stage proj
  ++ nl ++ py "📌 标注状态："
  ++ (if str_eqb (Project.marked proj) highlight then py "🔆 醒目" else py "⚪ 普通")
  ++ nl
  ++ nl ++ py "━━━━━━━━━━━━ 基本信息 ━━━━━━━━━━━━"
  ++ nl ++ py "▶ 项目类型：" ++ or_else (Project.project_type proj) text_blank
  ++ nl ++ py "▶ 所属行业：" ++ or_else (Project.industry proj) text_blank
  ++ py "（代码：" ++ or_else (Project.industry_code proj) text_none ++ py "）"
  ++ nl
  ++ nl ++ py "━━━━━━━━━━ 核心数据 ━━━━━━━━━━━"
  ++ nl ++ py "💰 财务数据：" ++ or_else (Project.financial_data proj) text_blank
  ++ nl ++ py "👥 项目团队：" ++ or_else (Project.team proj) text_blank
  ++ nl ++ py "📊 商业模式：" ++ or_else (Project.business_model proj) text_blank
  ++ nl ++ py "💎 核心资源：" ++ or_else (Project.core_resource proj) text_blank
  ++ nl ++ py "📈 市场占有率：" ++ or_else (Project.market_share proj) text_blank
  ++ nl ++ py "🎯 商业展望：" ++ or_else (Project.business_outlook proj) text_blank
  ++ nl
  ++ nl ++ py "━━━━━━━━━━ 其他信息 ━━━━━━━━━━━"
  ++ nl ++ py "📝 备注：" ++ or_else (Project.remark proj) text_none
  ++ nl ++ py "📎 附件数量：" ++ str_of_nat (length (Project.files proj))
  ++ nl
  ++ nl ++ py "⏰ 创建时间：" ++ stamp (Project.create_time proj)
  ++ nl ++ py "🕐 更新时间：" ++ stamp (Project.update_time proj)
  ++ nl ++ py "                ".

Definition get_project_detail (o : oracle) (project_id : pystr)
  : world -> (pystr * list parts) * world :=
  returning
    (get_db o
       (do found <- query_first o project_id;
        match found with
        | None => ret (msg_not_found, [])
        | Some proj =>
            let detail := detail_text proj in
            do files_list <- lift (read_fs (get_file_objects (Project.files proj)));
            ret (detail, files_list)
        end))
    (fun e w => ((msg_query_failed ++ exn_text e, []), w)).

(** ** The sanitizer in the words of its description

    The name is split into stem and extension, each is filtered by a set of
    characters, and an empty result is replaced by a placeholder.  The
    description lets the extension keep the alphanumeric characters and the
    dot ([keep_in_ext_described]); [keep_in_ext] adds the underscore. *)

Definition is_cjk (c : Z) : bool := (19968 <=? c) && (c <=? 40959).

Definition keep_in_stem (c : Z) : bool :=
  py_isalnum unicode_isalnum c || is_cjk c
  || (c =? chr "-") || (c =? chr "_") || (c =? chr ".") || (c =? chr " ").

Definition keep_in_ext_described (c : Z) : bool :=
  py_isalnum unicode_isalnum c || (c =? chr ".").

Definition keep_in_ext (c : Z) : bool :=
  py_isalnum unicode_isalnum c || (c =? chr "_") || (c =? chr ".").

Definition sanitize_by (keep_ext : Z -> bool) (fl : flavour) (filename : pystr) : pystr :=
  let stem := List.filter keep_in_stem (fst (splitext fl filename)) in
  let ext := List.filter keep_ext (snd (splitext fl filename)) in
  or_else stem unnamed_file ++ or_else ext dot_bin.

Definition is_separator (c : Z) : bool := (c =? chr "/") || (c =? chr "\").

(** ** Results and layouts *)

(** The messages of the manager start with a check mark or a cross. *)
Definition is_success (m : pystr) : bool :=
  match m with c :: _ => c =? 9989 | [] => false end.

Definition is_failure (m : pystr) : bool :=
  match m with c :: _ => c =? 10060 | [] => false end.

Fixpoint strip_prefix (pre s : pystr) : option pystr :=
  match pre, s with
  | [], _ => Some s
  | a :: pre', b :: s' => if a =? b then strip_prefix pre' s' else None
  | _ :: _, [] => None
  end.

(** [p] has the form [{stage}/{pid}/{filename}], the file name without a
    slash. *)
Definition placed_under (stage pid p : pystr) : bool :=
  match strip_prefix (stage ++ [slash] ++ pid ++ [slash]) p with
  | Some filename => forallb (fun c => negb (c =? slash)) filename
  | None => false
  end.

(** The events of the unit of work: what is registered with the session,
    and what its flush, commit or rollback does. *)
Definition session_event (ev : event) : bool :=
  match ev with
  | EvSessionAdd _ | EvSessionDelete _ | EvInsert _ | EvUpdate _
  | EvDelete _ | EvCommit | EvRollback => true
  | _ => false
  end.

(** A result of a write operation started in [w]: success after a commit,
    or failure with the table as it was. *)
Definition transactional (w : world) (res : pystr * world) : Prop :=
  (is_success (fst res) = true /\ exists evs, w_log (snd res) = evs ++ [EvCommit])
  \/ (is_failure (fst res) = true /\ w_table (snd res) = w_table w).

Definition file_write (ev : event) : bool :=
  match ev with EvCopy _ _ => true | _ => false end.

Definition row_insert (ev : event) : bool :=
  match ev with EvSessionAdd _ | EvInsert _ => true | _ => false end.

Definition is_select (ev : event) : bool :=
  match ev with EvSelect => true | _ => false end.

(** A stored path of the record [(stage, pid)] that is in place: it leads
    to a regular file, it is [{stage}/{pid}/{filename}], and the file name
    is neither empty nor [..]. *)
Definition in_place (fs : filesystem) (stage pid p : pystr) : bool :=
  match stat fs (path_join FILE_STORAGE_DIR p) with
  | inr (_, RegularFile) =>
      str_eqb p (stage ++ [slash] ++ pid ++ [slash] ++ path_name p)
      && negb (str_eqb (path_name p) [])
      && negb (str_eqb (path_name p) dotdot)
  | _ => false
  end.

(** A directory without entries. *)
Definition empty_dir (fs : filesystem) (p : parts) : bool :=
  match stat fs p with
  | inr (q, Directory) =>
      match children fs q with
      | [] => true
      | _ :: _ => false
      end
  | _ => false
  end.

(** ** How the world grows

    [grows P w w']: the table is the same in [w'] as in [w], and the trace
    of [w'] is the trace of [w] followed by events that satisfy [P]. *)

Definition log_ext (P : event -> bool) (w w' : world) : Prop :=
  exists evs, w_log w' = w_log w ++ evs /\ forallb P evs = true.

Definition grows (P : event -> bool) (w w' : world) : Prop :=
  w_table w' = w_table w /\ log_ext P w w'.

Definition io_grows {A} (P : event -> bool) (m : io A) : Prop :=
  forall w r w', m w = (r, w') -> grows P w w'.

Definition tx_grows {A} (P : event -> bool) (m : tx A) : Prop :=
  forall s w r s' w', m (s, w) = (r, (s', w')) -> grows P w w'.

Definition fs_event (ev : event) : bool :=
  match ev with
  | EvMkdir _ | EvCopy _ _ | EvMove _ _ | EvRemove _ | EvRmtree _ | EvRmdir _
  | EvPrint _ => true
  | _ => false
  end.

(** The trace alone, for computations that write the table. *)
Definition io_logs {A} (P : event -> bool) (m : io A) : Prop :=
  forall w r w', m w = (r, w') -> log_ext P w w'.

(** [fs1] is [fs] with directories added where nothing was. *)
Definition dirs_added (fs fs1 : filesystem) : Prop :=
  fs_files fs1 = fs_files fs
  /\ (forall q, q ∈ fs_dirs fs -> q ∈ fs_dirs fs1)
  /\ (forall q, q ∈ fs_dirs fs1 -> q ∉ fs_dirs fs -> node_at fs q = Missing).

(** Where [shutil.copy2] writes: at [dst], or in [dst] under the base name
    of the source when [dst] is a directory. *)
Definition copy_target (fs : filesystem) (base : pystr) (dst : parts) : parts :=
  if path_is_dir fs dst then dst ++ parse_parts base else dst.

(** ** Further notions for the properties below *)

(** [c not in s] *)
Definition no_char (c : Z) (s : pystr) : bool := forallb (fun x => negb (x =? c)) s.

(** Whatever a path led to in [fs], it leads to in [fs']: nothing was
    removed, and nothing changed from a file into a directory or back. *)
Definition stat_kept (fs fs' : filesystem) : Prop :=
  forall p q k, stat fs p = inr (q, k) -> stat fs' p = inr (q, k).

(** [Project(id=project_id, name=project_name, stage=stage, ...)], the
    object that [add_project] builds before it saves the files. *)
Definition new_project (o : oracle) (stage project_name : pystr)
  (project_data : gmap pystr pystr) (remark marked : pystr) : Project.t :=
  {| Project.id := generate_project_id o;
     Project.name := project_name;
     Project.stage := stage;
     Project.project_type := dict_get project_data key_type;
     Project.industry := dict_get project_data key_industry;
     Project.industry_code := dict_get project_data key_industry_code;
     Project.financial_data := dict_get project_data key_financial;
     Project.team := dict_get project_data key_team;
     Project.business_model := dict_get project_data key_model;
     Project.core_resource := dict_get project_data key_resource;
     Project.market_share := dict_get project_data key_share;
     Project.business_outlook := dict_get project_data key_outlook;
     Project.other_info := dict_get project_data key_other;
     Project.remark := remark;
     Project.marked := marked;
     Project.files := [];
     Project.create_time := None;
     Project.update_time := None |}.

(** A computation that leaves the file system as it is. *)
Definition keeps_fs {A} (m : io A) : Prop :=
  forall w r w', m w = (r, w') -> w_fs w' = w_fs w.

(** Nothing is in [fs'] that was not in [fs]: no file, no directory, and no
    file where [fs] had a directory. *)
Definition fs_shrunk (fs fs' : filesystem) : Prop :=
  (forall k d, fs_files fs' !! k = Some d -> fs_files fs !! k = Some d)
  /\ (forall k, k ∈ fs_dirs fs' -> k ∈ fs_dirs fs)
  /\ (forall k, k ∈ fs_dirs fs -> k ∉ fs_dirs fs' -> fs_files fs' !! k = None).

(** No part of the path is [..]. *)
Definition plain (p : parts) : bool := forallb (fun c => negb (str_eqb c dotdot)) p.

(** [f"{new_stage}/{project_id}/{Path(rel_path).name}"], the path that
    [update_project_stage] gives to a stored path. *)
Definition moved_path (new_stage project_id rel_path : pystr) : pystr :=
  new_stage ++ [slash] ++ project_id ++ [slash] ++ path_name rel_path.

(** The invariant of the stored paths: every path of a row is
    [{stage}/{id}/{file name}] for the stage and the id of the row. *)
Definition well_placed (r : Project.t) : bool :=
  forallb (placed_under (Project.stage r) (Project.id r)) (Project.files r).

(** A list of rows in the order of [ORDER BY update_time DESC]: no row is
    older than a row that comes after it. *)
Fixpoint newest_first (l : list Project.t) : bool :=
  match l with
  | [] => true
  | x :: rest =>
      forallb (fun y => negb (time_ltb (Project.update_time x) (Project.update_time y))) rest
      && newest_first rest
  end.

(** ** The tab of a stage

    The functions that [create_stage_tab] binds to the widgets of the tab
    of [stage_name]; [pm] is the one [ProjectManager]. *)

(** A cell of the table widget: a string or a number. *)
Inductive cell :=
| CellStr (s : pystr)
| CellNum (n : nat).

Definition mark_bright : pystr := Eval vm_compute in py "🔆 醒目".
Definition mark_plain : pystr := Eval vm_compute in py "⚪ 普通".
Definition ellipsis : pystr := Eval vm_compute in py "...".
Definition msg_enter_id : pystr := Eval vm_compute in py "❌ 请输入项目ID".
Definition key_stage : pystr := Eval vm_compute in py "项目阶段".

(** One turn of the loop of [refresh_table]. *)
Definition table_row (p : summary) : list cell :=
  let marked_text := if str_eqb (sum_marked p) highlight then mark_bright else mark_plain in
  let remark_short :=
    if (15 <? Z.of_nat (length (sum_remark p))) then slice_to 15 (sum_remark p) ++ ellipsis
    else sum_remark p in
  [CellStr (sum_id p); CellStr (sum_name p); CellStr marked_text; CellStr remark_short;
   CellNum (length (sum_files p)); CellStr (sum_update_time p)].

Definition refresh_table (o : oracle) (stage_name : pystr)
  : world -> list (list cell) * world :=
  fun w =>
    let '(projects, w') := get_projects_by_stage o stage_name 100 w in
    match projects with
    | [] => ([[]], w')
    | _ :: _ => (List.map table_row projects, w')
    end.

Definition handle_view_detail (o : oracle) (project_id : pystr)
  : world -> (pystr * list parts) * world :=
  match project_id with
  | [] => fun w => ((msg_enter_id, []), w)
  | _ :: _ => get_project_detail o project_id
  end.

(** The function bound to the button that submits the form: the fields
    of the form become a dictionary, the remark and the mark are passed as
    they are. *)
Definition submit_form (o : oracle) (stage_name : pystr)
  (n t i ic m r fd tm bm cr ms bo oi : pystr) (files : option (list (option upload)))
  : world -> pystr * world :=
  add_project o stage_name
    (<[key_name := n]>
       (<[key_type := t]>
          (<[key_industry := i]>
             (<[key_industry_code := ic]>
                (<[key_stage := stage_name]>
                   (<[key_financial := fd]>
                      (<[key_team := tm]>
                         (<[key_model := bm]>
                            (<[key_resource := cr]>
                               (<[key_share := ms]>
                                  (<[key_outlook := bo]>
                                     (<[key_other := oi]> ∅))))))))))))
    r m files.

(** What [get_base_dir] may do to the files: none appears or changes, and
    none disappears but a file named [.write_test]. *)
Definition probed (fs fs' : filesystem) : Prop :=
  (forall q d, fs_files fs' !! q = Some d -> fs_files fs !! q = Some d)
  /\ (forall q d, fs_files fs !! q = Some d -> List.last q [] <> write_test ->
      fs_files fs' !! q = Some d).

(** No file and no directory of [fs] is at [q] or below it. *)
Definition nothing_under (fs : filesystem) (q : parts) : bool :=
  forallb (fun k => negb (under q k))
    (List.map fst (map_to_list (fs_files fs)) ++ elements (fs_dirs fs)).

(** The state of the loop of [update_project_stage] between two turns, for
    a record whose files go to the new directory [new_dir]: the stored
    paths [todo] still lead to their files, the stored paths [done] lead to
    nothing and their files are in [new_dir], and nothing else is there;
    [fs0] is the file system before the first turn. *)
Definition moving (fs0 fs : filesystem) (new_dir : parts) (done todo : list pystr) : Prop :=
  (forall p, In p todo ->
     exists q d,
       stat fs (path_join FILE_STORAGE_DIR p) = inr (q, RegularFile)
       /\ fs_files fs !! q = Some d
       /\ read_file fs0 (path_join FILE_STORAGE_DIR p) = Some d
       /\ ~ new_dir `prefix_of` q)
  /\ (forall p, In p done ->
        read_file fs (new_dir ++ [path_name p]) = read_file fs0 (path_join FILE_STORAGE_DIR p)
        /\ read_file fs (path_join FILE_STORAGE_DIR p) = None)
  /\ (forall k, k ∈ fs_dirs fs -> new_dir `prefix_of` k -> k = new_dir)
  /\ (forall k d, fs_files fs !! k = Some d -> new_dir `prefix_of` k ->
      exists p, In p done /\ k = new_dir ++ [path_name p])
  /\ (forall k, k ∈ fs_dirs fs -> k ∈ fs_dirs fs0 \/ fs_files fs0 !! k = None)
  /\ (forall k, k ∈ fs_dirs fs0 -> k ∈ fs_dirs fs)
  /\ (done = [] -> fs_files fs = fs_files fs0)
  /\ (done <> [] -> path_is_dir fs new_dir = true).

(** * Properties *)

(** ** The sanitizer *)

Lemma re_sub_negated_filter cls s :
  re_sub_negated unicode_isalnum cls s = List.filter (in_class unicode_isalnum cls) s.
Proof.
  induction s as [|c s IH]; simpl; [reflexivity|].
  destruct (in_class unicode_isalnum cls c); simpl; now rewrite IH.
Qed.

Lemma in_stem_class c : in_class unicode_isalnum stem_class c = keep_in_stem c.
Proof.
  unfold in_class, stem_class, keep_in_stem, is_cjk; simpl; unfold is_word.
  destruct (py_isalnum unicode_isalnum c), (c =? chr "_"), (19968 <=? c), (c <=? 40959),
    (c =? chr "-"), (c =? chr "."), (c =? chr " "); reflexivity.
Qed.

Lemma in_ext_class c : in_class unicode_isalnum ext_class c = keep_in_ext c.
Proof.
  unfold in_class, ext_class, keep_in_ext; simpl; unfold is_word.
  destruct (py_isalnum unicode_isalnum c), (c =? chr "_"), (c =? chr "."); reflexivity.
Qed.

Lemma splitext_nil fl : splitext fl [] = ([], []).
Proof. destruct fl; reflexivity. Qed.

Lemma rfind_from_bounds c s : forall i last,
  -1 <= last < i -> -1 <= rfind_from i c s last < i + Z.of_nat (length s).
Proof.
  induction s as [|x s IH]; intros i last H; simpl; [lia|].
  destruct (x =? c).
  - specialize (IH (i + 1) i). lia.
  - specialize (IH (i + 1) last). lia.
Qed.

Lemma rfind_bounds c s : -1 <= rfind c s < Z.of_nat (length s).
Proof. unfold rfind. pose proof (rfind_from_bounds c s 0 (-1)). lia. Qed.

Lemma splitext_scan_enough p d : forall f1 f2 i,
  (Z.to_nat (d - i) <= f1)%nat -> (Z.to_nat (d - i) <= f2)%nat ->
  splitext_scan f1 p i d = splitext_scan f2 p i d.
Proof.
  induction f1 as [|f1 IH]; intros f2 i H1 H2.
  - destruct f2 as [|f2]; simpl; [reflexivity|].
    destruct (i <? d) eqn:E; [apply Z.ltb_lt in E; lia|reflexivity].
  - destruct f2 as [|f2]; simpl.
    + destruct (i <? d) eqn:E; [apply Z.ltb_lt in E; lia|reflexivity].
    + destruct (i <? d) eqn:E; [|reflexivity]. apply Z.ltb_lt in E.
      destruct (bool_decide (p !! Z.to_nat i = Some extsep)); [|reflexivity].
      apply IH; lia.
Qed.

(** The loop of [splitext] has ended within the steps the model allows
    it: more steps give the same result. *)
Lemma splitext_loop_ends fl p extra :
  let sepIndex :=
    match os_altsep fl with
    | Some a => Z.max (rfind (os_sep fl) p) (rfind a p)
    | None => rfind (os_sep fl) p
    end in
  splitext_scan (length p + extra) p (sepIndex + 1) (rfind extsep p)
  = splitext_scan (length p) p (sepIndex + 1) (rfind extsep p).
Proof.
  intros sepIndex.
  pose proof (rfind_bounds extsep p). pose proof (rfind_bounds (os_sep fl) p).
  assert (-1 <= sepIndex).
  { subst sepIndex. destruct (os_altsep fl); lia. }
  apply splitext_scan_enough; lia.
Qed.

(** C5, as the code has it: the stem keeps exactly the alphanumeric
    characters, the CJK ideographs and [-_. ]; the extension keeps exactly
    the alphanumeric characters, the underscore and the dot; an empty stem
    becomes [unnamed_file] and an empty extension [.bin]. *)
Theorem sanitize_filename_filters fl filename :
  sanitize_filename unicode_isalnum fl filename = sanitize_by keep_in_ext fl filename.
Proof.
  unfold sanitize_by, sanitize_filename.
  destruct filename as [|c s].
  - rewrite splitext_nil. reflexivity.
  - destruct (splitext fl (c :: s)) as [name ext]; simpl fst; simpl snd.
    rewrite !re_sub_negated_filter.
    rewrite (filter_ext _ _ in_stem_class), (filter_ext _ _ in_ext_class).
    reflexivity.
Qed.

Lemma keep_in_stem_not_separator c : keep_in_stem c = true -> is_separator c = false.
Proof.
  unfold is_separator. intros H.
  destruct (c =? chr "/") eqn:E1; [apply Z.eqb_eq in E1; subst c; discriminate H|].
  destruct (c =? chr "\") eqn:E2; [apply Z.eqb_eq in E2; subst c; discriminate H|].
  reflexivity.
Qed.

Lemma keep_in_ext_not_separator c : keep_in_ext c = true -> is_separator c = false.
Proof.
  unfold is_separator. intros H.
  destruct (c =? chr "/") eqn:E1; [apply Z.eqb_eq in E1; subst c; discriminate H|].
  destruct (c =? chr "\") eqn:E2; [apply Z.eqb_eq in E2; subst c; discriminate H|].
  reflexivity.
Qed.

Lemma or_else_no_separator (keep : Z -> bool) l d :
  (forall c, keep c = true -> is_separator c = false) ->
  forallb (fun c => negb (is_separator c)) d = true ->
  forallb (fun c => negb (is_separator c)) (or_else (List.filter keep l) d) = true.
Proof.
  intros Hk Hd. unfold or_else.
  destruct (List.filter keep l) as [|x r] eqn:E; [exact Hd|].
  rewrite <- E. apply forallb_forall. intros c Hc.
  apply filter_In in Hc. destruct Hc as [_ Hc]. now rewrite (Hk c Hc).
Qed.

Lemma or_else_not_nil x d : d <> [] -> or_else x d <> [].
Proof. destruct x; simpl; [auto|discriminate]. Qed.

(** C6: [sanitize_filename] is total, and its result is never empty and
    holds neither [/] nor [\], whatever the flavour of [os.path]. *)
Theorem sanitize_filename_safe fl filename :
  exists out,
    sanitize_filename unicode_isalnum fl filename = out
    /\ out <> []
    /\ forallb (fun c => negb (is_separator c)) out = true.
Proof.
  eexists. split; [reflexivity|]. rewrite sanitize_filename_filters.
  unfold sanitize_by. split.
  - intros H. apply app_eq_nil in H. destruct H as [H _].
    revert H. apply or_else_not_nil. discriminate.
  - rewrite forallb_app. apply andb_true_intro. split.
    + apply or_else_no_separator; [apply keep_in_stem_not_separator|reflexivity].
    + apply or_else_no_separator; [apply keep_in_ext_not_separator|reflexivity].
Qed.

(** ** How the world grows *)

Lemma log_ext_refl P w : log_ext P w w.
Proof. exists []. split; [now rewrite app_nil_r|reflexivity]. Qed.

Lemma log_ext_trans P w1 w2 w3 : log_ext P w1 w2 -> log_ext P w2 w3 -> log_ext P w1 w3.
Proof.
  intros (e1 & H1 & F1) (e2 & H2 & F2). exists (e1 ++ e2). split.
  - rewrite H2, H1. now rewrite app_assoc.
  - rewrite forallb_app, F1, F2. reflexivity.
Qed.

Lemma log_ext_weaken (P Q : event -> bool) w w' :
  (forall ev, P ev = true -> Q ev = true) -> log_ext P w w' -> log_ext Q w w'.
Proof.
  intros HPQ (evs & H & F). exists evs. split; [exact H|].
  apply forallb_forall. intros ev Hev. apply HPQ.
  eapply forallb_forall in F; eauto.
Qed.

Lemma log_ext_log (P : event -> bool) ev w : P ev = true -> log_ext P w (log ev w).
Proof. intros H. exists [ev]. split; [reflexivity|]. simpl. now rewrite H. Qed.

Lemma grows_refl P w : grows P w w.
Proof. split; [reflexivity|apply log_ext_refl]. Qed.

Lemma grows_trans P w1 w2 w3 : grows P w1 w2 -> grows P w2 w3 -> grows P w1 w3.
Proof.
  intros [T1 L1] [T2 L2]. split; [congruence|eapply log_ext_trans; eauto].
Qed.

Lemma grows_weaken (P Q : event -> bool) w w' :
  (forall ev, P ev = true -> Q ev = true) -> grows P w w' -> grows Q w w'.
Proof. intros HPQ [T L]. split; [exact T|eapply log_ext_weaken; eauto]. Qed.

Lemma grows_log (P : event -> bool) ev w : P ev = true -> grows P w (log ev w).
Proof. intros H. split; [reflexivity|now apply log_ext_log]. Qed.

Lemma grows_set_fs P fs w : grows P w (set_fs fs w).
Proof. split; [reflexivity|]. exists []. split; [simpl; now rewrite app_nil_r|reflexivity]. Qed.

Lemma grows_tick P w : grows P w (tick w).
Proof. split; [reflexivity|]. exists []. split; [simpl; now rewrite app_nil_r|reflexivity]. Qed.

Lemma io_grows_ret {A} P (a : A) : io_grows P (ret a).
Proof. intros w r w' H. inversion H; subst. apply grows_refl. Qed.

Lemma io_grows_raise {A} P e : io_grows P (@raise world A e).
Proof. intros w r w' H. inversion H; subst. apply grows_refl. Qed.

Lemma io_grows_bind {A B} P (m : io A) (k : A -> io B) :
  io_grows P m -> (forall a, io_grows P (k a)) -> io_grows P (bind m k).
Proof.
  intros Hm Hk w r w' H. unfold bind in H.
  destruct (m w) as [[e|a] w1] eqn:E.
  - inversion H; subst. eapply Hm; eauto.
  - eapply grows_trans; [eapply Hm; eauto|eapply Hk; eauto].
Qed.

Lemma io_grows_swallow P (m : io unit) : io_grows P m -> io_grows P (swallow m).
Proof.
  intros Hm w r w' H. unfold swallow in H.
  destruct (m w) as [[e|a] w1] eqn:E; inversion H; subst; eapply Hm; eauto.
Qed.

Lemma io_grows_call {A} P (f : world -> A * world) :
  (forall w a w', f w = (a, w') -> grows P w w') -> io_grows P (call f).
Proof.
  intros Hf w r w' H. unfold call in H.
  destruct (f w) as [a w1] eqn:E. inversion H; subst. eapply Hf; eauto.
Qed.

Lemma returning_grows {A} P (m : io A) (h : exn -> world -> A * world) :
  io_grows P m ->
  (forall e w a w', h e w = (a, w') -> grows P w w') ->
  forall w a w', returning m h w = (a, w') -> grows P w w'.
Proof.
  intros Hm Hh w a w' H. unfold returning in H.
  destruct (m w) as [[e|x] w1] eqn:E.
  - eapply grows_trans; [eapply Hm; eauto|eapply Hh; eauto].
  - inversion H; subst. eapply Hm; eauto.
Qed.

Lemma io_grows_read_fs {A} P (f : filesystem -> A) : io_grows P (read_fs f).
Proof. intros w r w' H. inversion H; subst. apply grows_refl. Qed.

Lemma io_grows_now P o : io_grows P (now o).
Proof. intros w r w' H. inversion H; subst. apply grows_tick. Qed.

Lemma io_grows_emit (P : event -> bool) ev : P ev = true -> io_grows P (emit ev).
Proof. intros HP w r w' H. inversion H; subst. now apply grows_log. Qed.

Lemma io_grows_fs_op (P : event -> bool) f ev : P ev = true -> io_grows P (fs_op f ev).
Proof.
  intros HP w r w' H. unfold fs_op in H.
  destruct (f (w_fs w)) as [e|fs']; inversion H; subst; [apply grows_refl|].
  eapply grows_trans; [apply grows_set_fs|now apply grows_log].
Qed.

Lemma io_grows_fs_op2 (P : event -> bool) f ev : P ev = true -> io_grows P (fs_op2 f ev).
Proof.
  intros HP w r w' H. unfold fs_op2 in H.
  destruct (f (w_fs w)) as [fs' [e|]]; inversion H; subst; [apply grows_set_fs|].
  eapply grows_trans; [apply grows_set_fs|now apply grows_log].
Qed.

Lemma io_grows_for_each {A} P (f : A -> io unit) l :
  (forall a, io_grows P (f a)) -> io_grows P (for_each f l).
Proof.
  intros Hf. induction l as [|a l IH]; simpl.
  - apply io_grows_ret.
  - apply io_grows_bind; [apply Hf|intros _; exact IH].
Qed.

Lemma io_grows_iterdir P p : io_grows P (iterdir p).
Proof.
  intros w r w' H. unfold iterdir in H.
  destruct (stat (w_fs w) p) as [e|[q [| |]]]; inversion H; subst; apply grows_refl.
Qed.

Lemma tx_grows_ret {A} P (a : A) : tx_grows P (ret a).
Proof. intros s w r s' w' H. inversion H; subst. apply grows_refl. Qed.

Lemma tx_grows_bind {A B} P (m : tx A) (k : A -> tx B) :
  tx_grows P m -> (forall a, tx_grows P (k a)) -> tx_grows P (bind m k).
Proof.
  intros Hm Hk s w r s' w' H. unfold bind in H.
  destruct (m (s, w)) as [[e|a] [s1 w1]] eqn:E.
  - inversion H; subst. eapply Hm; eauto.
  - eapply grows_trans; [eapply Hm; eauto|eapply Hk; eauto].
Qed.

Lemma tx_grows_lift {A} P (m : io A) : io_grows P m -> tx_grows P (lift m).
Proof.
  intros Hm s w r s' w' H. unfold lift in H. simpl in H.
  destruct (m w) as [x w1] eqn:E. inversion H; subst. eapply Hm; eauto.
Qed.

Lemma tx_grows_query_first (P : event -> bool) o pid :
  P EvSelect = true -> tx_grows P (query_first o pid).
Proof.
  intros HP s w r s' w' H. unfold query_first in H.
  destruct (db_read_fails o); [inversion H; subst; apply grows_refl|].
  destruct (find_row pid (s_loaded s)); [inversion H; subst; now apply grows_log|].
  simpl in H.
  destruct (find_row pid (w_table w)); inversion H; subst; now apply grows_log.
Qed.

Lemma tx_grows_set_attr P pid f : tx_grows P (set_attr pid f).
Proof. intros s w r s' w' H. inversion H; subst. apply grows_refl. Qed.

Lemma tx_grows_session_add (P : event -> bool) p :
  P (EvSessionAdd (Project.id p)) = true -> tx_grows P (session_add p).
Proof. intros HP s w r s' w' H. inversion H; subst. now apply grows_log. Qed.

Lemma tx_grows_session_delete (P : event -> bool) p :
  P (EvSessionDelete (Project.id p)) = true -> tx_grows P (session_delete p).
Proof. intros HP s w r s' w' H. inversion H; subst. now apply grows_log. Qed.

Create HintDb grows.

#[local] Hint Resolve io_grows_ret io_grows_raise io_grows_read_fs io_grows_now
  io_grows_iterdir tx_grows_ret tx_grows_set_attr grows_refl : grows.

Ltac grows_step :=
  first
    [ apply io_grows_bind; [|intros ?]
    | apply tx_grows_bind; [|intros ?]
    | apply io_grows_swallow
    | apply tx_grows_lift
    | apply io_grows_fs_op; reflexivity
    | apply io_grows_fs_op2; reflexivity
    | apply io_grows_emit; reflexivity
    | apply tx_grows_query_first; reflexivity
    | apply tx_grows_session_add; reflexivity
    | apply tx_grows_session_delete; reflexivity
    | solve [auto with grows] ].

Ltac grows_auto := repeat grows_step.

Lemma save_uploaded_file_grows o file stage project_id w a w' :
  save_uploaded_file o file stage project_id w = (a, w') -> grows fs_event w w'.
Proof.
  unfold save_uploaded_file. destruct (negb (truthy file)).
  - intros H. inversion H; subst. apply grows_refl.
  - apply returning_grows.
    + grows_auto. destruct file; grows_auto.
    + intros e w0 a0 w0' H. inversion H; subst. now apply grows_log.
Qed.

Lemma save_files_grows o stage project_id files file_paths :
  io_grows fs_event (save_files o stage project_id files file_paths).
Proof.
  revert file_paths. induction files as [|[file|] rest IH]; intros file_paths; simpl.
  - grows_auto.
  - apply io_grows_bind.
    + apply io_grows_call. apply save_uploaded_file_grows.
    + intros [[|c p]|]; apply IH.
  - apply IH.
Qed.

Lemma relocate_files_grows new_stage project_id rel_paths acc :
  io_grows fs_event (relocate_files new_stage project_id rel_paths acc).
Proof.
  revert acc. induction rel_paths as [|rel_path rest IH]; intros acc; simpl.
  - grows_auto.
  - grows_auto. destruct a; [grows_auto|]; apply IH.
Qed.

Lemma delete_project_files_grows project :
  io_grows fs_event (delete_project_files project).
Proof.
  unfold delete_project_files. destruct (Project.files project) as [|p l].
  - grows_auto.
  - generalize (p :: l). intros paths. apply io_grows_bind.
    + apply io_grows_for_each. intros rel_path. grows_auto. destruct a; grows_auto.
    + intros _. grows_auto. destruct a; grows_auto.
Qed.

(** ** Strings of paths *)

Lemma split_slash_not_nil s : split_slash s <> [].
Proof.
  destruct s as [|x r]; simpl; [discriminate|].
  destruct (x =? slash); [discriminate|].
  destruct (split_slash r); discriminate.
Qed.

Lemma split_slash_app a b :
  split_slash (a ++ slash :: b) = split_slash a ++ split_slash b.
Proof.
  induction a as [|x a IH]; simpl.
  - reflexivity.
  - destruct (x =? slash); [now rewrite IH|].
    rewrite IH. pose proof (split_slash_not_nil a).
    destruct (split_slash a); [contradiction|reflexivity].
Qed.

Lemma split_slash_no_slash s :
  Forall (fun x => forallb (fun c => negb (c =? slash)) x = true) (split_slash s).
Proof.
  induction s as [|x r IH]; simpl.
  - repeat constructor.
  - destruct (x =? slash) eqn:E.
    + constructor; [reflexivity|exact IH].
    + destruct (split_slash r) as [|h t]; [repeat constructor; simpl; now rewrite E|].
      inversion IH; subst. constructor; [simpl; now rewrite E|assumption].
Qed.

Lemma parse_parts_no_slash s :
  Forall (fun x => forallb (fun c => negb (c =? slash)) x = true) (parse_parts s).
Proof.
  unfold parse_parts. apply List.Forall_forall. intros x Hx.
  apply filter_In in Hx. destruct Hx as [Hx _].
  pose proof (split_slash_no_slash s) as H.
  rewrite List.Forall_forall in H. now apply H.
Qed.

Lemma last_Forall {A} (P : A -> Prop) (l : list A) d :
  P d -> Forall P l -> P (List.last l d).
Proof.
  intros Hd H. induction H as [|x l Hx Hl IH]; simpl; [exact Hd|].
  destruct l; [exact Hx|exact IH].
Qed.

Lemma path_name_no_slash s : forallb (fun c => negb (c =? slash)) (path_name s) = true.
Proof.
  unfold path_name.
  apply (last_Forall (fun x => forallb (fun c => negb (c =? slash)) x = true));
    [reflexivity|apply parse_parts_no_slash].
Qed.

(** ** Moving a record *)

Lemma strip_prefix_app pre s : strip_prefix pre (pre ++ s) = Some s.
Proof.
  induction pre as [|a pre IH]; simpl; [reflexivity|].
  now rewrite Z.eqb_refl.
Qed.

Lemma placed_under_new stage pid rel_path :
  placed_under stage pid (stage ++ [slash] ++ pid ++ [slash] ++ path_name rel_path) = true.
Proof.
  unfold placed_under.
  replace (stage ++ [slash] ++ pid ++ [slash] ++ path_name rel_path)
    with ((stage ++ [slash] ++ pid ++ [slash]) ++ path_name rel_path)
    by (now rewrite <- !app_assoc).
  rewrite strip_prefix_app. apply path_name_no_slash.
Qed.

Lemma strip_prefix_some pre : forall s rest,
  strip_prefix pre s = Some rest -> s = pre ++ rest.
Proof.
  induction pre as [|a pre IH]; intros s rest H; simpl in *.
  - now inversion H.
  - destruct s as [|b s]; [discriminate H|].
    destruct (a =? b) eqn:E; [|discriminate H].
    apply Z.eqb_eq in E. subst b. now rewrite (IH _ _ H).
Qed.

Lemma split_slash_plain a :
  forallb (fun c => negb (c =? slash)) a = true -> split_slash a = [a].
Proof.
  induction a as [|x a IH]; simpl; [reflexivity|]. intros H.
  apply andb_true_iff in H. destruct H as [Hx Ha].
  apply negb_true_iff in Hx. rewrite Hx, (IH Ha). reflexivity.
Qed.

(** For a stage and an id without a slash, the first two segments of a
    path that is placed under them are the stage and the id. *)
Lemma placed_under_segments stage pid p :
  placed_under stage pid p = true ->
  forallb (fun c => negb (c =? slash)) stage = true ->
  forallb (fun c => negb (c =? slash)) pid = true ->
  exists filename, split_slash p = [stage; pid; filename].
Proof.
  unfold placed_under. intros H Hs Hp.
  destruct (strip_prefix (stage ++ [slash] ++ pid ++ [slash]) p) as [fn|] eqn:E;
    [|discriminate H].
  apply strip_prefix_some in E. subst p. exists fn.
  replace ((stage ++ [slash] ++ pid ++ [slash]) ++ fn)
    with (stage ++ slash :: (pid ++ slash :: fn))
    by (repeat (rewrite <- app_assoc; simpl); reflexivity).
  rewrite !split_slash_app.
  now rewrite (split_slash_plain _ Hs), (split_slash_plain _ Hp), (split_slash_plain _ H).
Qed.

Lemma relocate_files_placed new_stage project_id rel_paths acc w out w' :
  relocate_files new_stage project_id rel_paths acc w = (inr out, w') ->
  forallb (placed_under new_stage project_id) acc = true ->
  forallb (placed_under new_stage project_id) out = true.
Proof.
  revert acc w. induction rel_paths as [|rel_path rest IH]; intros acc w H Hacc.
  - inversion H; subst. exact Hacc.
  - simpl in H. unfold bind, read_fs in H.
    destruct (path_exists (w_fs w) (path_join FILE_STORAGE_DIR rel_path)).
    + destruct (fs_op _ _ w) as [[e|[]] w1]; [discriminate|].
      destruct (fs_op2 _ _ w1) as [[e|[]] w2]; [discriminate|].
      eapply IH; [exact H|].
      pose proof (placed_under_new new_stage project_id rel_path) as Hp.
      rewrite forallb_app, Hacc. simpl in *. now rewrite Hp.
    + eapply IH; eauto.
Qed.

Lemma find_row_id pid tb r : find_row pid tb = Some r -> Project.id r = pid.
Proof.
  intros H. apply find_some in H. destruct H as [_ H].
  unfold str_eqb in H. now apply bool_decide_eq_true in H.
Qed.

Lemma find_row_replace pid tb r row :
  find_row pid tb = Some r -> Project.id row = pid ->
  find_row pid
    (List.map (fun x => if str_eqb (Project.id x) pid then row else x) tb) = Some row.
Proof.
  intros H Hrow. induction tb as [|x tb IH]; [discriminate|].
  unfold find_row in *. simpl in *.
  destruct (str_eqb (Project.id x) pid) eqn:E.
  - rewrite Hrow. unfold str_eqb. rewrite bool_decide_eq_true_2 by reflexivity. reflexivity.
  - rewrite E. now apply IH.
Qed.
Lemma remove_if_empty_grows old_dir : io_grows fs_event (remove_if_empty old_dir).
Proof.
  unfold remove_if_empty. grows_auto. destruct a; grows_auto. destruct a; grows_auto.
Qed.

Lemma str_eqb_refl a : str_eqb a a = true.
Proof. unfold str_eqb. now apply bool_decide_eq_true_2. Qed.

(** What the block of [update_project_stage] returns and leaves in the
    session: the record is not found, or its loaded object carries the new
    stage and the new paths. *)
Lemma move_block_result o pid s2 w msg s w1 :
  update_project_stage_block o pid s2 (no_session, w) = (inr msg, (s, w1)) ->
  (msg = msg_not_found /\ s = no_session /\ w_table w1 = w_table w
   /\ find_row pid (w_table w) = None)
  \/ (is_success msg = true
      /\ exists r obj,
           find_row pid (w_table w) = Some r
           /\ w_table w1 = w_table w
           /\ s = {| s_new := []; s_loaded := [obj]; s_deleted := [] |}
           /\ Project.id obj = pid
           /\ Project.stage obj = s2
           /\ forallb (placed_under s2 pid) (Project.files obj) = true).
Proof.
  intros H. unfold update_project_stage_block, bind, query_first in H.
  destruct (db_read_fails o); simpl in H; [discriminate H|].
  destruct (find_row pid (w_table w)) as [r|] eqn:F.
  2:{ inversion H; subst. left. auto. }
  right. pose proof (find_row_id _ _ _ F) as Hid.
  unfold set_attr in H. simpl in H. rewrite Hid, str_eqb_refl in H.
  destruct (Project.files r) as [|p l] eqn:Fl.
  - unfold ret at 1 in H. unfold lift in H. simpl in H.
    destruct (remove_if_empty _ (log EvSelect w)) as [[e|[]] wb] eqn:R; simpl in H;
      [discriminate H|].
    inversion H; subst. apply remove_if_empty_grows in R. destruct R as [T _].
    split; [reflexivity|].
    exists r, (Project.set_stage s2 r). simpl. rewrite Fl. repeat split; auto.
  - remember (relocate_files s2 pid (p :: l) []) as reloc eqn:Er.
    unfold lift at 1 in H. simpl in H.
    destruct (reloc (log EvSelect w)) as [[e|new] wa] eqn:Rl;
      simpl in H; [discriminate H|]. subst reloc.
    simpl in H. rewrite Hid, str_eqb_refl in H.
    unfold lift in H. simpl in H.
    destruct (remove_if_empty _ wa) as [[e|[]] wb] eqn:R; simpl in H; [discriminate H|].
    inversion H; subst. apply remove_if_empty_grows in R. destruct R as [T _].
    pose proof (relocate_files_grows _ _ _ _ _ _ _ Rl) as [T' _].
    pose proof (relocate_files_placed _ _ _ _ _ _ _ Rl eq_refl) as Hp.
    clear Rl. split; [reflexivity|].
    exists r, (Project.set_files new (Project.set_stage s2 r)). simpl in *.
    repeat split; auto. congruence.
Qed.

Lemma commit_loaded_one o obj w1 w2 r u :
  commit o {| s_new := []; s_loaded := [obj]; s_deleted := [] |} w1 = (inr u, w2) ->
  find_row (Project.id obj) (w_table w1) = Some r ->
  exists r',
    find_row (Project.id obj) (w_table w2) = Some r'
    /\ Project.id r' = Project.id obj
    /\ Project.stage r' = Project.stage obj
    /\ Project.files r' = Project.files obj.
Proof.
  intros H F. unfold commit, flush, bind in H. simpl in H.
  unfold bind, sql_update in H. rewrite F in H.
  destruct (bool_decide (obj = r)) eqn:E.
  - apply bool_decide_eq_true in E. subst r. simpl in H. inversion H; subst.
    exists obj. simpl. auto.
  - simpl in H. unfold bind, now, sql_write in H. simpl in H.
    destruct (db_write_fails o); simpl in H; [discriminate H|].
    inversion H; subst. simpl.
    eexists. split; [eapply find_row_replace; [exact F|reflexivity]|]. simpl. auto.
Qed.

(** C1: after a successful move to [s2] the stored record has stage [s2],
    and every stored attachment path is [{s2}/{id}/{filename}] for the id of
    the record. *)
Theorem update_project_stage_places_files o pid s2 w msg w' :
  update_project_stage o pid s2 w = (msg, w') ->
  is_success msg = true ->
  exists r,
    find_row pid (w_table w') = Some r
    /\ Project.id r = pid
    /\ Project.stage r = s2
    /\ forallb (placed_under s2 (Project.id r)) (Project.files r) = true.
Proof.
  intros H Hs. unfold update_project_stage, returning in H.
  destruct (get_db o (update_project_stage_block o pid s2) w) as [[e|a] wg] eqn:G.
  - inversion H; subst. discriminate Hs.
  - inversion H; subst a wg. clear H. unfold get_db in G.
    destruct (update_project_stage_block o pid s2 (no_session, w)) as [[e|a] [s w1]] eqn:B;
      [discriminate G|].
    destruct (commit o s w1) as [[e|u] w2] eqn:C; [discriminate G|].
    inversion G; subst a w2. clear G.
    destruct (move_block_result _ _ _ _ _ _ _ B)
      as [(Hm & _)|(_ & r & obj & F & T & Hsess & Hid & Hst & Hpl)];
      [subst msg; discriminate Hs|].
    subst s. rewrite <- T, <- Hid in F.
    destruct (commit_loaded_one _ _ _ _ _ _ C F) as (r' & F' & Hid' & Hst' & Hfl').
    exists r'. rewrite Hid in F'. rewrite Hid', Hst', Hfl', Hid. auto.
Qed.

(** ** Transactions *)

Lemma io_logs_of_grows {A} P (m : io A) : io_grows P m -> io_logs P m.
Proof. intros H w r w' E. now destruct (H _ _ _ E). Qed.

Lemma io_logs_ret {A} P (a : A) : io_logs P (ret a).
Proof. apply io_logs_of_grows, io_grows_ret. Qed.

Lemma io_logs_bind {A B} P (m : io A) (k : A -> io B) :
  io_logs P m -> (forall a, io_logs P (k a)) -> io_logs P (bind m k).
Proof.
  intros Hm Hk w r w' H. unfold bind in H.
  destruct (m w) as [[e|a] w1] eqn:E.
  - inversion H; subst. eapply Hm; eauto.
  - eapply log_ext_trans; [eapply Hm; eauto|eapply Hk; eauto].
Qed.

Lemma io_logs_for_each {A} P (f : A -> io unit) l :
  (forall a, io_logs P (f a)) -> io_logs P (for_each f l).
Proof.
  intros Hf. induction l as [|a l IH]; simpl.
  - apply io_logs_ret.
  - apply io_logs_bind; [apply Hf|intros _; exact IH].
Qed.

Lemma sql_write_grows P o : io_grows P (sql_write o).
Proof. unfold sql_write. destruct (db_write_fails o); auto with grows. Qed.

Lemma log_ext_set_table P tb w : log_ext P w (set_table tb w).
Proof. exists []. split; [simpl; now rewrite app_nil_r|reflexivity]. Qed.

Lemma sql_insert_logs o p : io_logs session_event (sql_insert o p).
Proof.
  unfold sql_insert.
  apply io_logs_bind; [apply io_logs_of_grows, io_grows_now|intros c].
  apply io_logs_bind; [apply io_logs_of_grows, io_grows_now|intros u].
  apply io_logs_bind; [apply io_logs_of_grows, sql_write_grows|intros _].
  intros w r w' H. destruct (has_row (Project.id p) (w_table w)).
  - inversion H; subst. apply log_ext_refl.
  - inversion H; subst.
    eapply log_ext_trans; [apply log_ext_set_table|now apply log_ext_log].
Qed.

Lemma sql_update_logs o deleted obj : io_logs session_event (sql_update o deleted obj).
Proof.
  intros w r w' H. unfold sql_update in H.
  destruct (find_row (Project.id obj) (w_table w)) as [row|];
    [|inversion H; subst; apply log_ext_refl].
  destruct (bool_decide (obj = row) || bool_decide (Project.id obj ∈ deleted));
    [inversion H; subst; apply log_ext_refl|].
  revert w r w' H.
  apply io_logs_bind; [apply io_logs_of_grows, io_grows_now|intros u].
  apply io_logs_bind; [apply io_logs_of_grows, sql_write_grows|intros _].
  intros w r w' H. inversion H; subst.
  eapply log_ext_trans; [apply log_ext_set_table|now apply log_ext_log].
Qed.

Lemma sql_delete_logs o pid : io_logs session_event (sql_delete o pid).
Proof.
  unfold sql_delete.
  apply io_logs_bind; [apply io_logs_of_grows, sql_write_grows|intros _].
  intros w r w' H. inversion H; subst.
  eapply log_ext_trans; [apply log_ext_set_table|now apply log_ext_log].
Qed.

Lemma commit_logs o s : io_logs session_event (commit o s).
Proof.
  unfold commit, flush.
  repeat (apply io_logs_bind; [|intros _]).
  - apply io_logs_for_each. intros p. apply sql_insert_logs.
  - apply io_logs_for_each. intros p. apply sql_update_logs.
  - apply io_logs_for_each. intros p. apply sql_delete_logs.
  - apply io_logs_of_grows, io_grows_emit. reflexivity.
Qed.

Lemma commit_ends_with_commit o s w u w' :
  commit o s w = (inr u, w') -> exists evs, w_log w' = evs ++ [EvCommit].
Proof.
  unfold commit, bind. destruct (flush o s w) as [[e|[]] w1]; [discriminate|].
  intros H. inversion H; subst. eexists. reflexivity.
Qed.

Lemma commit_no_session o w : commit o no_session w = (inr tt, log EvCommit w).
Proof. reflexivity. Qed.

(** An exception out of a [with get_db()] block leaves the table as it was
    when the block was entered. *)
Lemma get_db_raises_restores {A} o (body : tx A) w e w' :
  get_db o body w = (inl e, w') -> w_table w' = w_table w.
Proof.
  unfold get_db. destruct (body (no_session, w)) as [[e1|a] [s w1]].
  - intros H. inversion H; subst. reflexivity.
  - destruct (commit o s w1) as [[e2|u] w2]; intros H; inversion H; subst. reflexivity.
Qed.

Lemma get_db_returns {A} o (body : tx A) w a w' :
  get_db o body w = (inr a, w') ->
  exists s w1 u, body (no_session, w) = (inr a, (s, w1)) /\ commit o s w1 = (inr u, w').
Proof.
  unfold get_db. destruct (body (no_session, w)) as [[e1|a1] [s w1]]; [discriminate|].
  destruct (commit o s w1) as [[e2|u] w2] eqn:C; intros H; inversion H; subst.
  eauto.
Qed.

(** The trace of a [with get_db()] block: what the block records, then
    what the commit or the rollback records. *)
Lemma get_db_logs {A} (P : event -> bool) o (body : tx A) w r w' :
  tx_grows P body ->
  get_db o body w = (r, w') ->
  exists mid, log_ext P w mid /\ log_ext session_event mid w'.
Proof.
  intros Hb. unfold get_db.
  destruct (body (no_session, w)) as [[e1|a] [s w1]] eqn:B.
  - intros H. inversion H; subst. exists w1. split; [eapply Hb; eauto|].
    eapply log_ext_trans; [apply log_ext_set_table|now apply log_ext_log].
  - pose proof (Hb _ _ _ _ _ B) as [_ L].
    destruct (commit o s w1) as [[e2|u] w2] eqn:C; intros H; inversion H; subst;
      exists w1; (split; [exact L|]).
    + eapply log_ext_trans; [eapply commit_logs; eauto|].
      eapply log_ext_trans; [apply log_ext_set_table|now apply log_ext_log].
    + eapply commit_logs; eauto.
Qed.

(** ** Adding a record *)

(** C3: with an empty name [add_project] returns the validation message
    and leaves the world, table and files, as it was. *)
Theorem add_project_rejects_empty_name o stage project_data remark marked files w :
  dict_get project_data key_name = [] ->
  add_project o stage project_data remark marked files w = (msg_name_empty, w)
  /\ is_failure msg_name_empty = true.
Proof.
  intros H. unfold add_project, returning. rewrite H. split; reflexivity.
Qed.

(** The trace of [add_project]: the events of the file store, then those
    of the session. *)
Lemma add_project_trace o stage project_data remark marked files w :
  exists saves rest,
    w_log (snd (add_project o stage project_data remark marked files w))
    = w_log w ++ saves ++ rest
    /\ forallb fs_event saves = true
    /\ forallb session_event rest = true.
Proof.
  unfold add_project, returning.
  destruct (dict_get project_data key_name) as [|c name].
  - exists [], []. simpl. rewrite app_nil_r. auto.
  - unfold bind. unfold get_db.
    set (blk := add_project_block _ _ _ _ _ _ _).
    assert (Hblk : forall r s w1, blk (no_session, w) = (r, (s, w1)) ->
              exists wa, log_ext fs_event w wa /\ log_ext session_event wa w1).
    { subst blk. unfold add_project_block, bind, lift. simpl.
      intros r s w1.
      destruct (save_files _ _ _ _ _ w) as [[e|fps] wa] eqn:S; intros H; inversion H; subst.
      - exists w1. split; [eapply save_files_grows; eauto|apply log_ext_refl].
      - exists wa. split; [eapply save_files_grows; eauto|]. now apply log_ext_log. }
    destruct (blk (no_session, w)) as [[e|a] [s w1]] eqn:B;
      destruct (Hblk _ _ _ eq_refl) as (wa & (saves & Hs & Fs) & (r1 & Hr1 & Fr1)).
    + exists saves, (r1 ++ [EvRollback]). simpl.
      rewrite Hr1, Hs, forallb_app, Fr1, <- !app_assoc. auto.
    + destruct (commit o s w1) as [[e|u] w2] eqn:C;
        destruct (commit_logs o s _ _ _ C) as (r2 & Hr2 & Fr2); simpl.
      * exists saves, (r1 ++ r2 ++ [EvRollback]).
        rewrite Hr2, Hr1, Hs, !forallb_app, Fr1, Fr2, <- !app_assoc. auto.
      * exists saves, (r1 ++ r2).
        rewrite Hr2, Hr1, Hs, !forallb_app, Fr1, Fr2, <- !app_assoc. auto.
Qed.

(** C7: in the steps that [add_project] adds to the trace, every copy of
    an uploaded file comes before the record is added to the session and
    before its row is inserted. *)
Theorem add_project_saves_before_insert o stage project_data remark marked files w :
  exists steps,
    w_log (snd (add_project o stage project_data remark marked files w))
    = w_log w ++ steps
    /\ forall i j evi evj,
         steps !! i = Some evi -> row_insert evi = true ->
         steps !! j = Some evj -> file_write evj = true ->
         (j < i)%nat.
Proof.
  destruct (add_project_trace o stage project_data remark marked files w)
    as (saves & rest & Hlog & Fs & Fr).
  exists (saves ++ rest). split; [exact Hlog|].
  intros i j evi evj Hi Ri Hj Wj.
  assert (Li : (length saves <= i)%nat).
  { destruct (Nat.le_gt_cases (length saves) i) as [|Hlt]; [assumption|].
    rewrite lookup_app_l in Hi by exact Hlt.
    apply list_elem_of_lookup_2, list_elem_of_In in Hi.
    rewrite forallb_forall in Fs. specialize (Fs _ Hi).
    destruct evi; discriminate. }
  assert (Lj : (j < length saves)%nat).
  { destruct (Nat.le_gt_cases (length saves) j) as [Hge|]; [|assumption].
    rewrite lookup_app_r in Hj by exact Hge.
    apply list_elem_of_lookup_2, list_elem_of_In in Hj.
    rewrite forallb_forall in Fr. specialize (Fr _ Hj).
    destruct evj; discriminate. }
  lia.
Qed.

(** ** Record ids *)

Lemma hex_digits_app n v acc : hex_digits n v acc = hex_digits n v [] ++ acc.
Proof.
  revert v acc. induction n as [|n IH]; intros v acc; simpl; [reflexivity|].
  rewrite (IH _ (_ :: acc)), (IH _ [_]). now rewrite <- app_assoc.
Qed.

Lemma hexdigit_lower_hex d : 0 <= d < 16 -> is_lower_hex (hexdigit d) = true.
Proof.
  intros H. unfold is_lower_hex, hexdigit. change (chr "0") with 48.
  change (chr "9") with 57. change (chr "a") with 97. change (chr "f") with 102.
  destruct (d <? 10) eqn:E; [apply Z.ltb_lt in E|apply Z.ltb_ge in E].
  - apply orb_true_iff. left. apply andb_true_iff. split; apply Z.leb_le; lia.
  - apply orb_true_iff. right. apply andb_true_iff. split; apply Z.leb_le; lia.
Qed.

Lemma hex_digits_shape n v :
  length (hex_digits n v []) = n /\ forallb is_lower_hex (hex_digits n v []) = true.
Proof.
  revert v. induction n as [|n IH]; intros v; simpl; [auto|].
  rewrite hex_digits_app. destruct (IH (v / 16)) as [L F].
  rewrite length_app, forallb_app, L, F. simpl.
  rewrite hexdigit_lower_hex by (apply Z.mod_pos_bound; lia).
  split; [lia|reflexivity].
Qed.

Lemma project_id_of_shape u :
  exists h,
    project_id_of u = proj_ ++ h
    /\ length h = 8%nat
    /\ forallb is_lower_hex h = true
    /\ length (project_id_of u) = 13%nat.
Proof.
  unfold project_id_of, uuid_hex, slice_to.
  destruct (hex_digits_shape 32 u) as [L F].
  exists (take (Z.to_nat 8) (hex_digits 32 u [])).
  assert (L8 : length (take (Z.to_nat 8) (hex_digits 32 u [])) = 8%nat).
  { rewrite length_take, L. reflexivity. }
  split; [reflexivity|]. split; [exact L8|]. split.
  - apply forallb_forall. intros c Hc. rewrite forallb_forall in F. apply F.
    apply list_elem_of_In in Hc. apply list_elem_of_In.
    apply elem_of_take in Hc. destruct Hc as (i & Hi & _).
    eapply list_elem_of_lookup_2; eauto.
  - rewrite length_app, L8. reflexivity.
Qed.

(** ** Results of the manager *)

Lemma delete_block_result o pid w msg s w1 :
  delete_project_block o pid (no_session, w) = (inr msg, (s, w1)) ->
  (msg = msg_not_found /\ s = no_session /\ w_table w1 = w_table w)
  \/ is_success msg = true.
Proof.
  intros H. unfold delete_project_block, bind, query_first in H.
  destruct (db_read_fails o); simpl in H; [discriminate H|].
  destruct (find_row pid (w_table w)) as [r|] eqn:F.
  2:{ inversion H; subst. left. auto. }
  right. unfold lift in H. simpl in H.
  destruct (delete_project_files r (log EvSelect w)) as [[e|[]] wa]; simpl in H;
    [discriminate H|].
  inversion H; subst. reflexivity.
Qed.

Lemma transactional_failed o {A} (body : tx A) w e w' (text : pystr) :
  get_db o body w = (inl e, w') ->
  is_failure text = true ->
  transactional w (text, w').
Proof.
  intros G Hf. right. split; [exact Hf|]. simpl.
  eapply get_db_raises_restores; eauto.
Qed.

Lemma add_project_transactional o stage project_data remark marked files w :
  transactional w (add_project o stage project_data remark marked files w).
Proof.
  unfold add_project, returning.
  destruct (dict_get project_data key_name) as [|c name].
  - right. split; reflexivity.
  - unfold bind.
    destruct (get_db o _ w) as [[e|pid] w'] eqn:G.
    + eapply transactional_failed; eauto.
    + left. split; [reflexivity|]. simpl.
      apply get_db_returns in G. destruct G as (s & w1 & u & _ & C).
      eapply commit_ends_with_commit; eauto.
Qed.

Lemma update_project_stage_transactional o pid s2 w :
  transactional w (update_project_stage o pid s2 w).
Proof.
  unfold update_project_stage, returning.
  destruct (get_db o _ w) as [[e|msg] w'] eqn:G.
  - eapply transactional_failed; eauto.
  - apply get_db_returns in G. destruct G as (s & w1 & u & B & C).
    apply move_block_result in B.
    destruct B as [(Hm & Hs & T & _)|(Hok & _)].
    + subst msg s. rewrite commit_no_session in C. inversion C; subst.
      right. split; [reflexivity|exact T].
    + left. split; [exact Hok|]. eapply commit_ends_with_commit; eauto.
Qed.

Lemma delete_project_transactional o pid w :
  transactional w (delete_project o pid w).
Proof.
  unfold delete_project, returning.
  destruct (get_db o _ w) as [[e|msg] w'] eqn:G.
  - eapply transactional_failed; eauto.
  - apply get_db_returns in G. destruct G as (s & w1 & u & B & C).
    apply delete_block_result in B.
    destruct B as [(Hm & Hs & T)|Hok].
    + subst msg s. rewrite commit_no_session in C. inversion C; subst.
      right. split; [reflexivity|exact T].
    + left. split; [exact Hok|]. eapply commit_ends_with_commit; eauto.
Qed.

(** A loaded object that was not changed is not written. *)
Lemma commit_unchanged o r w :
  find_row (Project.id r) (w_table w) = Some r ->
  commit o (set_loaded [r] no_session) w = (inr tt, log EvCommit w).
Proof.
  intros F. unfold commit, flush, bind. simpl. unfold bind, sql_update.
  rewrite F. rewrite bool_decide_eq_true_2 by reflexivity. reflexivity.
Qed.

Lemma get_project_detail_result o pid w :
  let res := get_project_detail o pid w in
  w_table (snd res) = w_table w
  /\ (db_read_fails o = true \/ find_row pid (w_table w) = None ->
      is_failure (fst (fst res)) = true /\ snd (fst res) = [])
  /\ (forall r,
        db_read_fails o = false -> find_row pid (w_table w) = Some r ->
        fst res = (detail_text r, get_file_objects (Project.files r) (w_fs w))).
Proof.
  unfold get_project_detail, returning, get_db, bind, query_first. simpl.
  destruct (db_read_fails o); simpl.
  - split; [reflexivity|]. split; [auto|]. intros r H. discriminate H.
  - destruct (find_row pid (w_table w)) as [r|] eqn:F; simpl.
    + unfold lift, read_fs. simpl. rewrite commit_unchanged.
      * simpl. split; [reflexivity|]. split.
        -- intros [H|H]; discriminate H.
        -- intros r' _ H. inversion H; subst. reflexivity.
      * simpl. now rewrite (find_row_id _ _ _ F).
    + split; [reflexivity|]. split; [auto|]. intros r _ H. discriminate H.
Qed.

Lemma get_projects_by_stage_result o stage limit w :
  let res := get_projects_by_stage o stage limit w in
  w_table (snd res) = w_table w
  /\ (db_read_fails o = true -> fst res = [])
  /\ (db_read_fails o = false ->
      fst res
      = List.map summary_of
          (take limit
             (order_desc
                (List.filter (fun r => str_eqb (Project.stage r) stage) (w_table w))))).
Proof.
  unfold get_projects_by_stage, returning, get_db, bind, query_by_stage, lift. simpl.
  destruct (db_read_fails o); simpl.
  - split; [reflexivity|]. split; [auto|]. intros H. discriminate H.
  - split; [reflexivity|]. split; [|auto]. intros H. discriminate H.
Qed.

(** C8, as the code has it: [add_project], [update_project_stage] and
    [delete_project] return a message that starts with a check mark, after
    a commit, or with a cross, and then the table is as it was;
    [get_project_detail] returns the report with the files that exist, or a
    message with a cross and no file when the lookup fails;
    [get_projects_by_stage] returns a plain list, the listing or the empty
    list when the query fails.  None of them can raise: each is a function
    to its result. *)
Theorem manager_results o w :
  (forall stage project_data remark marked files,
     transactional w (add_project o stage project_data remark marked files w))
  /\ (forall pid new_stage, transactional w (update_project_stage o pid new_stage w))
  /\ (forall pid, transactional w (delete_project o pid w))
  /\ (forall pid,
        let res := get_project_detail o pid w in
        w_table (snd res) = w_table w
        /\ (db_read_fails o = true \/ find_row pid (w_table w) = None ->
            is_failure (fst (fst res)) = true /\ snd (fst res) = [])
        /\ (forall r,
              db_read_fails o = false -> find_row pid (w_table w) = Some r ->
              fst res = (detail_text r, get_file_objects (Project.files r) (w_fs w))))
  /\ (forall stage limit,
        let res := get_projects_by_stage o stage limit w in
        w_table (snd res) = w_table w
        /\ (db_read_fails o = true -> fst res = [])
        /\ (db_read_fails o = false ->
            fst res
            = List.map summary_of
                (take limit
                   (order_desc
                      (List.filter (fun r => str_eqb (Project.stage r) stage)
                         (w_table w)))))).
Proof.
  split; [|split; [|split; [|split]]].
  - intros. apply add_project_transactional.
  - intros. apply update_project_stage_transactional.
  - intros. apply delete_project_transactional.
  - intros. apply get_project_detail_result.
  - intros. apply get_projects_by_stage_result.
Qed.

(** ** The file system under new directories and new files *)

Lemma node_at_dir fs q : node_at fs q = Directory <-> (q = [] \/ q ∈ fs_dirs fs).
Proof.
  unfold node_at. case_bool_decide as H.
  - tauto.
  - split; [|tauto]. destruct (fs_files fs !! q); discriminate.
Qed.

Lemma node_at_file fs q :
  node_at fs q = RegularFile <->
  (q <> [] /\ (q ∉ fs_dirs fs) /\ exists data, fs_files fs !! q = Some data).
Proof.
  unfold node_at. case_bool_decide as H.
  - split; [discriminate|]. intros (H1 & H2 & _). tauto.
  - destruct (fs_files fs !! q) as [d|]; split.
    + intros _. repeat split; [tauto|tauto|eauto].
    + reflexivity.
    + discriminate.
    + intros (_ & _ & d' & Hd). discriminate Hd.
Qed.

Lemma dirs_added_refl fs : dirs_added fs fs.
Proof. repeat split; auto. intros q H1 H2. contradiction. Qed.

Lemma dirs_added_node fs fs1 q :
  dirs_added fs fs1 -> node_at fs q <> Missing -> node_at fs1 q = node_at fs q.
Proof.
  intros (Hf & Hd & Hn) Hq.
  destruct (node_at fs q) eqn:E; [contradiction| |].
  - apply node_at_file in E. destruct E as (H1 & H2 & d & Hd').
    apply node_at_file. repeat split; [exact H1| |exists d; now rewrite Hf].
    intros Hin. specialize (Hn q Hin H2).
    unfold node_at in Hn. rewrite bool_decide_eq_false_2 in Hn by tauto.
    rewrite Hd' in Hn. discriminate.
  - apply node_at_dir in E. apply node_at_dir. destruct E; auto.
Qed.

Lemma dirs_added_trans fs1 fs2 fs3 :
  dirs_added fs1 fs2 -> dirs_added fs2 fs3 -> dirs_added fs1 fs3.
Proof.
  intros H12 H23.
  pose proof H12 as (Hf1 & Hd1 & Hn1). pose proof H23 as (Hf2 & Hd2 & Hn2).
  repeat split; [congruence|auto|]. intros q H3 H1.
  destruct (decide (q ∈ fs_dirs fs2)) as [H2|H2]; [auto|].
  specialize (Hn2 q H3 H2).
  destruct (node_at fs1 q) eqn:E; [reflexivity| |].
  - rewrite <- (dirs_added_node _ _ q H12) in E by congruence. congruence.
  - rewrite <- (dirs_added_node _ _ q H12) in E by congruence. congruence.
Qed.

Lemma dirs_added_walk fs fs1 p : forall cur q,
  dirs_added fs fs1 -> walk fs cur p = inr q -> walk fs1 cur p = inr q.
Proof.
  induction p as [|c rest IH]; intros cur q H W; simpl in *; [exact W|].
  destruct (node_at fs cur) eqn:E; try discriminate.
  rewrite (dirs_added_node _ _ cur H) by congruence. rewrite E. now apply IH.
Qed.

Lemma dirs_added_stat fs fs1 p q k :
  dirs_added fs fs1 -> stat fs p = inr (q, k) -> stat fs1 p = inr (q, k).
Proof.
  intros H S. unfold stat, locate in *.
  destruct (walk fs [] p) as [e|q'] eqn:W; [discriminate|].
  rewrite (dirs_added_walk _ _ _ _ _ H W).
  destruct (node_at fs q') eqn:E; try discriminate;
    rewrite (dirs_added_node _ _ q' H) by congruence; rewrite E; exact S.
Qed.

Lemma dirs_added_read fs fs1 p data :
  dirs_added fs fs1 -> read_file fs p = Some data -> read_file fs1 p = Some data.
Proof.
  intros H R. unfold read_file in *.
  destruct (stat fs p) as [e|[q k]] eqn:S; [discriminate|].
  rewrite (dirs_added_stat _ _ _ _ _ H S).
  destruct k; try discriminate. destruct H as (Hf & _). now rewrite Hf.
Qed.

Lemma os_mkdir_adds fs p fs1 : os_mkdir fs p = inr fs1 -> dirs_added fs fs1.
Proof.
  unfold os_mkdir. destruct (locate fs p) as [e|q]; [discriminate|].
  destruct (node_at fs q) eqn:E; try discriminate.
  intros H. inversion H; subst. unfold add_dir. repeat split; simpl.
  - intros q' Hq'. apply elem_of_union. now right.
  - intros q' Hq' Hn. apply elem_of_union in Hq'. destruct Hq' as [Hq'|Hq'].
    + apply elem_of_singleton in Hq'. now subst.
    + contradiction.
Qed.

Lemma path_mkdir_adds fs p ok fs1 : path_mkdir fs p ok = inr fs1 -> dirs_added fs fs1.
Proof.
  unfold path_mkdir. destruct (os_mkdir fs p) as [e|fs'] eqn:E; intros H.
  - destruct e; try discriminate H;
      destruct (ok && path_is_dir fs p); try discriminate H;
      inversion H; subst; apply dirs_added_refl.
  - inversion H; subst. exact (os_mkdir_adds _ _ _ E).
Qed.

Lemma mkdir_parents_rev_adds rp : forall fs fs1,
  mkdir_parents_rev fs rp = inr fs1 -> dirs_added fs fs1.
Proof.
  induction rp as [|c rparent IH]; intros fs fs1; cbn [mkdir_parents_rev rev app].
  - destruct (os_mkdir fs []) as [e|fs'] eqn:E; intros H.
    + destruct e; try discriminate H;
        destruct (path_is_dir fs []); try discriminate H;
        inversion H; subst; apply dirs_added_refl.
    + inversion H; subst. exact (os_mkdir_adds _ _ _ E).
  - destruct (os_mkdir fs (rev rparent ++ [c])) as [e|fs'] eqn:E; intros H.
    + destruct e;
        try (destruct (path_is_dir fs (rev rparent ++ [c])); try discriminate H;
             inversion H; subst; apply dirs_added_refl).
      destruct (mkdir_parents_rev fs rparent) as [e|fs2] eqn:M; [discriminate H|].
      eapply dirs_added_trans; [eapply IH; eauto|eapply path_mkdir_adds; eauto].
    + inversion H; subst. exact (os_mkdir_adds _ _ _ E).
Qed.

Lemma mkdir_parents_adds fs p fs1 : mkdir_parents fs p = inr fs1 -> dirs_added fs fs1.
Proof. apply mkdir_parents_rev_adds. Qed.

Lemma same_dirs_node_dir fs fs2 q :
  fs_dirs fs2 = fs_dirs fs -> node_at fs q = Directory -> node_at fs2 q = Directory.
Proof. intros Hd H. apply node_at_dir in H. apply node_at_dir. now rewrite Hd. Qed.

Lemma same_dirs_walk fs fs2 p : forall cur q,
  fs_dirs fs2 = fs_dirs fs -> walk fs cur p = inr q -> walk fs2 cur p = inr q.
Proof.
  induction p as [|c rest IH]; intros cur q Hd W; simpl in *; [exact W|].
  destruct (node_at fs cur) eqn:E; try discriminate.
  rewrite (same_dirs_node_dir _ _ _ Hd E). now apply IH.
Qed.

Lemma write_file_node fs qd data :
  node_at fs qd <> Directory -> node_at (write_file fs qd data) qd = RegularFile.
Proof.
  intros H. apply node_at_file. simpl.
  assert (Hn : ~ (qd = [] \/ qd ∈ fs_dirs fs)) by (intros Hc; apply H, node_at_dir, Hc).
  repeat split; [tauto|tauto|]. exists data. apply lookup_insert_eq.
Qed.

Lemma path_is_dir_same_dirs fs fs2 p :
  fs_dirs fs2 = fs_dirs fs -> path_is_dir fs p = true -> path_is_dir fs2 p = true.
Proof.
  intros Hd H. unfold path_is_dir, stat, locate in *.
  destruct (walk fs [] p) as [e|q] eqn:W; [discriminate|].
  rewrite (same_dirs_walk _ _ _ _ _ Hd W).
  destruct (node_at fs q) eqn:E; try discriminate.
  now rewrite (same_dirs_node_dir _ _ _ Hd E).
Qed.

(** What a successful [shutil.copy2] has done. *)
Lemma copy2_at_result fs srcp base dst fs2 :
  copy2_at fs srcp base dst = inr fs2 ->
  exists qs data qd,
    stat fs srcp = inr (qs, RegularFile)
    /\ fs_files fs !! qs = Some data
    /\ locate fs (if path_is_dir fs dst then dst ++ parse_parts base else dst) = inr qd
    /\ node_at fs qd <> Directory
    /\ fs2 = write_file fs qd data.
Proof.
  unfold copy2_at. set (dst' := if path_is_dir fs dst then _ else _). intros H.
  destruct (samefile fs srcp dst'); [discriminate H|].
  destruct (stat fs srcp) as [e|[qs k]] eqn:S; [discriminate H|].
  assert (Hk : k = RegularFile).
  { destruct k; [|reflexivity|discriminate H].
    unfold stat in S. destruct (locate fs srcp) as [e|q0]; [discriminate S|].
    destruct (node_at fs q0); discriminate S. }
  subst k. destruct (fs_files fs !! qs) as [data|] eqn:F; [|discriminate H].
  destruct (locate fs dst') as [e|qd] eqn:L; [discriminate H|].
  destruct (node_at fs qd) eqn:N; inversion H; subst;
    exists qs, data, qd; repeat split; auto; congruence.
Qed.

Lemma path_is_dir_same_dirs_eq fs fs2 p :
  fs_dirs fs2 = fs_dirs fs -> path_is_dir fs2 p = path_is_dir fs p.
Proof.
  intros Hd. destruct (path_is_dir fs p) eqn:D.
  - now apply (path_is_dir_same_dirs fs fs2).
  - destruct (path_is_dir fs2 p) eqn:D2; [|reflexivity].
    rewrite (path_is_dir_same_dirs fs2 fs p (eq_sym Hd) D2) in D. discriminate D.
Qed.

Lemma copy2_at_keeps_source fs srcp base dst fs2 :
  copy2_at fs srcp base dst = inr fs2 ->
  exists data,
    read_file fs srcp = Some data
    /\ read_file fs2 srcp = Some data
    /\ read_file fs2 (copy_target fs2 base dst) = Some data.
Proof.
  intros H. apply copy2_at_result in H.
  destruct H as (qs & data & qd & S & F & L & N & ->).
  exists data.
  assert (Hd : fs_dirs (write_file fs qd data) = fs_dirs fs) by reflexivity.
  split; [unfold read_file; now rewrite S|]. split.
  - unfold read_file, stat, locate in *.
    destruct (walk fs [] srcp) as [e|q] eqn:W; [discriminate|].
    rewrite (same_dirs_walk _ _ _ _ _ Hd W).
    destruct (node_at fs q) eqn:E; try discriminate. inversion S; subst q.
    apply node_at_file in E. destruct E as (E1 & E2 & _).
    assert (E' : node_at (write_file fs qd data) qs = RegularFile).
    { apply node_at_file. simpl. repeat split; auto.
      destruct (decide (qd = qs)) as [->|Hne].
      - exists data. apply lookup_insert_eq.
      - exists data. now rewrite lookup_insert_ne. }
    rewrite E'. simpl.
    destruct (decide (qd = qs)) as [->|Hne];
      [apply lookup_insert_eq|now rewrite lookup_insert_ne].
  - unfold copy_target. rewrite (path_is_dir_same_dirs_eq _ _ dst Hd).
    unfold read_file, stat. unfold locate in *.
    rewrite (same_dirs_walk _ _ _ _ _ Hd L).
    rewrite (write_file_node _ _ _ N). simpl. apply lookup_insert_eq.
Qed.

Lemma shutil_copy2_result fs cwd0 src dst fs2 :
  shutil_copy2 fs cwd0 src dst = inr fs2 ->
  copy2_at fs (path_join cwd0 src) (basename src) dst = inr fs2.
Proof.
  unfold shutil_copy2. destruct (os_stat fs cwd0 src); [discriminate|auto].
Qed.

Lemma parse_parts_app a b : parse_parts (a ++ slash :: b) = parse_parts a ++ parse_parts b.
Proof. unfold parse_parts. now rewrite split_slash_app, List.filter_app. Qed.

Lemma path_join_nested base a b :
  a <> [] -> is_absolute b = false ->
  path_join base (a ++ slash :: b) = path_join (path_join base a) b.
Proof.
  intros Ha Hb. unfold path_join. rewrite Hb, parse_parts_app.
  destruct a as [|c a]; [contradiction|]. simpl.
  destruct (c =? slash); [reflexivity|now rewrite app_assoc].
Qed.

Lemma digit_not_slash d : (digit d =? slash) = false.
Proof.
  apply Z.eqb_neq. unfold digit, slash. change (chr "0") with 48. change (chr "/") with 47.
  pose proof (Z.mod_pos_bound d 10). lia.
Qed.

Lemma stamp_not_absolute t rest : is_absolute (strftime_stamp t ++ rest) = false.
Proof. unfold strftime_stamp, pad4. simpl. apply digit_not_slash. Qed.

(** ** Saving an uploaded file *)

#[local] Arguments strftime_stamp : simpl never.
#[local] Arguments sanitize_filename : simpl never.

(** ** Moving a record to the stage it is in *)

Lemma walk_app fs a b : forall cur,
  walk fs cur (a ++ b) =
  match walk fs cur a with
  | inr q => walk fs q b
  | inl e => inl e
  end.
Proof.
  induction a as [|c a IH]; intros cur; simpl; [reflexivity|].
  destruct (node_at fs cur); auto.
Qed.

Lemma stat_parent_is_dir fs p q k :
  p <> [] -> stat fs p = inr (q, k) ->
  exists q', stat fs (path_parent p) = inr (q', Directory).
Proof.
  intros Hp S. unfold stat, locate in *. unfold path_parent.
  rewrite (app_removelast_last [] Hp) in S. rewrite walk_app in S.
  destruct (walk fs [] (removelast p)) as [e|q'] eqn:W; [discriminate S|].
  exists q'. simpl in S. destruct (node_at fs q') eqn:E; try discriminate S.
  reflexivity.
Qed.

Lemma mkdir_parents_existing fs p q :
  stat fs p = inr (q, Directory) -> mkdir_parents fs p = inr fs.
Proof.
  intros S. unfold mkdir_parents.
  assert (Hm : os_mkdir fs p = inl FileExistsError).
  { unfold os_mkdir. unfold stat in S. destruct (locate fs p) as [e|q0]; [discriminate S|].
    destruct (node_at fs q0); try discriminate S; reflexivity. }
  assert (Hd : path_is_dir fs p = true) by (unfold path_is_dir; now rewrite S).
  rewrite <- (rev_involutive p) in Hm, Hd.
  destruct (rev p) as [|c rp]; cbn [mkdir_parents_rev]; rewrite Hm, Hd; reflexivity.
Qed.

Lemma shutil_move_same fs p q :
  stat fs p = inr (q, RegularFile) -> ends_with_dotdot p = false ->
  shutil_move fs p p = (fs, None).
Proof.
  intros S Hdd. unfold shutil_move.
  assert (Hd : path_is_dir fs p = false) by (unfold path_is_dir; now rewrite S).
  rewrite Hd. unfold rename_or_copy, os_rename. rewrite Hdd. simpl. rewrite S.
  assert (L : locate fs p = inr q).
  { unfold stat in S. destruct (locate fs p) as [e|q0]; [discriminate S|].
    destruct (node_at fs q0); inversion S; reflexivity. }
  rewrite L. rewrite bool_decide_eq_true_2 by reflexivity. reflexivity.
Qed.

Lemma last_app_r {A} (l1 l2 : list A) d : l2 <> [] -> List.last (l1 ++ l2) d = List.last l2 d.
Proof.
  intros H. induction l1 as [|x l1 IH]; [reflexivity|].
  simpl. destruct (l1 ++ l2) eqn:E; [|exact IH].
  apply app_eq_nil in E. destruct E; contradiction.
Qed.

Lemma path_join_last base s :
  path_name s <> [] -> List.last (path_join base s) [] = path_name s.
Proof.
  intros H. unfold path_join, path_name in *.
  destruct (is_absolute s); [reflexivity|].
  apply last_app_r. intros E. rewrite E in H. now apply H.
Qed.

(** The steps of the loop for a path that is in place change nothing. *)
Lemma relocate_files_in_place stage pid paths : forall acc w,
  forallb (in_place (w_fs w) stage pid) paths = true ->
  exists w',
    relocate_files stage pid paths acc w = (inr (acc ++ paths), w')
    /\ w_fs w' = w_fs w /\ w_table w' = w_table w /\ w_ticks w' = w_ticks w.
Proof.
  induction paths as [|p rest IH]; intros acc w H.
  - exists w. simpl. rewrite app_nil_r. auto.
  - simpl in H. apply andb_true_iff in H. destruct H as [Hp Hrest].
    unfold in_place in Hp.
    destruct (stat (w_fs w) (path_join FILE_STORAGE_DIR p)) as [e|[q k]] eqn:S;
      [discriminate Hp|].
    destruct k; try discriminate Hp.
    apply andb_true_iff in Hp. destruct Hp as [Hp Hdd].
    apply andb_true_iff in Hp. destruct Hp as [Heq Hne].
    unfold str_eqb in Heq, Hne, Hdd.
    apply bool_decide_eq_true in Heq.
    apply negb_true_iff, bool_decide_eq_false in Hne.
    apply negb_true_iff, bool_decide_eq_false in Hdd.
    assert (Hnil : path_join FILE_STORAGE_DIR p <> []).
    { intros E. rewrite E in S. discriminate S. }
    destruct (stat_parent_is_dir _ _ _ _ Hnil S) as (q' & Sp).
    assert (Hend : ends_with_dotdot (path_join FILE_STORAGE_DIR p) = false).
    { unfold ends_with_dotdot, str_eqb. rewrite path_join_last by exact Hne.
      now apply bool_decide_eq_false. }
    cbn [relocate_files]. unfold bind, read_fs, fs_op, fs_op2.
    assert (Hex : path_exists (w_fs w) (path_join FILE_STORAGE_DIR p) = true)
      by (unfold path_exists; now rewrite S).
    rewrite Hex. rewrite <- Heq.
    rewrite (mkdir_parents_existing _ _ _ Sp). cbn [w_fs log set_fs].
    rewrite (shutil_move_same _ _ _ S Hend).
    set (w1 := log _ (set_fs _ (log _ (set_fs _ w)))).
    destruct (IH (acc ++ [p]) w1) as (w' & R & F & T & K); [exact Hrest|].
    exists w'. rewrite R, <- app_assoc. auto.
Qed.

Lemma remove_if_empty_kept p w :
  empty_dir (w_fs w) p = false ->
  exists w',
    remove_if_empty p w = (inr tt, w')
    /\ w_fs w' = w_fs w /\ w_table w' = w_table w /\ w_ticks w' = w_ticks w.
Proof.
  intros H. unfold remove_if_empty, swallow, bind, read_fs, iterdir, path_exists.
  unfold empty_dir in H.
  destruct (stat (w_fs w) p) as [e|[q k]] eqn:S; cbn.
  - exists w. auto.
  - rewrite S. destruct k; cbn.
    + exists w. auto.
    + exists w. auto.
    + destruct (children (w_fs w) q); [discriminate H|]. exists w. auto.
Qed.

Lemma set_same_attrs r :
  Project.set_files (Project.files r) (Project.set_stage (Project.stage r) r) = r
  /\ Project.set_stage (Project.stage r) r = r.
Proof. destruct r; split; reflexivity. Qed.

(** C2, as the code has it: for a record that the query finds, whose
    stored paths are all in place and whose directory is not an empty
    directory, a move to the stage the record is in succeeds and changes
    neither the table nor the file system. *)
Theorem move_to_current_stage_changes_nothing o pid w r :
  db_read_fails o = false ->
  find_row pid (w_table w) = Some r ->
  forallb (in_place (w_fs w) (Project.stage r) pid) (Project.files r) = true ->
  empty_dir (w_fs w) (path_join (path_join FILE_STORAGE_DIR (Project.stage r)) pid) = false ->
  is_success (fst (update_project_stage o pid (Project.stage r) w)) = true
  /\ w_fs (snd (update_project_stage o pid (Project.stage r) w)) = w_fs w
  /\ w_table (snd (update_project_stage o pid (Project.stage r) w)) = w_table w
  /\ w_ticks (snd (update_project_stage o pid (Project.stage r) w)) = w_ticks w.
Proof.
  intros Hdb F Hpl Hdir.
  pose proof (find_row_id _ _ _ F) as Hid.
  destruct (set_same_attrs r) as [Hsf Hss].
  assert (Hblock : exists w1,
             update_project_stage_block o pid (Project.stage r) (no_session, w)
             = (inr (ok_moved_from ++ Project.stage r ++ ok_moved_to
                     ++ Project.stage r ++ ok_moved_end),
                (set_loaded [r] no_session, w1))
             /\ w_fs w1 = w_fs w /\ w_table w1 = w_table w /\ w_ticks w1 = w_ticks w).
  { unfold update_project_stage_block, bind, query_first. rewrite Hdb. simpl.
    rewrite F. unfold set_attr. simpl. rewrite Hid, str_eqb_refl, Hss.
    destruct (Project.files r) as [|p l] eqn:Fl.
    - unfold ret at 1. unfold lift. cbn [fst snd].
      destruct (remove_if_empty_kept _ (log EvSelect w) Hdir) as (w1 & R & H1 & H2 & H3).
      rewrite R. exists w1. auto.
    - remember (relocate_files (Project.stage r) pid (p :: l) []) as reloc eqn:Er.
      unfold lift at 1. cbn [fst snd].
      destruct (relocate_files_in_place (Project.stage r) pid (p :: l) [] (log EvSelect w) Hpl)
        as (wa & Ra & A1 & A2 & A3).
      rewrite <- Er in Ra. rewrite Ra. cbn. rewrite Hid, str_eqb_refl.
      rewrite Hss in Hsf. rewrite Hsf.
      unfold lift. cbn [fst snd].
      assert (Hdir' : empty_dir (w_fs wa)
                        (path_join (path_join FILE_STORAGE_DIR (Project.stage r)) pid) = false)
        by (rewrite A1; exact Hdir).
      destruct (remove_if_empty_kept _ wa Hdir') as (w1 & R & H1 & H2 & H3).
      rewrite R. exists w1. cbn in *. repeat split; congruence. }
  destruct Hblock as (w1 & B & H1 & H2 & H3).
  unfold update_project_stage, returning, get_db. rewrite B.
  rewrite commit_unchanged by (rewrite H2, Hid; exact F).
  cbn. auto.
Qed.

(** ** Deleting a record *)

Lemma find_row_filter_out pid tb :
  find_row pid (List.filter (fun x => negb (str_eqb (Project.id x) pid)) tb) = None.
Proof.
  unfold find_row. induction tb as [|x tb IH]; [reflexivity|].
  simpl. destruct (str_eqb (Project.id x) pid) eqn:E; simpl; [exact IH|].
  now rewrite E.
Qed.

Lemma delete_block_success o pid w msg s w1 :
  delete_project_block o pid (no_session, w) = (inr msg, (s, w1)) ->
  is_success msg = true ->
  exists r,
    find_row pid (w_table w) = Some r
    /\ w_table w1 = w_table w
    /\ s = {| s_new := []; s_loaded := [r]; s_deleted := [pid] |}.
Proof.
  intros H Hs. unfold delete_project_block, bind, query_first in H.
  destruct (db_read_fails o); simpl in H; [discriminate H|].
  destruct (find_row pid (w_table w)) as [r|] eqn:F.
  2:{ inversion H; subst. discriminate Hs. }
  unfold lift in H. simpl in H.
  destruct (delete_project_files r (log EvSelect w)) as [[e|[]] wa] eqn:D; simpl in H;
    [discriminate H|].
  inversion H; subst. exists r.
  destruct (delete_project_files_grows _ _ _ _ D) as [T _].
  rewrite (find_row_id _ _ _ F). auto.
Qed.

(** After a successful [delete_project] no row has the id. *)
Lemma delete_project_removes_record o pid w :
  is_success (fst (delete_project o pid w)) = true ->
  find_row pid (w_table (snd (delete_project o pid w))) = None.
Proof.
  unfold delete_project, returning.
  destruct (get_db o (delete_project_block o pid) w) as [[e|msg] w'] eqn:G; simpl.
  - intros H. discriminate H.
  - intros Hs. apply get_db_returns in G. destruct G as (s & w1 & u & B & C).
    destruct (delete_block_success _ _ _ _ _ _ B Hs) as (r & F & T & ->).
    unfold commit, flush, bind in C. simpl in C. unfold sql_update, bind in C.
    rewrite T, (find_row_id _ _ _ F), F in C.
    rewrite bool_decide_eq_true_2 in C by reflexivity. simpl in C.
    unfold sql_delete, bind, sql_write in C.
    destruct (db_write_fails o); simpl in C; [discriminate C|].
    inversion C; subst. simpl. rewrite T. apply find_row_filter_out.
Qed.

(** [get_project_detail] for an id that no row has. *)
Lemma get_project_detail_not_found o pid w :
  db_read_fails o = false ->
  find_row pid (w_table w) = None ->
  fst (get_project_detail o pid w) = (msg_not_found, []).
Proof.
  intros Hdb F.
  unfold get_project_detail, returning, get_db, bind, query_first.
  rewrite Hdb. simpl. rewrite F. reflexivity.
Qed.

(** * Further properties of the code *)

(** ** [os.path.splitext] and the sanitizer *)

Lemma rfind_from_spec c s : forall i last,
  (rfind_from i c s last = last /\ forallb (fun x => negb (x =? c)) s = true)
  \/ (exists k : nat,
        rfind_from i c s last = i + Z.of_nat k
        /\ s !! k = Some c
        /\ forallb (fun x => negb (x =? c)) (drop (S k) s) = true).
Proof.
  induction s as [|x r IH]; intros i last; simpl.
  - left. split; reflexivity.
  - destruct (IH (i + 1) (if x =? c then i else last)) as [[E F]|(k & E & L & F)].
    + destruct (x =? c) eqn:X.
      * right. exists 0%nat. rewrite E. apply Z.eqb_eq in X. subst x.
        split; [lia|]. split; [reflexivity|exact F].
      * left. rewrite E. split; [reflexivity|]. simpl. now rewrite F.
    + right. exists (S k). rewrite E. split; [lia|]. split; [exact L|exact F].
Qed.

Lemma rfind_spec c s :
  (rfind c s = -1 /\ forallb (fun x => negb (x =? c)) s = true)
  \/ (exists k : nat,
        rfind c s = Z.of_nat k
        /\ s !! k = Some c
        /\ forallb (fun x => negb (x =? c)) (drop (S k) s) = true).
Proof.
  unfold rfind.
  destruct (rfind_from_spec c s 0 (-1)) as [H|(k & E & H)]; [left; exact H|].
  right. exists k. rewrite E. split; [lia|exact H].
Qed.

Lemma forallb_drop {A} (f : A -> bool) n : forall l : list A,
  forallb f l = true -> forallb f (drop n l) = true.
Proof.
  induction n as [|n IH]; intros [|x l] H; simpl; try assumption; try reflexivity.
  simpl in H. apply andb_true_iff in H. apply IH, H.
Qed.

(** No [c] in [s] from the index after [rfind c s] on. *)
Lemma rfind_none_after c s (n : nat) :
  rfind c s < Z.of_nat n -> forallb (fun x => negb (x =? c)) (drop n s) = true.
Proof.
  intros H. destruct (rfind_spec c s) as [[_ F]|(k & E & _ & F)].
  - now apply forallb_drop.
  - replace n with (S k + (n - S k))%nat by lia.
    rewrite <- drop_drop. now apply forallb_drop.
Qed.

Lemma splitext_scan_cases fuel p d : forall i,
  splitext_scan fuel p i d = (p, [])
  \/ splitext_scan fuel p i d = (slice_to d p, slice_from d p).
Proof.
  induction fuel as [|k IH]; intros i; simpl; [now left|].
  destruct (i <? d); [|now left].
  destruct (bool_decide (p !! Z.to_nat i = Some extsep)); [apply IH|now right].
Qed.

Lemma splitext_cut fl p :
  fst (splitext fl p) ++ snd (splitext fl p) = p
  /\ (snd (splitext fl p) = []
      \/ exists e,
           snd (splitext fl p) = extsep :: e
           /\ no_char extsep e = true
           /\ no_char (os_sep fl) e = true
           /\ match os_altsep fl with
              | Some a => no_char a e = true
              | None => True
              end).
Proof.
  unfold splitext.
  set (sepIndex := match os_altsep fl with
                   | Some a => Z.max (rfind (os_sep fl) p) (rfind a p)
                   | None => rfind (os_sep fl) p
                   end).
  destruct (rfind extsep p >? sepIndex) eqn:G;
    [|simpl; rewrite app_nil_r; split; [reflexivity|now left]].
  apply Z.gtb_lt in G.
  destruct (splitext_scan_cases (length p) p (rfind extsep p) (sepIndex + 1)) as [E|E];
    rewrite E; simpl.
  - rewrite app_nil_r. split; [reflexivity|now left].
  - unfold slice_to, slice_from. split; [apply take_drop|]. right.
    assert (Hs : rfind (os_sep fl) p <= sepIndex)
      by (subst sepIndex; destruct (os_altsep fl); lia).
    pose proof (rfind_bounds (os_sep fl) p) as Hb.
    destruct (rfind_spec extsep p) as [[E1 _]|(k & E1 & L & F)]; [lia|].
    rewrite E1, Nat2Z.id. rewrite (drop_S _ _ _ L).
    exists (drop (S k) p). split; [reflexivity|]. split; [exact F|].
    split.
    + apply rfind_none_after. lia.
    + destruct (os_altsep fl) as [a|] eqn:A; [|exact I].
      apply rfind_none_after. subst sepIndex. lia.
Qed.

(** X1: [splitext] cuts a path in two without losing a character; the
    extension is empty, or it is a dot followed by characters that are
    neither a dot nor a separator of the flavour. *)
Theorem splitext_root_ext fl p :
  fst (splitext fl p) ++ snd (splitext fl p) = p
  /\ (snd (splitext fl p) = []
      \/ exists e,
           snd (splitext fl p) = extsep :: e
           /\ no_char extsep e = true
           /\ no_char (os_sep fl) e = true
           /\ match os_altsep fl with
              | Some a => no_char a e = true
              | None => True
              end).
Proof. apply splitext_cut. Qed.

Lemma sanitize_filename_parts fl filename :
  sanitize_filename unicode_isalnum fl filename
  = or_else (List.filter keep_in_stem (fst (splitext fl filename))) unnamed_file
    ++ or_else (List.filter keep_in_ext (snd (splitext fl filename))) dot_bin.
Proof.
  unfold sanitize_filename.
  destruct filename as [|c s].
  - rewrite splitext_nil. reflexivity.
  - destruct (splitext fl (c :: s)) as [name ext]; simpl fst; simpl snd.
    rewrite !re_sub_negated_filter.
    rewrite (filter_ext _ _ in_stem_class), (filter_ext _ _ in_ext_class).
    reflexivity.
Qed.

Lemma keep_in_ext_in_stem c : keep_in_ext c = true -> keep_in_stem c = true.
Proof.
  unfold keep_in_ext, keep_in_stem. intros H.
  apply orb_true_iff in H. destruct H as [H|H].
  - apply orb_true_iff in H. destruct H as [H|H]; rewrite H;
      rewrite ?orb_true_r; reflexivity.
  - rewrite H. rewrite ?orb_true_r. reflexivity.
Qed.

Lemma or_else_forallb (keep good : Z -> bool) l d :
  (forall c, keep c = true -> good c = true) ->
  forallb good d = true ->
  forallb good (or_else (List.filter keep l) d) = true.
Proof.
  intros Hk Hd. unfold or_else.
  destruct (List.filter keep l) as [|x r] eqn:E; [exact Hd|].
  rewrite <- E. apply forallb_forall. intros c Hc.
  apply filter_In in Hc. destruct Hc as [_ Hc]. now apply Hk.
Qed.

Lemma forallb_same {A} (f g : A -> bool) :
  (forall a, f a = g a) -> forall l, forallb f l = forallb g l.
Proof. intros H l. induction l as [|x l IH]; simpl; [reflexivity|]. now rewrite H, IH. Qed.

Lemma sanitize_filename_kept fl filename :
  forallb keep_in_stem (sanitize_filename unicode_isalnum fl filename) = true.
Proof.
  rewrite sanitize_filename_parts, forallb_app. apply andb_true_intro. split.
  - apply or_else_forallb; [auto|reflexivity].
  - apply or_else_forallb; [apply keep_in_ext_in_stem|reflexivity].
Qed.

(** X2: every character of a sanitized name is in the class of the first
    pattern, [\w\u4e00-\u9fff\-_. ]: nothing else is ever put out, for the
    placeholders and the extension as well. *)
Theorem sanitize_filename_whitelist fl filename :
  forallb (in_class unicode_isalnum stem_class)
    (sanitize_filename unicode_isalnum fl filename) = true.
Proof.
  rewrite (forallb_same _ _ in_stem_class). apply sanitize_filename_kept.
Qed.

Lemma filter_all {A} (f : A -> bool) (l : list A) :
  forallb f l = true -> List.filter f l = l.
Proof.
  induction l as [|x l IH]; simpl; [reflexivity|]. intros H.
  apply andb_true_iff in H. destruct H as [Hx Hl]. now rewrite Hx, (IH Hl).
Qed.

(** X3: a name whose stem and extension are not empty and hold only
    characters of their patterns comes back as it is. *)
Theorem sanitize_filename_keeps_clean_name fl filename :
  fst (splitext fl filename) <> [] ->
  snd (splitext fl filename) <> [] ->
  forallb (in_class unicode_isalnum stem_class) (fst (splitext fl filename)) = true ->
  forallb (in_class unicode_isalnum ext_class) (snd (splitext fl filename)) = true ->
  sanitize_filename unicode_isalnum fl filename = filename.
Proof.
  intros N E Fn Fe. rewrite sanitize_filename_parts.
  rewrite (forallb_same _ _ in_stem_class) in Fn.
  rewrite (forallb_same _ _ in_ext_class) in Fe.
  rewrite (filter_all _ _ Fn), (filter_all _ _ Fe).
  destruct (splitext_cut fl filename) as [C _].
  destruct (fst (splitext fl filename)); [contradiction|].
  destruct (snd (splitext fl filename)); [contradiction|].
  exact C.
Qed.

Lemma keep_in_ext_word c :
  keep_in_ext c = true -> (c =? extsep) = false -> is_word unicode_isalnum c = true.
Proof.
  unfold keep_in_ext, is_word. intros H D.
  change (chr ".") with extsep in H. rewrite D, orb_false_r in H. exact H.
Qed.

(** X4: a sanitized name always ends in an extension: a stem that is not
    empty, a dot, and then word characters only (alphanumeric or the
    underscore). *)
Theorem sanitize_filename_has_extension fl filename :
  exists stem e,
    sanitize_filename unicode_isalnum fl filename = stem ++ extsep :: e
    /\ stem <> []
    /\ forallb (is_word unicode_isalnum) e = true.
Proof.
  rewrite sanitize_filename_parts.
  exists (or_else (List.filter keep_in_stem (fst (splitext fl filename))) unnamed_file).
  destruct (splitext_cut fl filename) as [_ [E|(e & E & D & _)]]; rewrite E.
  - exists (py "bin"). split; [reflexivity|].
    split; [apply or_else_not_nil; discriminate|reflexivity].
  - exists (List.filter keep_in_ext e).
    split; [|split; [apply or_else_not_nil; discriminate|]].
    + simpl. replace (keep_in_ext extsep) with true; [reflexivity|].
      unfold keep_in_ext. now rewrite orb_true_r.
    + apply forallb_forall. intros c Hc. apply filter_In in Hc. destruct Hc as [Hc K].
      apply keep_in_ext_word; [exact K|].
      unfold no_char in D. rewrite forallb_forall in D. specialize (D c Hc).
      now apply negb_true_iff in D.
Qed.

(** ** The file store *)

(** What a call of [save_uploaded_file] that returns a path has done. *)
Lemma save_uploaded_file_some o file stage pid w p w' :
  save_uploaded_file o file stage pid w = (Some p, w') ->
  let abs_dir := path_join FILE_STORAGE_DIR (stage ++ [slash] ++ pid) in
  exists src fs1 fs2,
    let file_name :=
      strftime_stamp (clock o (w_ticks w)) ++ [chr "_"]
      ++ sanitize_filename unicode_isalnum Posix (path_name src) in
    file = TempFile src
    /\ mkdir_parents (w_fs w) abs_dir = inr fs1
    /\ shutil_copy2 fs1 cwd src (path_join abs_dir file_name) = inr fs2
    /\ p = (stage ++ [slash] ++ pid) ++ [slash] ++ file_name
    /\ w_fs w' = fs2
    /\ w_table w' = w_table w.
Proof.
  intros H. cbv zeta. unfold save_uploaded_file in H.
  set (abs_dir := path_join FILE_STORAGE_DIR (stage ++ [slash] ++ pid)) in *.
  destruct file as [src|s].
  - cbn [truthy negb] in H. unfold returning, bind, fs_op, now, ret in H.
    destruct (mkdir_parents (w_fs w) abs_dir) as [e|fs1] eqn:Mk; cbn in H;
      [discriminate H|].
    match type of H with
    | context [shutil_copy2 fs1 cwd src ?d] =>
        destruct (shutil_copy2 fs1 cwd src d) as [e|fs2] eqn:Cp
    end; cbn in H; [discriminate H|].
    inversion H; subst. exists src, fs1, fs2. cbn.
    repeat split; try reflexivity; assumption.
  - destruct s as [|c s]; cbn [truthy negb] in H; [discriminate H|].
    unfold returning, bind, fs_op, now, ret, raise in H.
    destruct (mkdir_parents (w_fs w) abs_dir) as [e|fs1]; cbn in H; discriminate H.
Qed.

Lemma copy2_at_dirs fs srcp base dst fs2 :
  copy2_at fs srcp base dst = inr fs2 -> fs_dirs fs2 = fs_dirs fs.
Proof.
  intros H. apply copy2_at_result in H.
  destruct H as (qs & data & qd & _ & _ & _ & _ & ->). reflexivity.
Qed.

(** What a call of [save_uploaded_file] that returns [None] has done: at
    most, directories were made. *)
Lemma save_uploaded_file_none o file stage pid w w' :
  save_uploaded_file o file stage pid w = (None, w') ->
  dirs_added (w_fs w) (w_fs w') /\ w_table w' = w_table w.
Proof.
  unfold save_uploaded_file.
  set (abs_dir := path_join FILE_STORAGE_DIR (stage ++ [slash] ++ pid)).
  intros H.
  assert (G : forall e w1, (None, log (EvPrint (msg_save_failed ++ exn_text e)) w1)
                           = (@None pystr, w') ->
              dirs_added (w_fs w) (w_fs w1) ->  w_table w1 = w_table w ->
              dirs_added (w_fs w) (w_fs w') /\ w_table w' = w_table w).
  { intros e w1 E D T. inversion E; subst. simpl. auto. }
  destruct file as [src|s].
  - cbn [truthy negb] in H. unfold returning, bind, fs_op, now, ret in H.
    destruct (mkdir_parents (w_fs w) abs_dir) as [e|fs1] eqn:Mk; cbn in H.
    + eapply G; [exact H|apply dirs_added_refl|reflexivity].
    + match type of H with
      | context [shutil_copy2 fs1 cwd src ?d] =>
          destruct (shutil_copy2 fs1 cwd src d) as [e|fs2] eqn:Cp
      end; cbn in H; [|discriminate H].
      eapply G; [exact H| |reflexivity]. cbn.
      eapply mkdir_parents_adds; eauto.
  - destruct s as [|c s]; cbn [truthy negb] in H.
    + inversion H; subst. split; [apply dirs_added_refl|reflexivity].
    + unfold returning, bind, fs_op, now, ret, raise in H.
      destruct (mkdir_parents (w_fs w) abs_dir) as [e|fs1] eqn:Mk; cbn in H.
      * eapply G; [exact H|apply dirs_added_refl|reflexivity].
      * eapply G; [exact H| |reflexivity]. cbn. eapply mkdir_parents_adds; eauto.
Qed.

Lemma digit_range d : chr "0" <= digit d <= chr "9".
Proof. unfold digit. pose proof (Z.mod_pos_bound d 10). change (chr "0") with 48. change (chr "9") with 57. lia. Qed.

Lemma stamp_head t : exists c rest, strftime_stamp t = c :: rest /\ chr "0" <= c <= chr "9".
Proof.
  unfold strftime_stamp, pad4. eexists _, _. split; [reflexivity|apply digit_range].
Qed.

Lemma stamp_no_slash t : no_char slash (strftime_stamp t) = true.
Proof.
  unfold strftime_stamp, pad4, pad2, no_char. cbn [app forallb].
  rewrite !digit_not_slash. reflexivity.
Qed.

Lemma no_char_app c a b : no_char c (a ++ b) = no_char c a && no_char c b.
Proof. apply forallb_app. Qed.

Lemma sanitize_filename_no_slash fl s :
  no_char slash (sanitize_filename unicode_isalnum fl s) = true.
Proof.
  pose proof (sanitize_filename_kept fl s) as K.
  apply forallb_forall. intros c Hc. rewrite forallb_forall in K.
  specialize (K c Hc). apply keep_in_stem_not_separator in K.
  unfold is_separator in K. apply orb_false_iff in K. destruct K as [K _].
  change (chr "/") with slash in K. now rewrite K.
Qed.

(** A name without a slash that starts with a digit is one part of a path. *)
Lemma parse_parts_one s c rest :
  s = c :: rest -> chr "0" <= c <= chr "9" -> no_char slash s = true ->
  parse_parts s = [s].
Proof.
  intros E D N. unfold parse_parts. rewrite (split_slash_plain _ N). subst s.
  cbn [List.filter]. unfold str_eqb.
  rewrite bool_decide_eq_false_2 by discriminate.
  rewrite bool_decide_eq_false_2; [reflexivity|].
  unfold dot. intros H. inversion H; subst. change (chr "0") with 48 in D.
  change (chr ".") with 46 in D. lia.
Qed.

Lemma stored_name_one_part t s :
  let file_name := strftime_stamp t ++ [chr "_"] ++ sanitize_filename unicode_isalnum Posix s in
  no_char slash file_name = true /\ parse_parts file_name = [file_name]
  /\ is_absolute file_name = false.
Proof.
  intros file_name.
  assert (N : no_char slash file_name = true).
  { subst file_name. rewrite !no_char_app, stamp_no_slash, sanitize_filename_no_slash.
    reflexivity. }
  split; [exact N|].
  destruct (stamp_head t) as (c & rest & E & D).
  split.
  - apply (parse_parts_one _ c (rest ++ [chr "_"] ++ sanitize_filename unicode_isalnum Posix s));
      [subst file_name; now rewrite E|exact D|exact N].
  - subst file_name. apply stamp_not_absolute.
Qed.

(** X5: whatever the name of the upload, a saved file is stored directly in
    the directory of the record: the returned path is
    [{stage}/{id}/{file name}] with a file name that has no slash and is one
    part of the path. *)
Theorem save_uploaded_file_stays_inside o file stage pid w p :
  fst (save_uploaded_file o file stage pid w) = Some p ->
  exists file_name,
    p = stage ++ [slash] ++ pid ++ [slash] ++ file_name
    /\ no_char slash file_name = true
    /\ placed_under stage pid p = true
    /\ path_join FILE_STORAGE_DIR p
       = path_join FILE_STORAGE_DIR (stage ++ [slash] ++ pid) ++ [file_name].
Proof.
  destruct (save_uploaded_file o file stage pid w) as [r w'] eqn:E. simpl.
  intros ->. apply save_uploaded_file_some in E.
  destruct E as (src & fs1 & fs2 & _ & _ & _ & Hp & _).
  cbv zeta in Hp.
  destruct (stored_name_one_part (clock o (w_ticks w)) (path_name src)) as (N & P & A).
  cbv zeta in N, P, A.
  set (file_name := strftime_stamp (clock o (w_ticks w)) ++ [chr "_"]
                    ++ sanitize_filename unicode_isalnum Posix (path_name src)) in *.
  exists file_name.
  assert (Hp' : p = (stage ++ [slash] ++ pid ++ [slash]) ++ file_name).
  { rewrite Hp. repeat (rewrite <- app_assoc; simpl). reflexivity. }
  split; [rewrite Hp'; repeat (rewrite <- app_assoc; simpl); reflexivity|].
  split; [exact N|]. split.
  - unfold placed_under. rewrite Hp', strip_prefix_app. exact N.
  - rewrite Hp. change ((stage ++ [slash] ++ pid) ++ [slash] ++ file_name)
      with ((stage ++ [slash] ++ pid) ++ slash :: file_name).
    rewrite path_join_nested; [|destruct stage; discriminate|exact A].
    unfold path_join at 1. rewrite A, P. reflexivity.
Qed.

(** X6: a call of [save_uploaded_file] that returns [None] has written no
    file: the files are as they were, and so are the directories, but for
    directories made where nothing was. *)
Theorem save_uploaded_file_failure_writes_nothing o file stage pid w :
  fst (save_uploaded_file o file stage pid w) = None ->
  dirs_added (w_fs w) (w_fs (snd (save_uploaded_file o file stage pid w))).
Proof.
  destruct (save_uploaded_file o file stage pid w) as [r w'] eqn:E. simpl.
  intros ->. apply save_uploaded_file_none in E. apply E.
Qed.

(** ** What stays on disk *)

Lemma stat_kept_refl fs : stat_kept fs fs.
Proof. intros p q k H. exact H. Qed.

Lemma stat_kept_trans fs1 fs2 fs3 : stat_kept fs1 fs2 -> stat_kept fs2 fs3 -> stat_kept fs1 fs3.
Proof. intros H1 H2 p q k H. apply H2, H1, H. Qed.

Lemma dirs_added_kept fs fs1 : dirs_added fs fs1 -> stat_kept fs fs1.
Proof. intros D p q k H. eapply dirs_added_stat; eauto. Qed.

Lemma write_file_kept fs qd data :
  node_at fs qd <> Directory -> stat_kept fs (write_file fs qd data).
Proof.
  intros N p q k H. unfold stat, locate in *.
  destruct (walk fs [] p) as [e|q'] eqn:W; [discriminate H|].
  rewrite (same_dirs_walk fs (write_file fs qd data) p [] q' eq_refl W).
  destruct (node_at fs q') eqn:K; [discriminate H| |]; inversion H; subst q k; clear H.
  - destruct (decide (q' = qd)) as [->|Hne].
    + now rewrite (write_file_node _ _ _ N).
    + apply node_at_file in K. destruct K as (K1 & K2 & d & K3).
      replace (node_at (write_file fs qd data) q') with RegularFile; [reflexivity|].
      symmetry. apply node_at_file. split; [exact K1|]. split; [exact K2|].
      exists d. simpl. now rewrite lookup_insert_ne.
  - now rewrite (same_dirs_node_dir fs (write_file fs qd data) q' eq_refl K).
Qed.

Lemma copy2_at_kept fs srcp base dst fs2 :
  copy2_at fs srcp base dst = inr fs2 -> stat_kept fs fs2.
Proof.
  intros H. apply copy2_at_result in H.
  destruct H as (qs & data & qd & _ & _ & _ & N & ->). now apply write_file_kept.
Qed.

(** After [shutil.copy2(src, dst)], [dst] exists. *)
Lemma copy2_at_exists fs srcp base dst fs2 :
  copy2_at fs srcp base dst = inr fs2 -> path_exists fs2 dst = true.
Proof.
  intros H. pose proof (copy2_at_kept _ _ _ _ _ H) as K.
  apply copy2_at_result in H.
  destruct H as (qs & data & qd & _ & _ & L & N & ->).
  unfold path_exists.
  destruct (path_is_dir fs dst) eqn:D.
  - unfold path_is_dir in D.
    destruct (stat fs dst) as [e|[q [| |]]] eqn:S; try discriminate D.
    now rewrite (K _ _ _ S).
  - unfold stat. unfold locate in *.
    rewrite (same_dirs_walk fs (write_file fs qd data) dst [] qd eq_refl L).
    now rewrite (write_file_node _ _ _ N).
Qed.

Lemma save_uploaded_file_kept o file stage pid w r w' :
  save_uploaded_file o file stage pid w = (r, w') -> stat_kept (w_fs w) (w_fs w').
Proof.
  intros H. destruct r as [p|].
  - apply save_uploaded_file_some in H. cbv zeta in H.
    destruct H as (src & fs1 & fs2 & _ & Mk & Cp & _ & <- & _).
    eapply stat_kept_trans.
    + apply dirs_added_kept. eapply mkdir_parents_adds; eauto.
    + eapply copy2_at_kept. apply shutil_copy2_result. exact Cp.
  - apply save_uploaded_file_none in H. apply dirs_added_kept, H.
Qed.

Lemma path_join_below base a b :
  a <> [] -> is_absolute b = false ->
  path_join base (a ++ [slash] ++ b) = path_join (path_join base a) b.
Proof. apply path_join_nested. Qed.

(** The path that [save_uploaded_file] returns exists when it returns. *)
Lemma save_uploaded_file_exists o file stage pid w p w' :
  save_uploaded_file o file stage pid w = (Some p, w') ->
  path_exists (w_fs w') (path_join FILE_STORAGE_DIR p) = true.
Proof.
  intros H. apply save_uploaded_file_some in H. cbv zeta in H.
  destruct H as (src & fs1 & fs2 & _ & Mk & Cp & Hp & <- & _).
  apply shutil_copy2_result, copy2_at_exists in Cp. rewrite Hp.
  rewrite path_join_below; [exact Cp|destruct stage; discriminate|apply stamp_not_absolute].
Qed.

Lemma path_exists_kept fs fs' p :
  stat_kept fs fs' -> path_exists fs p = true -> path_exists fs' p = true.
Proof.
  unfold path_exists. intros K H.
  destruct (stat fs p) as [e|[q k]] eqn:S; [discriminate H|]. now rewrite (K _ _ _ S).
Qed.

(** The loop of [add_project] over the uploads never raises; the paths it
    collects are stored under the record and exist when it ends. *)
Lemma save_files_result o stage pid files : forall acc w r w',
  save_files o stage pid files acc w = (r, w') ->
  exists new,
    r = inr (acc ++ new)
    /\ forallb (placed_under stage pid) new = true
    /\ Forall (fun p => path_exists (w_fs w') (path_join FILE_STORAGE_DIR p) = true) new
    /\ stat_kept (w_fs w) (w_fs w')
    /\ w_table w' = w_table w
    /\ (length new <= length files)%nat.
Proof.
  induction files as [|f rest IH]; intros acc w r w' H.
  - inversion H; subst. exists []. rewrite app_nil_r.
    repeat split; auto using stat_kept_refl.
  - destruct f as [file|]; cbn [save_files] in H.
    2:{ destruct (IH _ _ _ _ H) as (new & ? & ? & ? & ? & ? & ?).
        exists new. repeat split; auto. simpl. lia. }
    unfold bind, call in H.
    destruct (save_uploaded_file o file stage pid w) as [fp w1] eqn:S.
    pose proof (save_uploaded_file_kept _ _ _ _ _ _ _ S) as K1.
    assert (T1 : w_table w1 = w_table w).
    { destruct fp; [apply save_uploaded_file_some in S; cbv zeta in S;
                    destruct S as (? & ? & ? & _ & _ & _ & _ & _ & T); exact T
                   |apply save_uploaded_file_none in S; apply S]. }
    destruct fp as [[|c p]|].
    + destruct (IH _ _ _ _ H) as (new & ? & ? & ? & K & T & ?).
      exists new. repeat split; auto; [eapply stat_kept_trans; eauto|congruence|simpl; lia].
    + destruct (IH _ _ _ _ H) as (new & E & Pl & Ex & K & T & L).
      exists ((c :: p) :: new). rewrite E, <- app_assoc.
      split; [reflexivity|]. split; [|split; [|split; [|split]]].
      * cbn [forallb]. rewrite Pl, andb_true_r.
        assert (F : fst (save_uploaded_file o file stage pid w) = Some (c :: p))
          by now rewrite S.
        pose proof (save_uploaded_file_some _ _ _ _ _ _ _ S) as Sm. cbv zeta in Sm.
        destruct Sm as (src & fs1 & fs2 & _ & _ & _ & Hp & _).
        destruct (stored_name_one_part (clock o (w_ticks w)) (path_name src)) as (N & _).
        cbv zeta in N. unfold placed_under. rewrite Hp.
        match goal with
        | |- context [(stage ++ [slash] ++ pid) ++ [slash] ++ ?f] =>
            replace ((stage ++ [slash] ++ pid) ++ [slash] ++ f)
              with ((stage ++ [slash] ++ pid ++ [slash]) ++ f)
              by (repeat (rewrite <- app_assoc; simpl); reflexivity)
        end.
        rewrite strip_prefix_app. exact N.
      * constructor; [|exact Ex].
        eapply path_exists_kept; [exact K|]. eapply save_uploaded_file_exists; eauto.
      * eapply stat_kept_trans; eauto.
      * congruence.
      * simpl. lia.
    + destruct (IH _ _ _ _ H) as (new & ? & ? & ? & K & T & ?).
      exists new. repeat split; auto; [eapply stat_kept_trans; eauto|congruence|simpl; lia].
Qed.

(** ** The unit of work writes the table only *)

Lemma keeps_fs_bind {A B} (m : io A) (k : A -> io B) :
  keeps_fs m -> (forall a, keeps_fs (k a)) -> keeps_fs (bind m k).
Proof.
  intros Hm Hk w r w'. unfold bind.
  destruct (m w) as [[e|a] w1] eqn:E; intros H.
  - inversion H; subst. eapply Hm; eauto.
  - rewrite (Hk _ _ _ _ H). eapply Hm; eauto.
Qed.

Lemma keeps_fs_for_each {A} (f : A -> io unit) l :
  (forall a, keeps_fs (f a)) -> keeps_fs (for_each f l).
Proof.
  intros Hf. induction l as [|a l IH]; simpl.
  - intros w r w' H. inversion H; subst. reflexivity.
  - apply keeps_fs_bind; auto.
Qed.

Lemma keeps_fs_now o : keeps_fs (now o).
Proof. intros w r w' H. inversion H; subst. reflexivity. Qed.

Lemma keeps_fs_sql_write o : keeps_fs (sql_write o).
Proof.
  intros w r w'. unfold sql_write. destruct (db_write_fails o); intros H;
    inversion H; subst; reflexivity.
Qed.

Lemma keeps_fs_sql_insert o p : keeps_fs (sql_insert o p).
Proof.
  unfold sql_insert.
  apply keeps_fs_bind; [apply keeps_fs_now|intros c].
  apply keeps_fs_bind; [apply keeps_fs_now|intros u].
  apply keeps_fs_bind; [apply keeps_fs_sql_write|intros _].
  intros w r w'. destruct (has_row (Project.id p) (w_table w)); intros H;
    inversion H; subst; reflexivity.
Qed.

Lemma keeps_fs_sql_update o deleted obj : keeps_fs (sql_update o deleted obj).
Proof.
  intros w r w'. unfold sql_update.
  destruct (find_row (Project.id obj) (w_table w)) as [x|];
    [|intros H; inversion H; subst; reflexivity].
  destruct (bool_decide (obj = x) || bool_decide (Project.id obj ∈ deleted));
    [intros H; inversion H; subst; reflexivity|].
  revert w r w'.
  apply keeps_fs_bind; [apply keeps_fs_now|intros u].
  apply keeps_fs_bind; [apply keeps_fs_sql_write|intros _].
  intros w r w' H. inversion H; subst. reflexivity.
Qed.

Lemma keeps_fs_sql_delete o pid : keeps_fs (sql_delete o pid).
Proof.
  unfold sql_delete.
  apply keeps_fs_bind; [apply keeps_fs_sql_write|intros _].
  intros w r w' H. inversion H; subst. reflexivity.
Qed.

Lemma keeps_fs_commit o s : keeps_fs (commit o s).
Proof.
  unfold commit, flush.
  apply keeps_fs_bind.
  - apply keeps_fs_bind;
      [apply keeps_fs_for_each; intros; apply keeps_fs_sql_insert|intros _].
    apply keeps_fs_bind;
      [apply keeps_fs_for_each; intros; apply keeps_fs_sql_update|intros _].
    apply keeps_fs_for_each; intros; apply keeps_fs_sql_delete.
  - intros _ w r w' H. inversion H; subst. reflexivity.
Qed.

(** ** Adding a record: the row *)

Lemma has_row_find_row pid tb : has_row pid tb = false <-> find_row pid tb = None.
Proof.
  unfold has_row, find_row. induction tb as [|x tb IH]; simpl; [tauto|].
  destruct (str_eqb (Project.id x) pid); simpl; [split; discriminate|exact IH].
Qed.

Lemma find_row_app pid tb row :
  find_row pid tb = None -> Project.id row = pid -> find_row pid (tb ++ [row]) = Some row.
Proof.
  unfold find_row. intros H E. induction tb as [|x tb IH]; simpl in *.
  - now rewrite E, str_eqb_refl.
  - destruct (str_eqb (Project.id x) pid); [discriminate H|auto].
Qed.

Lemma find_row_app_other pid tb row :
  Project.id row <> pid -> find_row pid (tb ++ [row]) = find_row pid tb.
Proof.
  unfold find_row. intros E. induction tb as [|x tb IH]; simpl.
  - unfold str_eqb. now rewrite bool_decide_eq_false_2.
  - destruct (str_eqb (Project.id x) pid); [reflexivity|exact IH].
Qed.

(** The commit of a session that holds one new object. *)
Lemma commit_new_one o p w u w' :
  commit o {| s_new := [p]; s_loaded := []; s_deleted := [] |} w = (inr u, w') ->
  has_row (Project.id p) (w_table w) = false
  /\ w_table w'
     = w_table w
       ++ [Project.set_times
             (or_default (clock o (w_ticks w)) (Project.create_time p))
             (or_default (clock o (S (w_ticks w))) (Project.update_time p)) p].
Proof.
  unfold commit, flush, bind. simpl. unfold bind, sql_insert, bind, now, sql_write. simpl.
  destruct (db_write_fails o); simpl; [discriminate|].
  destruct (has_row (Project.id p) (w_table w)) eqn:Hr; simpl; [discriminate|].
  intros H. inversion H; subst. simpl. auto.
Qed.

(** The block of [add_project]: the files are saved, then the object is
    added to the session. *)
Lemma add_block_result o stage name data remark marked files w res s w1 :
  add_project_block o stage name data remark marked files (no_session, w)
  = (res, (s, w1)) ->
  exists fps w0,
    save_files o stage (generate_project_id o) (default [] files) [] w = (inr fps, w0)
    /\ res = inr (generate_project_id o)
    /\ s = {| s_new := [Project.set_files fps (new_project o stage name data remark marked)];
              s_loaded := []; s_deleted := [] |}
    /\ w1 = log (EvSessionAdd (generate_project_id o)) w0.
Proof.
  unfold add_project_block, bind, lift. simpl.
  destruct (save_files o stage (generate_project_id o) (default [] files) [] w)
    as [r w0] eqn:S.
  destruct (save_files_result _ _ _ _ _ _ _ _ S) as (new & -> & _).
  simpl. intros H. inversion H; subst. exists new, w0. auto.
Qed.

Lemma add_project_success o stage data remark marked files w msg w' :
  add_project o stage data remark marked files w = (msg, w') ->
  is_success msg = true ->
  let pid := generate_project_id o in
  let name := dict_get data key_name in
  exists fps w0 c u,
    save_files o stage pid (default [] files) [] w = (inr fps, w0)
    /\ msg = ok_project ++ name ++ ok_added ++ pid
    /\ find_row pid (w_table w) = None
    /\ w_table w'
       = w_table w
         ++ [Project.set_times (Some c) (Some u)
               (Project.set_files fps (new_project o stage name data remark marked))]
    /\ w_fs w' = w_fs w0.
Proof.
  intros H Hs pid name. unfold add_project, returning in H. fold name in H.
  destruct name as [|ch nm] eqn:En; [inversion H; subst; discriminate Hs|].
  unfold bind in H.
  destruct (get_db o (add_project_block o stage (ch :: nm) data remark marked files) w)
    as [[e|a] wg] eqn:G.
  - inversion H; subst. discriminate Hs.
  - unfold ret in H. inversion H; subst msg wg. clear H.
    apply get_db_returns in G. destruct G as (s & w1 & u & B & C).
    apply add_block_result in B. destruct B as (fps & w0 & S & Ha & -> & ->).
    inversion Ha; subst a.
    pose proof (keeps_fs_commit _ _ _ _ _ C) as Hfs.
    apply commit_new_one in C. destruct C as [Hr T]. simpl in Hr, T.
    destruct (save_files_result _ _ _ _ _ _ _ _ S) as (new & _ & _ & _ & _ & T0 & _).
    exists fps, w0. eexists _, _. split; [exact S|]. split; [reflexivity|].
    split; [apply has_row_find_row; now rewrite <- T0|].
    split; [rewrite T, T0; reflexivity|exact Hfs].
Qed.

(** X7: a successful [add_project] appends one row to the table, under an
    id that no row had: the row has the generated id, the name, the stage,
    the remark, the mark and the ten fields of the form, both times set,
    and for files what the loop over the uploads has collected: the paths
    that [save_uploaded_file] returned, each [{stage}/{id}/{file name}] and
    each the path of a stored file.  The file system is the one that the
    loop left.  With one upload that is saved the row has the path
    returned for it, and with no upload it has none. *)
Theorem add_project_appends_row o stage data remark marked files w msg w' :
  add_project o stage data remark marked files w = (msg, w') ->
  is_success msg = true ->
  let pid := generate_project_id o in
  exists fps w0 c u,
    save_files o stage pid (default [] files) [] w = (inr fps, w0)
    /\ w_fs w' = w_fs w0
    /\ msg = ok_project ++ dict_get data key_name ++ ok_added ++ pid
    /\ find_row pid (w_table w) = None
    /\ w_table w'
       = w_table w
         ++ [Project.set_times (Some c) (Some u)
               (Project.set_files fps
                  (new_project o stage (dict_get data key_name) data remark marked))]
    /\ forallb (placed_under stage pid) fps = true
    /\ Forall (fun p => path_exists (w_fs w') (path_join FILE_STORAGE_DIR p) = true) fps
    /\ (length fps <= length (default [] files))%nat
    /\ (forall file p w1,
          files = Some [Some file] ->
          save_uploaded_file o file stage pid w = (Some p, w1) ->
          fps = [p] /\ w_fs w' = w_fs w1)
    /\ (default [] files = [] -> fps = [] /\ w_fs w' = w_fs w).
Proof.
  intros H Hs pid.
  destruct (add_project_success _ _ _ _ _ _ _ _ _ H Hs)
    as (fps & w0 & c & u & S & M & F & T & Fs).
  destruct (save_files_result _ _ _ _ _ _ _ _ S) as (new & E & Pl & Ex & _ & _ & L).
  inversion E; subst fps. exists new, w0, c, u.
  split; [exact S|]. split; [exact Fs|]. split; [exact M|]. split; [exact F|].
  split; [exact T|]. split; [exact Pl|]. split; [now rewrite Fs|]. split; [exact L|].
  split.
  - intros file p w1 Hf Sv. subst files pid.
    change (default [] (Some [Some file])) with [Some file] in S.
    cbn [save_files] in S. unfold bind, call in S. rewrite Sv in S.
    pose proof (save_uploaded_file_some _ _ _ _ _ _ _ Sv) as Sm. cbv zeta in Sm.
    destruct Sm as (src & fs1 & fs2 & _ & _ & _ & Hp & _).
    assert (Hc : exists c0 p0, p = c0 :: p0).
    { rewrite Hp. destruct stage; simpl; eauto. }
    destruct Hc as (c0 & p0 & ->). cbn in S. inversion S; subst. auto.
  - intros Hn. rewrite Hn in S. cbn in S. inversion S; subst. auto.
Qed.

Lemma get_file_objects_all l fs :
  Forall (fun p => path_exists fs (path_join FILE_STORAGE_DIR p) = true) l ->
  get_file_objects l fs = List.map (path_join FILE_STORAGE_DIR) l.
Proof.
  unfold get_file_objects. induction 1 as [|p l Hp _ IH]; simpl; [reflexivity|].
  now rewrite Hp, IH.
Qed.

(** X8: after a successful [add_project], [get_project_detail] for the
    generated id finds the row and lists every saved upload: each stored
    path exists under the storage directory. *)
Theorem add_project_then_detail o o' stage data remark marked files w msg w' :
  add_project o stage data remark marked files w = (msg, w') ->
  is_success msg = true ->
  db_read_fails o' = false ->
  exists row,
    find_row (generate_project_id o) (w_table w') = Some row
    /\ Project.name row = dict_get data key_name
    /\ Project.stage row = stage
    /\ fst (get_project_detail o' (generate_project_id o) w')
       = (detail_text row, List.map (path_join FILE_STORAGE_DIR) (Project.files row)).
Proof.
  intros H Hs Hdb.
  destruct (add_project_success _ _ _ _ _ _ _ _ _ H Hs) as (fps & w0 & c & u & S & M & F & T & Hfs).
  cbv zeta in *.
  destruct (save_files_result _ _ _ _ _ _ _ _ S) as (new & E & _ & Ex & _ & _ & _).
  inversion E; subst fps. clear E.
  set (row := Project.set_times (Some c) (Some u)
                (Project.set_files new
                   (new_project o stage (dict_get data key_name) data remark marked))) in *.
  assert (Fr : find_row (generate_project_id o) (w_table w') = Some row)
    by (rewrite T; apply find_row_app; [exact F|reflexivity]).
  exists row. split; [exact Fr|].
  split; [reflexivity|]. split; [reflexivity|].
  destruct (get_project_detail_result o' (generate_project_id o) w') as (_ & _ & R).
  rewrite (R _ Hdb Fr).
  simpl. rewrite Hfs. now rewrite get_file_objects_all.
Qed.

(** ** An id that no row has *)

(** X9: for an id that no row has, [update_project_stage] and
    [delete_project] return the message that the record does not exist,
    after one query and a commit that writes nothing: the files and the
    table are as they were. *)
Theorem unknown_id_changes_nothing o pid w :
  db_read_fails o = false ->
  find_row pid (w_table w) = None ->
  (forall new_stage,
     update_project_stage o pid new_stage w
     = (msg_not_found, log EvCommit (log EvSelect w)))
  /\ delete_project o pid w = (msg_not_found, log EvCommit (log EvSelect w))
  /\ is_failure msg_not_found = true.
Proof.
  intros Hdb F. split; [intros new_stage|split; [|reflexivity]].
  - unfold update_project_stage, returning, get_db, update_project_stage_block, bind,
      query_first.
    rewrite Hdb. simpl. rewrite F. reflexivity.
  - unfold delete_project, returning, get_db, delete_project_block, bind, query_first.
    rewrite Hdb. simpl. rewrite F. reflexivity.
Qed.

(** ** Deleting a record: the row and the files *)

Lemma fs_shrunk_refl fs : fs_shrunk fs fs.
Proof. split; [auto|]. split; [auto|]. intros k H1 H2. contradiction. Qed.

Lemma fs_shrunk_trans fs1 fs2 fs3 : fs_shrunk fs1 fs2 -> fs_shrunk fs2 fs3 -> fs_shrunk fs1 fs3.
Proof.
  intros (A1 & B1 & C1) (A2 & B2 & C2). split; [auto|]. split; [auto|].
  intros k H1 H3. destruct (decide (k ∈ fs_dirs fs2)) as [H2|H2]; [auto|].
  specialize (C1 k H1 H2).
  destruct (fs_files fs3 !! k) as [d|] eqn:E; [|reflexivity].
  apply A2 in E. congruence.
Qed.

Lemma fs_shrunk_node_dir fs fs' q :
  fs_shrunk fs fs' -> node_at fs' q = Directory -> node_at fs q = Directory.
Proof.
  intros (_ & B & _) H. apply node_at_dir in H. apply node_at_dir.
  destruct H as [H|H]; [now left|right; auto].
Qed.

Lemma fs_shrunk_walk fs fs' p : forall cur q,
  fs_shrunk fs fs' -> walk fs' cur p = inr q -> walk fs cur p = inr q.
Proof.
  induction p as [|c rest IH]; intros cur q S H; simpl in *; [exact H|].
  destruct (node_at fs' cur) eqn:K; try discriminate H.
  rewrite (fs_shrunk_node_dir _ _ _ S K). now apply IH.
Qed.

Lemma fs_shrunk_read fs fs' p d :
  fs_shrunk fs fs' -> read_file fs' p = Some d -> read_file fs p = Some d.
Proof.
  intros S H. unfold read_file, stat, locate in *.
  destruct (walk fs' [] p) as [e|q] eqn:W; [discriminate H|].
  rewrite (fs_shrunk_walk _ _ _ _ _ S W).
  destruct (node_at fs' q) eqn:K; try discriminate H.
  apply node_at_file in K. destruct K as (K1 & K2 & d' & K3).
  destruct S as (A & B & C).
  assert (N : node_at fs q = RegularFile).
  { apply node_at_file. split; [exact K1|]. split; [|exists d'; auto].
    intros Hd. specialize (C q Hd K2). congruence. }
  rewrite N. apply A. exact H.
Qed.

Lemma fs_shrunk_remove_file fs q : fs_shrunk fs (remove_file fs q).
Proof.
  split; [|split]; simpl.
  - intros k d H. apply lookup_delete_Some in H. apply H.
  - auto.
  - intros k H1 H2. contradiction.
Qed.

Lemma fs_shrunk_remove_tree fs q : fs_shrunk fs (remove_tree fs q).
Proof.
  split; [|split]; simpl.
  - intros k d H. apply map_lookup_filter_Some in H. apply H.
  - intros k H. apply elem_of_filter in H. apply H.
  - intros k H1 H2. apply map_lookup_filter_None. right. intros d _ Hp. simpl in Hp.
    apply H2. apply elem_of_filter. split; [exact Hp|exact H1].
Qed.

Lemma fs_shrunk_remove_content fs q : fs_shrunk fs (remove_content fs q).
Proof.
  split; [|split]; simpl.
  - intros k d H. apply map_lookup_filter_Some in H. apply H.
  - intros k H. apply elem_of_filter in H. apply H.
  - intros k H1 H2. apply map_lookup_filter_None. right. intros d _ Hp. simpl in Hp.
    apply H2. apply elem_of_filter. split; [right; exact Hp|exact H1].
Qed.

Lemma os_remove_shrunk fs p fs' : os_remove fs p = inr fs' -> fs_shrunk fs fs'.
Proof.
  unfold os_remove. destruct (stat fs p) as [e|[q [| |]]]; intros H; inversion H; subst.
  apply fs_shrunk_remove_file.
Qed.

Lemma shutil_rmtree_shrunk fs p : fs_shrunk fs (fst (shutil_rmtree fs p)).
Proof.
  unfold shutil_rmtree. destruct (stat fs p) as [e|[q [| |]]]; simpl;
    try apply fs_shrunk_refl.
  destruct (ends_with_dotdot p || bool_decide (q = [])); simpl;
    [apply fs_shrunk_remove_content|apply fs_shrunk_remove_tree].
Qed.

(** After [os.remove(p)], [p] leads to no file; and it led to none if
    [os.remove] raised for a path that exists and is not a file. *)
Lemma os_remove_gone fs p fs' : os_remove fs p = inr fs' -> read_file fs' p = None.
Proof.
  unfold os_remove, read_file.
  destruct (stat fs p) as [e|[q k]] eqn:S; [discriminate|].
  destruct k; try discriminate. intros H. inversion H; subst. clear H.
  unfold stat, locate in *.
  destruct (walk fs [] p) as [e|q'] eqn:W; [discriminate S|].
  rewrite (same_dirs_walk fs (remove_file fs q) p [] q' eq_refl W).
  destruct (node_at fs q') eqn:K; inversion S; subst q'.
  apply node_at_file in K. destruct K as (K1 & K2 & d & K3).
  replace (node_at (remove_file fs q) q) with Missing; [reflexivity|].
  unfold node_at. rewrite bool_decide_eq_false_2 by (intros [?|?]; contradiction).
  simpl. now rewrite lookup_delete_eq.
Qed.

Lemma os_remove_raises fs p e : os_remove fs p = inl e -> read_file fs p = None.
Proof.
  unfold os_remove, read_file.
  destruct (stat fs p) as [e'|[q [| |]]]; try reflexivity. discriminate.
Qed.

Lemma walk_plain fs p : forall cur q,
  plain p = true -> walk fs cur p = inr q -> q = cur ++ p.
Proof.
  induction p as [|c rest IH]; intros cur q P H; simpl in *.
  - inversion H. now rewrite app_nil_r.
  - apply andb_true_iff in P. destruct P as [Pc Pr]. apply negb_true_iff in Pc.
    rewrite Pc in H. destruct (node_at fs cur); try discriminate H.
    rewrite (IH _ _ Pr H), <- app_assoc. reflexivity.
Qed.

Lemma plain_not_ends_with_dotdot p : plain p = true -> ends_with_dotdot p = false.
Proof.
  unfold ends_with_dotdot. intros P.
  destruct p as [|c rest] using rev_ind; [reflexivity|].
  rewrite List.last_last. unfold plain in P. rewrite forallb_app in P.
  apply andb_true_iff in P. destruct P as [_ P]. simpl in P.
  rewrite andb_true_r in P. now apply negb_true_iff in P.
Qed.

(** [shutil.rmtree(p)] leaves no directory at a path [p] without [..]. *)
Lemma shutil_rmtree_gone fs p :
  p <> [] -> plain p = true -> path_is_dir (fst (shutil_rmtree fs p)) p = false.
Proof.
  intros Hne P. unfold shutil_rmtree.
  destruct (stat fs p) as [e|[q k]] eqn:S; simpl.
  - unfold path_is_dir. now rewrite S.
  - assert (Hq : q = p).
    { unfold stat, locate in S. destruct (walk fs [] p) as [e|q'] eqn:W; [discriminate S|].
      apply (walk_plain _ _ _ _ P) in W. simpl in W. subst q'.
      destruct (node_at fs p); inversion S; reflexivity. }
    subst q. destruct k; simpl; try (unfold path_is_dir; now rewrite S).
    rewrite (plain_not_ends_with_dotdot _ P). simpl.
    rewrite bool_decide_eq_false_2 by exact Hne. simpl.
    unfold path_is_dir, stat, locate.
    destruct (walk (remove_tree fs p) [] p) as [e|q'] eqn:W; [reflexivity|].
    apply (walk_plain _ _ _ _ P) in W. simpl in W. subst q'.
    replace (node_at (remove_tree fs p) p) with Missing; [reflexivity|].
    unfold node_at. rewrite bool_decide_eq_false_2.
    + simpl. rewrite (proj2 (map_lookup_filter_None _ _ _)); [reflexivity|].
      right. intros d _ Hp. apply Hp. reflexivity.
    + intros [H|H]; [contradiction|]. simpl in H. apply elem_of_filter in H.
      destruct H as [H _]. apply H. reflexivity.
Qed.

(** One turn of the loop of [delete_project_files]. *)
Lemma remove_stored_file rel_path w r w1 :
  swallow
    (do there <- read_fs (fun fs => path_exists fs (path_join FILE_STORAGE_DIR rel_path));
     if there
     then fs_op (fun fs => os_remove fs (path_join FILE_STORAGE_DIR rel_path))
            (EvRemove (path_join FILE_STORAGE_DIR rel_path))
     else ret tt) w = (r, w1) ->
  r = inr tt
  /\ fs_shrunk (w_fs w) (w_fs w1)
  /\ read_file (w_fs w1) (path_join FILE_STORAGE_DIR rel_path) = None.
Proof.
  unfold swallow, bind, read_fs, fs_op, ret.
  set (P := path_join FILE_STORAGE_DIR rel_path).
  destruct (path_exists (w_fs w) P) eqn:E.
  - destruct (os_remove (w_fs w) P) as [e|fs'] eqn:R; intros H; inversion H; subst; simpl.
    + split; [reflexivity|]. split; [apply fs_shrunk_refl|eapply os_remove_raises; eauto].
    + split; [reflexivity|].
      split; [eapply os_remove_shrunk; eauto|eapply os_remove_gone; eauto].
  - intros H. inversion H; subst. split; [reflexivity|].
    split; [apply fs_shrunk_refl|].
    unfold path_exists in E. unfold read_file.
    destruct (stat (w_fs w1) P); [reflexivity|discriminate E].
Qed.

Lemma read_none_shrunk fs fs' p :
  fs_shrunk fs fs' -> read_file fs p = None -> read_file fs' p = None.
Proof.
  intros S H. destruct (read_file fs' p) as [d|] eqn:E; [|reflexivity].
  apply (fs_shrunk_read _ _ _ _ S) in E. congruence.
Qed.

Lemma remove_stored_files l : forall w r w1,
  for_each
    (fun rel_path =>
       swallow
         (do there <- read_fs (fun fs => path_exists fs (path_join FILE_STORAGE_DIR rel_path));
          if there
          then fs_op (fun fs => os_remove fs (path_join FILE_STORAGE_DIR rel_path))
                 (EvRemove (path_join FILE_STORAGE_DIR rel_path))
          else ret tt)) l w = (r, w1) ->
  r = inr tt
  /\ fs_shrunk (w_fs w) (w_fs w1)
  /\ Forall (fun p => read_file (w_fs w1) (path_join FILE_STORAGE_DIR p) = None) l.
Proof.
  induction l as [|p l IH]; intros w r w1 H.
  - inversion H; subst. split; [reflexivity|]. split; [apply fs_shrunk_refl|constructor].
  - cbn [for_each] in H. unfold bind at 1 in H.
    match type of H with
    | context [swallow ?m w] => destruct (swallow m w) as [r0 w0] eqn:S
    end.
    apply remove_stored_file in S. destruct S as (-> & S1 & G1).
    destruct (IH _ _ _ H) as (-> & S2 & G2).
    split; [reflexivity|]. split; [eapply fs_shrunk_trans; eauto|].
    constructor; [eapply read_none_shrunk; eauto|exact G2].
Qed.

(** What [delete_project_files] does: it never raises, it adds nothing,
    no stored path leads to a file afterwards, and, for a record with
    stored paths, its directory is gone. *)
Lemma delete_project_files_result project w r w' :
  delete_project_files project w = (r, w') ->
  let project_dir :=
    path_join (path_join FILE_STORAGE_DIR (Project.stage project)) (Project.id project) in
  r = inr tt
  /\ fs_shrunk (w_fs w) (w_fs w')
  /\ Forall (fun p => read_file (w_fs w') (path_join FILE_STORAGE_DIR p) = None)
       (Project.files project)
  /\ (Project.files project <> [] -> project_dir <> [] -> plain project_dir = true ->
      path_is_dir (w_fs w') project_dir = false).
Proof.
  intros H project_dir. unfold delete_project_files in H. fold project_dir in H.
  destruct (Project.files project) as [|p l] eqn:Fl.
  - inversion H; subst. split; [reflexivity|]. split; [apply fs_shrunk_refl|].
    split; [constructor|]. intros N. contradiction.
  - unfold bind at 1 in H.
    match type of H with
    | context [for_each ?f (p :: l) w] => destruct (for_each f (p :: l) w) as [r0 w0] eqn:L
    end.
    apply remove_stored_files in L. destruct L as (-> & S1 & G1).
    unfold swallow, bind, read_fs, fs_op2, ret in H.
    assert (K : forall fs, fs_shrunk (w_fs w0) fs ->
                fs_shrunk (w_fs w) fs
                /\ Forall (fun p => read_file fs (path_join FILE_STORAGE_DIR p) = None) (p :: l)).
    { intros fs S. split; [eapply fs_shrunk_trans; eauto|].
      eapply Forall_impl; [exact G1|]. intros x Hx. simpl in Hx.
      eapply read_none_shrunk; eauto. }
    destruct (path_exists (w_fs w0) project_dir) eqn:E.
    + pose proof (shutil_rmtree_shrunk (w_fs w0) project_dir) as S2.
      pose proof (shutil_rmtree_gone (w_fs w0) project_dir) as G2.
      destruct (shutil_rmtree (w_fs w0) project_dir) as [fs' [e|]];
        inversion H; subst; simpl in *;
        (split; [reflexivity|]); destruct (K _ S2) as [K1 K2];
        (split; [exact K1|]); (split; [exact K2|]); intros _ N P; auto.
    + inversion H; subst. split; [reflexivity|].
      destruct (K _ (fs_shrunk_refl _)) as [K1 K2].
      split; [exact K1|]. split; [exact K2|]. intros _ _ _.
      unfold path_exists in E. unfold path_is_dir.
      destruct (stat (w_fs w') project_dir); [reflexivity|discriminate E].
Qed.

Lemma delete_block_detail o pid w msg s w1 :
  delete_project_block o pid (no_session, w) = (inr msg, (s, w1)) ->
  is_success msg = true ->
  exists r wa,
    find_row pid (w_table w) = Some r
    /\ delete_project_files r (log EvSelect w) = (inr tt, wa)
    /\ w_fs w1 = w_fs wa
    /\ w_table w1 = w_table w
    /\ msg = ok_project ++ Project.name r ++ ok_deleted
    /\ s = {| s_new := []; s_loaded := [r]; s_deleted := [pid] |}.
Proof.
  intros H Hs. unfold delete_project_block, bind, query_first in H.
  destruct (db_read_fails o); simpl in H; [discriminate H|].
  destruct (find_row pid (w_table w)) as [r|] eqn:F.
  2:{ inversion H; subst. discriminate Hs. }
  unfold lift in H. simpl in H.
  destruct (delete_project_files r (log EvSelect w)) as [[e|[]] wa] eqn:D; simpl in H;
    [discriminate H|].
  inversion H; subst. exists r, wa.
  destruct (delete_project_files_grows _ _ _ _ D) as [T _].
  rewrite (find_row_id _ _ _ F). simpl. repeat split; auto.
Qed.

Lemma delete_project_success o pid w msg w' :
  delete_project o pid w = (msg, w') ->
  is_success msg = true ->
  exists r wa,
    find_row pid (w_table w) = Some r
    /\ delete_project_files r (log EvSelect w) = (inr tt, wa)
    /\ w_fs w' = w_fs wa
    /\ msg = ok_project ++ Project.name r ++ ok_deleted
    /\ w_table w' = List.filter (fun x => negb (str_eqb (Project.id x) pid)) (w_table w).
Proof.
  unfold delete_project, returning.
  destruct (get_db o (delete_project_block o pid) w) as [[e|m] wg] eqn:G; simpl.
  - intros H Hs. inversion H; subst. discriminate Hs.
  - intros H Hs. inversion H; subst m wg. clear H.
    apply get_db_returns in G. destruct G as (s & w1 & u & B & C).
    destruct (delete_block_detail _ _ _ _ _ _ B Hs) as (r & wa & F & D & Hfs & T & M & ->).
    exists r, wa. split; [exact F|]. split; [exact D|].
    pose proof (keeps_fs_commit _ _ _ _ _ C) as Hc.
    split; [congruence|]. split; [exact M|].
    unfold commit, flush, bind in C. simpl in C. unfold sql_update, bind in C.
    rewrite T, (find_row_id _ _ _ F), F in C.
    rewrite bool_decide_eq_true_2 in C by reflexivity. simpl in C.
    unfold sql_delete, bind, sql_write in C.
    destruct (db_write_fails o); simpl in C; [discriminate C|].
    inversion C; subst. simpl. now rewrite T.
Qed.

(** X10: a successful [delete_project] removes the rows of the id and no
    other row, and names the record in its message; [get_project_detail]
    then reports that the record does not exist. *)
Theorem delete_project_removes_row o o' pid w msg w' :
  delete_project o pid w = (msg, w') ->
  is_success msg = true ->
  db_read_fails o' = false ->
  (exists r, find_row pid (w_table w) = Some r
             /\ msg = ok_project ++ Project.name r ++ ok_deleted)
  /\ w_table w' = List.filter (fun x => negb (str_eqb (Project.id x) pid)) (w_table w)
  /\ fst (get_project_detail o' pid w') = (msg_not_found, []).
Proof.
  intros H Hs Hdb.
  destruct (delete_project_success _ _ _ _ _ H Hs) as (r & wa & F & _ & _ & M & T).
  split; [eauto|]. split; [exact T|].
  apply get_project_detail_not_found; [exact Hdb|].
  rewrite T. apply find_row_filter_out.
Qed.

(** X11: after a successful [delete_project] no stored path of the record
    leads to a file any more, wherever it pointed, and nothing was added to
    the file system. *)
Theorem delete_project_removes_files o pid w msg w' r :
  delete_project o pid w = (msg, w') ->
  is_success msg = true ->
  find_row pid (w_table w) = Some r ->
  Forall (fun p => read_file (w_fs w') (path_join FILE_STORAGE_DIR p) = None)
    (Project.files r)
  /\ fs_shrunk (w_fs w) (w_fs w').
Proof.
  intros H Hs F.
  destruct (delete_project_success _ _ _ _ _ H Hs) as (r' & wa & F' & D & Hfs & _ & _).
  assert (r' = r) by congruence. subst r'.
  apply delete_project_files_result in D. cbv zeta in D.
  destruct D as (_ & S & G & _). rewrite Hfs. split; [exact G|exact S].
Qed.

(** X12: after a successful [delete_project] of a record that has a stored
    path, [{storage}/{stage}/{id}] is no longer a directory, when that
    path is not the root and no part of it is [..]. *)
Theorem delete_project_removes_directory o pid w msg w' r :
  delete_project o pid w = (msg, w') ->
  is_success msg = true ->
  find_row pid (w_table w) = Some r ->
  Project.files r <> [] ->
  let project_dir :=
    path_join (path_join FILE_STORAGE_DIR (Project.stage r)) (Project.id r) in
  project_dir <> [] ->
  plain project_dir = true ->
  path_is_dir (w_fs w') project_dir = false.
Proof.
  intros H Hs F Hf project_dir N P.
  destruct (delete_project_success _ _ _ _ _ H Hs) as (r' & wa & F' & D & Hfs & _ & _).
  assert (r' = r) by congruence. subst r'.
  apply delete_project_files_result in D. cbv zeta in D.
  destruct D as (_ & _ & _ & G). rewrite Hfs. now apply G.
Qed.

(** ** Moving a record: the row *)

(** The loop of [update_project_stage] keeps the stored paths that exist
    when their turn comes, in their order, each under its new name. *)
Lemma relocate_files_sublist s2 pid l : forall acc w out w',
  relocate_files s2 pid l acc w = (inr out, w') ->
  exists kept, sublist kept l /\ out = acc ++ List.map (moved_path s2 pid) kept.
Proof.
  induction l as [|p l IH]; intros acc w out w' H.
  - inversion H; subst. exists []. split; [constructor|now rewrite app_nil_r].
  - cbn [relocate_files] in H. unfold bind at 1 in H. unfold read_fs at 1 in H.
    destruct (path_exists (w_fs w) (path_join FILE_STORAGE_DIR p)).
    + unfold bind at 1 in H.
      match type of H with
      | context [fs_op ?f ?ev w] => destruct (fs_op f ev w) as [[e|[]] w1]
      end; [discriminate H|].
      unfold bind at 1 in H.
      match type of H with
      | context [fs_op2 ?f ?ev w1] => destruct (fs_op2 f ev w1) as [[e|[]] w2]
      end; [discriminate H|].
      destruct (IH _ _ _ _ H) as (kept & Sk & ->).
      exists (p :: kept). split; [now constructor|].
      rewrite <- app_assoc. reflexivity.
    + destruct (IH _ _ _ _ H) as (kept & Sk & ->).
      exists kept. split; [now constructor|reflexivity].
Qed.

Lemma set_files_same r : Project.files r = [] -> Project.set_files [] r = r.
Proof. destruct r. simpl. intros ->. reflexivity. Qed.

Lemma move_block_detail o pid s2 w msg s w1 r :
  update_project_stage_block o pid s2 (no_session, w) = (inr msg, (s, w1)) ->
  find_row pid (w_table w) = Some r ->
  exists kept,
    sublist kept (Project.files r)
    /\ s = {| s_new := [];
              s_loaded := [Project.set_files (List.map (moved_path s2 pid) kept)
                             (Project.set_stage s2 r)];
              s_deleted := [] |}
    /\ w_table w1 = w_table w
    /\ msg = ok_moved_from ++ Project.stage r ++ ok_moved_to ++ s2 ++ ok_moved_end.
Proof.
  intros H F. unfold update_project_stage_block, bind, query_first in H.
  destruct (db_read_fails o); simpl in H; [discriminate H|].
  rewrite F in H. pose proof (find_row_id _ _ _ F) as Hid.
  unfold set_attr in H. simpl in H. rewrite Hid, str_eqb_refl in H.
  destruct (Project.files r) as [|p l] eqn:Fl.
  - unfold ret at 1 in H. unfold lift in H. simpl in H.
    destruct (remove_if_empty _ (log EvSelect w)) as [[e|[]] wb] eqn:R; simpl in H;
      [discriminate H|].
    inversion H; subst. apply remove_if_empty_grows in R. destruct R as [T _].
    exists []. split; [constructor|]. simpl.
    rewrite set_files_same by (simpl; exact Fl). auto.
  - remember (relocate_files s2 pid (p :: l) []) as reloc eqn:Er.
    unfold lift at 1 in H. simpl in H.
    destruct (reloc (log EvSelect w)) as [[e|new] wa] eqn:Rl;
      simpl in H; [discriminate H|]. subst reloc.
    simpl in H. rewrite Hid, str_eqb_refl in H.
    unfold lift in H. simpl in H.
    destruct (remove_if_empty _ wa) as [[e|[]] wb] eqn:R; simpl in H; [discriminate H|].
    inversion H; subst. apply remove_if_empty_grows in R. destruct R as [T _].
    pose proof (relocate_files_grows _ _ _ _ _ _ _ Rl) as [T' _].
    apply relocate_files_sublist in Rl. destruct Rl as (kept & Sk & ->).
    exists kept. simpl in *. repeat split; auto. congruence.
Qed.

Lemma find_row_replace_other pid pid' tb row :
  pid' <> pid -> Project.id row = pid ->
  find_row pid'
    (List.map (fun x => if str_eqb (Project.id x) pid then row else x) tb)
  = find_row pid' tb.
Proof.
  intros Hne Hid. unfold find_row. induction tb as [|x tb IH]; simpl; [reflexivity|].
  destruct (str_eqb (Project.id x) pid) eqn:E.
  - apply bool_decide_eq_true in E. unfold str_eqb in *. rewrite Hid, E.
    rewrite !bool_decide_eq_false_2 by congruence. exact IH.
  - destruct (str_eqb (Project.id x) pid'); [reflexivity|exact IH].
Qed.

Lemma set_times_same r :
  Project.set_times (Project.create_time r) (Project.update_time r) r = r.
Proof. destruct r. reflexivity. Qed.

(** The commit of a session that holds one loaded object. *)
Lemma commit_loaded_row o obj w1 w2 r u :
  commit o {| s_new := []; s_loaded := [obj]; s_deleted := [] |} w1 = (inr u, w2) ->
  find_row (Project.id obj) (w_table w1) = Some r ->
  exists t,
    let row := Project.set_times (Project.create_time obj) t obj in
    find_row (Project.id obj) (w_table w2) = Some row
    /\ length (w_table w2) = length (w_table w1)
    /\ (forall pid', pid' <> Project.id obj ->
        find_row pid' (w_table w2) = find_row pid' (w_table w1))
    /\ List.map Project.id (w_table w2) = List.map Project.id (w_table w1)
    /\ (forall x, x ∈ w_table w2 -> x ∈ w_table w1 \/ x = row).
Proof.
  intros H F. unfold commit, flush, bind in H. simpl in H.
  unfold bind, sql_update in H. rewrite F in H.
  destruct (bool_decide (obj = r)) eqn:E.
  - apply bool_decide_eq_true in E. subst r. simpl in H. inversion H; subst.
    exists (Project.update_time obj). cbv zeta. rewrite set_times_same. simpl.
    repeat split; auto.
  - simpl in H. unfold bind, now, sql_write in H. simpl in H.
    destruct (db_write_fails o); simpl in H; [discriminate H|].
    inversion H; subst. simpl. eexists. cbv zeta.
    split; [eapply find_row_replace; [exact F|reflexivity]|].
    split; [apply length_map|].
    split; [intros pid' Hne; now apply find_row_replace_other|].
    split.
    + rewrite List.map_map. apply map_ext_in. intros x _.
      destruct (str_eqb (Project.id x) (Project.id obj)) eqn:Ex; [|reflexivity].
      apply bool_decide_eq_true in Ex. simpl. now rewrite Ex.
    + intros x Hx. apply list_elem_of_In, in_map_iff in Hx.
      destruct Hx as (y & Hy & Hin). apply list_elem_of_In in Hin.
      destruct (str_eqb (Project.id y) (Project.id obj)); subst x; auto.
Qed.

Lemma update_project_stage_success o pid s2 w msg w' :
  update_project_stage o pid s2 w = (msg, w') ->
  is_success msg = true ->
  exists r kept t,
    let row :=
      Project.set_times (Project.create_time r) t
        (Project.set_files (List.map (moved_path s2 pid) kept) (Project.set_stage s2 r)) in
    find_row pid (w_table w) = Some r
    /\ sublist kept (Project.files r)
    /\ msg = ok_moved_from ++ Project.stage r ++ ok_moved_to ++ s2 ++ ok_moved_end
    /\ find_row pid (w_table w') = Some row
    /\ length (w_table w') = length (w_table w)
    /\ (forall pid', pid' <> pid -> find_row pid' (w_table w') = find_row pid' (w_table w))
    /\ List.map Project.id (w_table w') = List.map Project.id (w_table w)
    /\ (forall x, x ∈ w_table w' -> x ∈ w_table w \/ x = row).
Proof.
  intros H Hs. unfold update_project_stage, returning in H.
  destruct (get_db o (update_project_stage_block o pid s2) w) as [[e|a] wg] eqn:G.
  - inversion H; subst. discriminate Hs.
  - inversion H; subst a wg. clear H.
    apply get_db_returns in G. destruct G as (s & w1 & u & B & C).
    destruct (move_block_result _ _ _ _ _ _ _ B)
      as [(Hm & _)|(_ & r & obj & F & _)]; [subst msg; discriminate Hs|].
    destruct (move_block_detail _ _ _ _ _ _ _ _ B F) as (kept & Sk & -> & T & M).
    pose proof (find_row_id _ _ _ F) as Hid.
    assert (F1 : find_row
                   (Project.id (Project.set_files (List.map (moved_path s2 pid) kept)
                                  (Project.set_stage s2 r))) (w_table w1) = Some r)
      by (simpl; rewrite Hid, T; exact F).
    destruct (commit_loaded_row _ _ _ _ _ _ C F1) as (t & R). cbv zeta in R.
    simpl in R. rewrite Hid, T in R.
    exists r, kept, t. cbv zeta. simpl. tauto.
Qed.

(** X13: a successful [update_project_stage] rewrites the row of the record
    and nothing else: the row keeps every column but the stage, the stored
    paths and the update time; the new stored paths are
    [{new stage}/{id}/{file name}] for stored paths of the old list, in
    their order; no row is added or removed, and the rows of other ids are
    as they were. *)
Theorem update_project_stage_rewrites_row o pid s2 w msg w' :
  update_project_stage o pid s2 w = (msg, w') ->
  is_success msg = true ->
  exists r kept t,
    find_row pid (w_table w) = Some r
    /\ sublist kept (Project.files r)
    /\ msg = ok_moved_from ++ Project.stage r ++ ok_moved_to ++ s2 ++ ok_moved_end
    /\ find_row pid (w_table w')
       = Some (Project.set_times (Project.create_time r) t
                 (Project.set_files (List.map (moved_path s2 pid) kept)
                    (Project.set_stage s2 r)))
    /\ length (w_table w') = length (w_table w)
    /\ (forall pid', pid' <> pid -> find_row pid' (w_table w') = find_row pid' (w_table w)).
Proof.
  intros H Hs.
  destruct (update_project_stage_success _ _ _ _ _ _ H Hs) as (r & kept & t & R).
  cbv zeta in R. exists r, kept, t. tauto.
Qed.

(** ** What every write keeps *)

Lemma find_row_none_ids pid tb :
  find_row pid tb = None -> ~ In pid (List.map Project.id tb).
Proof.
  unfold find_row. induction tb as [|x tb IH]; simpl; [tauto|].
  destruct (str_eqb (Project.id x) pid) eqn:E; [discriminate|].
  intros H [Hx|Hx]; [|now apply IH].
  unfold str_eqb in E. apply bool_decide_eq_false in E. contradiction.
Qed.

Lemma NoDup_ids_filter (f : Project.t -> bool) tb :
  List.NoDup (List.map Project.id tb) -> List.NoDup (List.map Project.id (List.filter f tb)).
Proof.
  induction tb as [|x tb IH]; simpl; [auto|]. intros H. inversion H; subst.
  destruct (f x); simpl; [|auto]. constructor; [|auto].
  intros Hin. apply H2. apply in_map_iff in Hin. destruct Hin as (y & Hy & Hin).
  apply filter_In in Hin. apply in_map_iff. exists y. tauto.
Qed.

Lemma NoDup_ids_app tb row :
  List.NoDup (List.map Project.id tb) -> ~ In (Project.id row) (List.map Project.id tb) ->
  List.NoDup (List.map Project.id (tb ++ [row])).
Proof.
  intros H N. rewrite List.map_app. simpl.
  apply List.NoDup_app; [exact H|constructor; [tauto|constructor]|].
  intros a Ha [<-|[]]. contradiction.
Qed.

(** X14: the ids of the table stay pairwise different through
    [add_project], [update_project_stage] and [delete_project], whether
    they succeed or fail. *)
Theorem primary_key_stays_unique o w :
  List.NoDup (List.map Project.id (w_table w)) ->
  (forall stage data remark marked files,
     List.NoDup
       (List.map Project.id (w_table (snd (add_project o stage data remark marked files w)))))
  /\ (forall pid new_stage,
        List.NoDup
          (List.map Project.id (w_table (snd (update_project_stage o pid new_stage w)))))
  /\ (forall pid,
        List.NoDup (List.map Project.id (w_table (snd (delete_project o pid w))))).
Proof.
  intros N. split; [|split].
  - intros stage data remark marked files.
    destruct (add_project o stage data remark marked files w) as [msg w'] eqn:E.
    destruct (add_project_transactional o stage data remark marked files w) as [[Hs _]|[_ T]];
      rewrite E in *; simpl in *; [|now rewrite T].
    destruct (add_project_success _ _ _ _ _ _ _ _ _ E Hs)
      as (fps & w0 & c & u & _ & _ & F & T & _).
    cbv zeta in T. rewrite T. apply NoDup_ids_app; [exact N|].
    simpl. now apply find_row_none_ids.
  - intros pid s2.
    destruct (update_project_stage o pid s2 w) as [msg w'] eqn:E.
    destruct (update_project_stage_transactional o pid s2 w) as [[Hs _]|[_ T]];
      rewrite E in *; simpl in *; [|now rewrite T].
    destruct (update_project_stage_success _ _ _ _ _ _ E Hs) as (r & kept & t & R).
    cbv zeta in R. destruct R as (_ & _ & _ & _ & _ & _ & Ids & _). now rewrite Ids.
  - intros pid.
    destruct (delete_project o pid w) as [msg w'] eqn:E.
    destruct (delete_project_transactional o pid w) as [[Hs _]|[_ T]];
      rewrite E in *; simpl in *; [|now rewrite T].
    destruct (delete_project_success _ _ _ _ _ E Hs) as (r & wa & _ & _ & _ & _ & T).
    rewrite T. now apply NoDup_ids_filter.
Qed.

Lemma forallb_filter_kept {A} (good f : A -> bool) l :
  forallb good l = true -> forallb good (List.filter f l) = true.
Proof.
  intros H. apply forallb_forall. intros x Hx. apply filter_In in Hx.
  rewrite forallb_forall in H. now apply H.
Qed.

Lemma moved_paths_placed s2 pid kept :
  forallb (placed_under s2 pid) (List.map (moved_path s2 pid) kept) = true.
Proof.
  apply forallb_forall. intros x Hx. apply in_map_iff in Hx.
  destruct Hx as (p & <- & _). apply placed_under_new.
Qed.

(** X15: if every row of the table has its stored paths under its own
    stage and id, this is so after [add_project], [update_project_stage]
    and [delete_project], whether they succeed or fail. *)
Theorem stored_paths_stay_in_place o w :
  forallb well_placed (w_table w) = true ->
  (forall stage data remark marked files,
     forallb well_placed (w_table (snd (add_project o stage data remark marked files w)))
     = true)
  /\ (forall pid new_stage,
        forallb well_placed (w_table (snd (update_project_stage o pid new_stage w))) = true)
  /\ (forall pid,
        forallb well_placed (w_table (snd (delete_project o pid w))) = true).
Proof.
  intros N. split; [|split].
  - intros stage data remark marked files.
    destruct (add_project o stage data remark marked files w) as [msg w'] eqn:E.
    destruct (add_project_transactional o stage data remark marked files w) as [[Hs _]|[_ T]];
      rewrite E in *; simpl in *; [|now rewrite T].
    destruct (add_project_success _ _ _ _ _ _ _ _ _ E Hs)
      as (fps & w0 & c & u & S & _ & F & T & _).
    cbv zeta in T. rewrite T, forallb_app, N. simpl. rewrite andb_true_r.
    destruct (save_files_result _ _ _ _ _ _ _ _ S) as (new & Eq & Pl & _).
    inversion Eq; subst fps. exact Pl.
  - intros pid s2.
    destruct (update_project_stage o pid s2 w) as [msg w'] eqn:E.
    destruct (update_project_stage_transactional o pid s2 w) as [[Hs _]|[_ T]];
      rewrite E in *; simpl in *; [|now rewrite T].
    destruct (update_project_stage_success _ _ _ _ _ _ E Hs) as (r & kept & t & R).
    cbv zeta in R. destruct R as (F & _ & _ & _ & _ & _ & _ & Rows).
    apply forallb_forall. intros x Hx. apply list_elem_of_In in Hx.
    destruct (Rows x Hx) as [Hin| ->].
    + rewrite forallb_forall in N. apply N. now apply list_elem_of_In.
    + unfold well_placed. simpl. rewrite (find_row_id _ _ _ F). apply moved_paths_placed.
  - intros pid.
    destruct (delete_project o pid w) as [msg w'] eqn:E.
    destruct (delete_project_transactional o pid w) as [[Hs _]|[_ T]];
      rewrite E in *; simpl in *; [|now rewrite T].
    destruct (delete_project_success _ _ _ _ _ E Hs) as (r & wa & _ & _ & _ & _ & T).
    rewrite T. now apply forallb_filter_kept.
Qed.

(** ** The listing of a stage *)

Lemma lex_ltb_trans a : forall b c,
  lex_ltb a b = true -> lex_ltb b c = true -> lex_ltb a c = true.
Proof.
  induction a as [|x a IH]; intros [|y b] [|z c]; simpl; try discriminate; auto.
  intros H1 H2.
  apply orb_true_iff in H1. apply orb_true_iff in H2. apply orb_true_iff.
  destruct H1 as [H1|H1], H2 as [H2|H2].
  - left. apply Z.ltb_lt in H1, H2. apply Z.ltb_lt. lia.
  - apply andb_true_iff in H2. destruct H2 as [H2 _].
    apply Z.eqb_eq in H2. subst. now left.
  - apply andb_true_iff in H1. destruct H1 as [H1 _].
    apply Z.eqb_eq in H1. subst. now left.
  - apply andb_true_iff in H1. destruct H1 as [E1 L1].
    apply andb_true_iff in H2. destruct H2 as [E2 L2].
    apply Z.eqb_eq in E1, E2. subst. right. rewrite Z.eqb_refl. simpl. eauto.
Qed.

Lemma lex_ltb_irrefl a : lex_ltb a a = false.
Proof.
  induction a as [|x a IH]; simpl; [reflexivity|].
  rewrite Z.ltb_irrefl, Z.eqb_refl, IH. reflexivity.
Qed.

Lemma time_ltb_trans a b c :
  time_ltb a b = true -> time_ltb b c = true -> time_ltb a c = true.
Proof.
  destruct a as [x|], b as [y|], c as [z|]; cbn [time_ltb]; try discriminate; auto.
  apply lex_ltb_trans.
Qed.

Lemma time_ltb_irrefl a : time_ltb a a = false.
Proof. destruct a; cbn [time_ltb]; [apply lex_ltb_irrefl|reflexivity]. Qed.

Lemma time_ltb_asym a b : time_ltb a b = true -> time_ltb b a = false.
Proof.
  intros H. destruct (time_ltb b a) eqn:E; [|reflexivity].
  pose proof (time_ltb_trans _ _ _ H E) as T. now rewrite time_ltb_irrefl in T.
Qed.

Lemma insert_desc_perm r l : insert_desc r l ≡ₚ r :: l.
Proof.
  induction l as [|x l IH]; simpl; [reflexivity|].
  destruct (time_ltb (Project.update_time x) (Project.update_time r)); [reflexivity|].
  rewrite IH. apply perm_swap.
Qed.

Lemma insert_desc_sorted r l : newest_first l = true -> newest_first (insert_desc r l) = true.
Proof.
  induction l as [|x l IH]; simpl; [reflexivity|]. intros H.
  apply andb_true_iff in H. destruct H as [Hx Hl].
  destruct (time_ltb (Project.update_time x) (Project.update_time r)) eqn:E.
  - cbn [newest_first]. rewrite Hx, Hl. cbn [forallb].
    rewrite (time_ltb_asym _ _ E). simpl. rewrite andb_true_r.
    apply forallb_forall. intros y Hy. rewrite forallb_forall in Hx.
    specialize (Hx y Hy). apply negb_true_iff in Hx. apply negb_true_iff.
    destruct (time_ltb (Project.update_time r) (Project.update_time y)) eqn:E2;
      [|reflexivity].
    pose proof (time_ltb_trans _ _ _ E E2). congruence.
  - cbn [newest_first]. rewrite (IH Hl), andb_true_r.
    apply forallb_forall. intros y Hy.
    apply (Permutation_in _ (insert_desc_perm r l)) in Hy.
    destruct Hy as [<-|Hy]; [now rewrite E|].
    rewrite forallb_forall in Hx. now apply Hx.
Qed.

Lemma order_desc_from l : forall acc,
  newest_first acc = true ->
  newest_first (fold_left (fun acc r => insert_desc r acc) l acc) = true
  /\ fold_left (fun acc r => insert_desc r acc) l acc ≡ₚ acc ++ l.
Proof.
  induction l as [|r l IH]; intros acc H; simpl.
  - split; [exact H|now rewrite app_nil_r].
  - destruct (IH (insert_desc r acc) (insert_desc_sorted r acc H)) as [S P].
    split; [exact S|]. rewrite P, insert_desc_perm.
    change (r :: acc) with ([r] ++ acc). rewrite (Permutation_app_comm [r] acc).
    now rewrite <- app_assoc.
Qed.

Lemma order_desc_sorted l : newest_first (order_desc l) = true /\ order_desc l ≡ₚ l.
Proof. apply (order_desc_from l [] eq_refl). Qed.

(** X16: when the query works, [get_projects_by_stage] lists the rows of
    the stage that were updated last: the listed rows and the rows left out
    are together the rows of the stage, ordered from the newest to the
    oldest update time; rows are left out only when [limit] rows are
    listed; and no listed remark is the empty string. *)
Theorem get_projects_by_stage_lists_newest o stage limit w :
  db_read_fails o = false ->
  exists rows rest,
    fst (get_projects_by_stage o stage limit w) = List.map summary_of rows
    /\ rows ++ rest ≡ₚ List.filter (fun r => str_eqb (Project.stage r) stage) (w_table w)
    /\ newest_first (rows ++ rest) = true
    /\ (length rows <= limit)%nat
    /\ (rest <> [] -> length rows = limit)
    /\ Forall (fun s => sum_remark s <> []) (List.map summary_of rows).
Proof.
  intros Hdb.
  destruct (get_projects_by_stage_result o stage limit w) as (_ & _ & R). cbv zeta in R.
  set (L := order_desc
              (List.filter (fun r => str_eqb (Project.stage r) stage) (w_table w))) in *.
  exists (take limit L), (drop limit L). rewrite take_drop.
  destruct (order_desc_sorted
              (List.filter (fun r => str_eqb (Project.stage r) stage) (w_table w)))
    as [S P]. fold L in S, P.
  split; [now apply R|]. split; [exact P|]. split; [exact S|].
  split; [rewrite length_take; lia|]. split.
  - intros Hr. rewrite length_take.
    destruct (Nat.le_gt_cases (length L) limit) as [Hle|Hgt]; [|lia].
    rewrite drop_ge in Hr by exact Hle. contradiction.
  - apply Forall_forall. intros s Hs. apply list_elem_of_In, in_map_iff in Hs.
    destruct Hs as (r & <- & _). unfold summary_of. simpl.
    destruct (Project.remark r); discriminate.
Qed.

(** ** The tab of a stage *)

Lemma get_projects_by_stage_fs o stage limit w :
  w_fs (snd (get_projects_by_stage o stage limit w)) = w_fs w.
Proof.
  unfold get_projects_by_stage, returning, get_db, bind, query_by_stage, lift. simpl.
  destruct (db_read_fails o); reflexivity.
Qed.

Lemma get_project_detail_fs o pid w :
  w_fs (snd (get_project_detail o pid w)) = w_fs w.
Proof.
  unfold get_project_detail, returning, get_db, bind, query_first. simpl.
  destruct (db_read_fails o); simpl; [reflexivity|].
  destruct (find_row pid (w_table w)) as [r|] eqn:F; simpl; [|reflexivity].
  unfold lift, read_fs. simpl. rewrite commit_unchanged; [reflexivity|].
  simpl. now rewrite (find_row_id _ _ _ F).
Qed.

Lemma table_row_shape p :
  exists mark remark,
    table_row p
    = [CellStr (sum_id p); CellStr (sum_name p); CellStr mark; CellStr remark;
       CellNum (length (sum_files p)); CellStr (sum_update_time p)]
    /\ (mark = mark_bright \/ mark = mark_plain)
    /\ (length remark <= 18)%nat
    /\ ((length (sum_remark p) <= 15)%nat -> remark = sum_remark p)
    /\ ((15 < length (sum_remark p))%nat -> remark = take 15 (sum_remark p) ++ ellipsis).
Proof.
  unfold table_row. eexists _, _. split; [reflexivity|].
  split; [destruct (str_eqb (sum_marked p) highlight); auto|].
  destruct (15 <? Z.of_nat (length (sum_remark p))) eqn:E.
  - apply Z.ltb_lt in E. split; [|split; [lia|reflexivity]].
    rewrite length_app. unfold slice_to. rewrite length_take.
    change (length ellipsis) with 3%nat. change (Z.to_nat 15) with 15%nat. lia.
  - apply Z.ltb_ge in E. split; [lia|]. split; [reflexivity|lia].
Qed.

(** X17: the table of a tab is never the empty list: it is the one empty
    row when the stage has no record or when the query failed, and else one
    row of six cells for each listed record, at most a hundred; a remark of
    more than fifteen characters is cut after the fifteenth and followed by
    three dots, so that no remark shown is longer than eighteen
    characters. *)
Theorem refresh_table_rows o stage_name w :
  let listed := fst (get_projects_by_stage o stage_name 100 w) in
  let rows := fst (refresh_table o stage_name w) in
  (listed = [] -> rows = [[]])
  /\ (listed <> [] -> rows = List.map table_row listed)
  /\ (db_read_fails o = true -> rows = [[]])
  /\ rows <> []
  /\ (length rows <= 100)%nat
  /\ Forall
       (fun p =>
          exists mark remark,
            table_row p
            = [CellStr (sum_id p); CellStr (sum_name p); CellStr mark; CellStr remark;
               CellNum (length (sum_files p)); CellStr (sum_update_time p)]
            /\ (mark = mark_bright \/ mark = mark_plain)
            /\ (length remark <= 18)%nat
            /\ ((length (sum_remark p) <= 15)%nat -> remark = sum_remark p)
            /\ ((15 < length (sum_remark p))%nat ->
                remark = take 15 (sum_remark p) ++ ellipsis))
       listed.
Proof.
  intros listed rows.
  assert (L : (length listed <= 100)%nat).
  { subst listed.
    destruct (get_projects_by_stage_result o stage_name 100%nat w) as (_ & R1 & R2).
    cbv zeta in R1, R2. destruct (db_read_fails o).
    - rewrite R1 by reflexivity. simpl. lia.
    - rewrite R2 by reflexivity. rewrite length_map, length_take. lia. }
  assert (E : rows = match listed with [] => [[]] | _ :: _ => List.map table_row listed end).
  { subst rows listed. unfold refresh_table.
    destruct (get_projects_by_stage o stage_name 100 w) as [[|p l] w']; reflexivity. }
  split; [intros H; rewrite E, H; reflexivity|].
  split; [intros H; rewrite E; destruct listed; [contradiction|reflexivity]|].
  split.
  - intros Hdb. rewrite E. subst listed.
    destruct (get_projects_by_stage_result o stage_name 100%nat w) as (_ & R1 & _).
    cbv zeta in R1. now rewrite (R1 Hdb).
  - split; [rewrite E; destruct listed; discriminate|].
    split; [rewrite E; destruct listed; [simpl; lia|rewrite length_map; exact L]|].
    apply Forall_forall. intros p _. apply table_row_shape.
Qed.

(** X18: the functions that read leave the table and the file system as
    they are: [get_projects_by_stage], [get_project_detail], and
    [refresh_table] and [handle_view_detail] of a tab; and
    [handle_view_detail] asks for an id, without a query, when it is given
    the empty string. *)
Theorem reading_changes_nothing o w :
  (forall stage limit,
     w_table (snd (get_projects_by_stage o stage limit w)) = w_table w
     /\ w_fs (snd (get_projects_by_stage o stage limit w)) = w_fs w)
  /\ (forall pid,
        w_table (snd (get_project_detail o pid w)) = w_table w
        /\ w_fs (snd (get_project_detail o pid w)) = w_fs w)
  /\ (forall stage_name,
        w_table (snd (refresh_table o stage_name w)) = w_table w
        /\ w_fs (snd (refresh_table o stage_name w)) = w_fs w)
  /\ (forall pid,
        w_table (snd (handle_view_detail o pid w)) = w_table w
        /\ w_fs (snd (handle_view_detail o pid w)) = w_fs w)
  /\ handle_view_detail o [] w = ((msg_enter_id, []), w).
Proof.
  assert (L : forall stage limit,
             w_table (snd (get_projects_by_stage o stage limit w)) = w_table w
             /\ w_fs (snd (get_projects_by_stage o stage limit w)) = w_fs w).
  { intros stage limit. split; [|apply get_projects_by_stage_fs].
    destruct (get_projects_by_stage_result o stage limit w) as (T & _). exact T. }
  assert (D : forall pid,
             w_table (snd (get_project_detail o pid w)) = w_table w
             /\ w_fs (snd (get_project_detail o pid w)) = w_fs w).
  { intros pid. split; [|apply get_project_detail_fs].
    destruct (get_project_detail_result o pid w) as (T & _). exact T. }
  split; [exact L|]. split; [exact D|]. split; [|split; [|reflexivity]].
  - intros stage_name. specialize (L stage_name 100%nat). unfold refresh_table.
    destruct (get_projects_by_stage o stage_name 100 w) as [[|p l] w']; exact L.
  - intros [|c pid]; [split; reflexivity|apply D].
Qed.

Lemma submit_form_fields (stage_name n t i ic fd tm bm cr ms bo oi : pystr) :
  let data :=
    <[key_name := n]>
      (<[key_type := t]>
         (<[key_industry := i]>
            (<[key_industry_code := ic]>
               (<[key_stage := stage_name]>
                  (<[key_financial := fd]>
                     (<[key_team := tm]>
                        (<[key_model := bm]>
                           (<[key_resource := cr]>
                              (<[key_share := ms]>
                                 (<[key_outlook := bo]>
                                    (<[key_other := oi]> (∅ : gmap pystr pystr)))))))))))) in
  dict_get data key_name = n /\ dict_get data key_type = t
  /\ dict_get data key_industry = i /\ dict_get data key_industry_code = ic
  /\ dict_get data key_financial = fd /\ dict_get data key_team = tm
  /\ dict_get data key_model = bm /\ dict_get data key_resource = cr
  /\ dict_get data key_share = ms /\ dict_get data key_outlook = bo
  /\ dict_get data key_other = oi.
Proof.
  intros data. subst data. unfold dict_get.
  repeat split;
    repeat first [ rewrite lookup_insert_eq; reflexivity
                 | rewrite lookup_insert_ne by (vm_compute; discriminate) ].
Qed.

(** X19: what is typed into the form of a tab is what is stored: after a
    successful submission the table has a row under the generated id with
    the stage of the tab, a name that is not empty, and the twelve other
    fields, the remark and the mark as they were entered. *)
Theorem submit_form_stores_fields o stage_name n t i ic m r fd tm bm cr ms bo oi files
  w msg w' :
  submit_form o stage_name n t i ic m r fd tm bm cr ms bo oi files w = (msg, w') ->
  is_success msg = true ->
  exists row,
    find_row (generate_project_id o) (w_table w') = Some row
    /\ n <> []
    /\ Project.name row = n
    /\ Project.stage row = stage_name
    /\ Project.project_type row = t
    /\ Project.industry row = i
    /\ Project.industry_code row = ic
    /\ Project.financial_data row = fd
    /\ Project.team row = tm
    /\ Project.business_model row = bm
    /\ Project.core_resource row = cr
    /\ Project.market_share row = ms
    /\ Project.business_outlook row = bo
    /\ Project.other_info row = oi
    /\ Project.remark row = r
    /\ Project.marked row = m.
Proof.
  unfold submit_form. intros H Hs.
  destruct (submit_form_fields stage_name n t i ic fd tm bm cr ms bo oi)
    as (D1 & D2 & D3 & D4 & D5 & D6 & D7 & D8 & D9 & D10 & D11).
  cbv zeta in D1, D2, D3, D4, D5, D6, D7, D8, D9, D10, D11.
  assert (Hn : n <> []).
  { intros ->.
    unfold add_project, returning in H. rewrite D1 in H. inversion H; subst.
    discriminate Hs. }
  destruct (add_project_success _ _ _ _ _ _ _ _ _ H Hs)
    as (fps & w0 & c & u & _ & _ & F & T & _).
  cbv zeta in T, F.
  eexists. split; [rewrite T; apply find_row_app; [exact F|reflexivity]|].
  split; [exact Hn|]. simpl. rewrite D1, D2, D3, D4, D5, D6, D7, D8, D9, D10, D11.
  repeat split; reflexivity.
Qed.

(** ** The start of the program *)

Lemma os_mkdir_is_dir fs p fs1 : os_mkdir fs p = inr fs1 -> path_is_dir fs1 p = true.
Proof.
  intros H. pose proof (os_mkdir_adds _ _ _ H) as D. unfold os_mkdir in H.
  destruct (locate fs p) as [e|q] eqn:L; [discriminate H|].
  destruct (node_at fs q) eqn:E; try discriminate H.
  inversion H; subst. unfold path_is_dir, stat, locate in *.
  rewrite (dirs_added_walk _ _ _ _ _ D L).
  replace (node_at (add_dir fs q) q) with Directory; [reflexivity|].
  symmetry. apply node_at_dir. right. simpl. apply elem_of_union. left.
  now apply elem_of_singleton.
Qed.

Lemma path_mkdir_is_dir fs p fs1 : path_mkdir fs p true = inr fs1 -> path_is_dir fs1 p = true.
Proof.
  unfold path_mkdir. destruct (os_mkdir fs p) as [e|fs'] eqn:E; intros H.
  - destruct e; try discriminate H; simpl in H;
      destruct (path_is_dir fs p) eqn:D; try discriminate H; inversion H; subst; exact D.
  - inversion H; subst. eapply os_mkdir_is_dir; eauto.
Qed.

Lemma mkdir_parents_is_dir fs p fs1 : mkdir_parents fs p = inr fs1 -> path_is_dir fs1 p = true.
Proof.
  unfold mkdir_parents. rewrite <- (rev_involutive p) at 2.
  generalize (rev p). clear p. intros rp. destruct rp as [|c rparent];
    cbn [mkdir_parents_rev rev app].
  - destruct (os_mkdir fs []) as [e|fs'] eqn:E; intros H.
    + destruct e; try discriminate H;
        destruct (path_is_dir fs []) eqn:D; try discriminate H;
        inversion H; subst; exact D.
    + inversion H; subst. eapply os_mkdir_is_dir; eauto.
  - destruct (os_mkdir fs (rev rparent ++ [c])) as [e|fs'] eqn:E; intros H.
    + destruct e;
        try (destruct (path_is_dir fs (rev rparent ++ [c])) eqn:D; try discriminate H;
             inversion H; subst; exact D).
      destruct (mkdir_parents_rev fs rparent) as [e|fs2] eqn:M; [discriminate H|].
      eapply path_mkdir_is_dir; eauto.
    + inversion H; subst. eapply os_mkdir_is_dir; eauto.
Qed.

Lemma path_mkdir_existing fs p : path_is_dir fs p = true -> path_mkdir fs p true = inr fs.
Proof.
  intros D. unfold path_mkdir, os_mkdir. pose proof D as D'.
  unfold path_is_dir, stat in D'.
  destruct (locate fs p) as [e|q]; [discriminate D'|].
  destruct (node_at fs q); try discriminate D'.
  simpl. now rewrite D.
Qed.

Lemma path_is_dir_added fs fs1 p :
  dirs_added fs fs1 -> path_is_dir fs p = true -> path_is_dir fs1 p = true.
Proof.
  unfold path_is_dir. intros D H.
  destruct (stat fs p) as [e|[q k]] eqn:S; [discriminate H|].
  now rewrite (dirs_added_stat _ _ _ _ _ D S).
Qed.

Lemma probed_refl fs : probed fs fs.
Proof. split; auto. Qed.

Lemma probed_trans fs1 fs2 fs3 : probed fs1 fs2 -> probed fs2 fs3 -> probed fs1 fs3.
Proof. intros [A1 B1] [A2 B2]. split; eauto. Qed.

Lemma dirs_added_probed fs fs1 : dirs_added fs fs1 -> probed fs fs1.
Proof. intros (E & _). split; intros q d; rewrite E; auto. Qed.

(** The place that a path with a last part that is not [..] leads to ends
    in that part. *)
Lemma walk_last fs p c : forall cur q,
  str_eqb c dotdot = false -> walk fs cur (p ++ [c]) = inr q -> List.last q [] = c.
Proof.
  induction p as [|x p IH]; intros cur q Hc H; simpl in H.
  - rewrite Hc in H. destruct (node_at fs cur); try discriminate H.
    inversion H; subst. apply List.last_last.
  - destruct (node_at fs cur); try discriminate H. eapply IH; eauto.
Qed.

Lemma resolve_joinpath path name :
  is_absolute name = false -> parse_parts name = [name] ->
  resolve cwd (joinpath path name) = resolve cwd path ++ [name].
Proof.
  intros A P. unfold joinpath, resolve. rewrite A, P. simpl.
  destruct (rooted path); [reflexivity|now rewrite app_assoc].
Qed.

(** The probe of one candidate. *)
Lemma probe_result path s r s' :
  probe cwd path s = (r, s') ->
  probed (c_fs s) (c_fs s')
  /\ (forall q, q ∈ fs_dirs (c_fs s) -> q ∈ fs_dirs (c_fs s'))
  /\ match r with
     | inr p =>
         p = path
         /\ path_is_dir (c_fs s') (resolve cwd path) = true
         /\ read_file (c_fs s') (resolve cwd path ++ [write_test]) = None
         /\ c_out s' = c_out s ++ [msg_chosen ++ path_str path]
     | inl _ => c_out s' = c_out s
     end.
Proof.
  unfold probe, bind, on_fs, print, ret.
  rewrite (resolve_joinpath path write_test eq_refl eq_refl).
  set (dir := resolve cwd path). set (test := dir ++ [write_test]).
  destruct (mkdir_parents (c_fs s) dir) as [e|fs1] eqn:Mk.
  { intros H. inversion H; subst. split; [apply probed_refl|]. split; auto. }
  pose proof (mkdir_parents_adds _ _ _ Mk) as D1.
  pose proof (mkdir_parents_is_dir _ _ _ Mk) as I1.
  assert (G1 : forall q, q ∈ fs_dirs (c_fs s) -> q ∈ fs_dirs fs1) by apply D1.
  cbn [c_fs c_out].
  destruct (path_touch fs1 test) as [e|fs2] eqn:T.
  { intros H. inversion H; subst. simpl.
    split; [now apply dirs_added_probed|]. split; auto. }
  cbn [c_fs c_out].
  assert (T2 : fs_dirs fs2 = fs_dirs fs1
               /\ (fs2 = fs1
                   \/ exists q, locate fs1 test = inr q /\ stat fs1 test = inl FileNotFoundError
                                /\ fs2 = write_file fs1 q [])).
  { unfold path_touch in T. destruct (stat fs1 test) as [e|x] eqn:S.
    - destruct (locate fs1 test) as [e'|q] eqn:L; [discriminate T|].
      inversion T; subst. split; [reflexivity|]. right. exists q.
      split; [reflexivity|]. split; [|reflexivity].
      unfold stat in S. rewrite L in S. destruct (node_at fs1 q); congruence.
    - inversion T; subst. auto. }
  destruct T2 as [Hd2 T2].
  destruct (os_remove fs2 test) as [e|fs3] eqn:R.
  { intros H. inversion H; subst. simpl.
    split; [|split; [intros q Hq; rewrite Hd2; auto|reflexivity]].
    destruct T2 as [->|(q & L & S & ->)]; [now apply dirs_added_probed|].
    exfalso. unfold os_remove in R. unfold locate in L.
    assert (S2 : stat (write_file fs1 q []) test = inr (q, RegularFile)).
    { unfold stat, locate.
      rewrite (same_dirs_walk fs1 (write_file fs1 q []) test [] q eq_refl L).
      rewrite write_file_node; [reflexivity|].
      unfold stat, locate in S. rewrite L in S.
      destruct (node_at fs1 q); congruence. }
    rewrite S2 in R. discriminate R. }
  cbn [c_fs c_out]. intros H. inversion H; subst. simpl. clear H.
  pose proof (os_remove_gone _ _ _ R) as Gone.
  assert (R3 : exists q, stat fs2 test = inr (q, RegularFile) /\ fs3 = remove_file fs2 q).
  { unfold os_remove in R. destruct (stat fs2 test) as [e|[q [| |]]]; try discriminate R.
    inversion R; subst. eauto. }
  destruct R3 as (q & S2 & ->).
  assert (Lq : List.last q [] = write_test).
  { unfold stat, locate in S2. destruct (walk fs2 [] test) as [e|q'] eqn:W; [discriminate S2|].
    apply (walk_last fs2 dir write_test [] q' eq_refl) in W.
    destruct (node_at fs2 q'); inversion S2; subst; exact W. }
  split; [|split; [intros k Hk; simpl; rewrite Hd2; auto|]].
  - apply (probed_trans _ fs1); [now apply dirs_added_probed|].
    split; simpl.
    + intros k d Hk. apply lookup_delete_Some in Hk. destruct Hk as [Hne Hk].
      destruct T2 as [->|(q' & L & S & ->)]; [exact Hk|].
      simpl in Hk. apply lookup_insert_Some in Hk.
      destruct Hk as [[Ek _]|[_ Hk]]; [|exact Hk].
      subst k. exfalso. apply Hne.
      unfold stat, locate in S2. unfold locate in L.
      rewrite (same_dirs_walk fs1 (write_file fs1 q' []) test [] q' eq_refl L) in S2.
      destruct (node_at (write_file fs1 q' []) q'); inversion S2; reflexivity.
    + intros k d Hk Hl. rewrite lookup_delete_ne by congruence.
      destruct T2 as [->|(q' & L & S & ->)]; [exact Hk|].
      simpl. rewrite lookup_insert_ne; [exact Hk|].
      intros <-. unfold stat, locate in S. unfold locate in L. rewrite L in S.
      assert (N : node_at fs1 q' = Missing) by (destruct (node_at fs1 q'); congruence).
      unfold node_at in N. destruct (bool_decide (q' = [] \/ q' ∈ fs_dirs fs1));
        [discriminate N|]. rewrite Hk in N. discriminate N.
  - split; [reflexivity|]. split; [|split; [exact Gone|reflexivity]].
    apply (path_is_dir_same_dirs fs1); [simpl; exact Hd2|exact I1].
Qed.

Lemma first_usable_result l : forall s r s',
  first_usable cwd l s = (r, s') ->
  probed (c_fs s) (c_fs s')
  /\ match r with
     | inr (Some p) =>
         In p l
         /\ path_is_dir (c_fs s') (resolve cwd p) = true
         /\ read_file (c_fs s') (resolve cwd p ++ [write_test]) = None
         /\ c_out s' = c_out s ++ [msg_chosen ++ path_str p]
     | inr None => c_out s' = c_out s
     | inl _ => False
     end.
Proof.
  induction l as [|path rest IH]; intros s r s' H; cbn [first_usable] in H.
  - inversion H; subst. split; [apply probed_refl|reflexivity].
  - destruct (probe cwd path s) as [[e|p] s1] eqn:P.
    + apply probe_result in P. destruct P as (P1 & _ & O1).
      destruct (IH _ _ _ H) as (P2 & R).
      split; [eapply probed_trans; eauto|].
      destruct r as [e'|[p|]]; [exact R| |congruence].
      destruct R as (I & D & G & O). rewrite O1 in O.
      split; [now right|]. split; [exact D|]. split; [exact G|exact O].
    + inversion H; subst. apply probe_result in P.
      destruct P as (P1 & _ & -> & D & G & O).
      split; [exact P1|]. split; [now left|]. split; [exact D|]. split; [exact G|exact O].
Qed.

(** X20: when [get_base_dir] returns, the directory it returns is one of
    its four candidates and is a directory; one line was printed, which
    names it; no file was created or changed, and no file was removed but a
    file [.write_test] in a candidate.  A directory chosen by the loop has
    no file [.write_test] in it afterwards (one that was there is deleted);
    the directory [home/lvtou_investment_data] can also be returned as the
    default, after every candidate has failed. *)
Theorem get_base_dir_result home tmp s p s' :
  get_base_dir cwd home tmp s = (inr p, s') ->
  In p (candidates home tmp)
  /\ path_is_dir (c_fs s') (resolve cwd p) = true
  /\ probed (c_fs s) (c_fs s')
  /\ ((c_out s' = c_out s ++ [msg_chosen ++ path_str p]
       /\ read_file (c_fs s') (resolve cwd p ++ [write_test]) = None)
      \/ (c_out s' = c_out s ++ [msg_default ++ path_str p]
          /\ p = joinpath home data_dir_name)).
Proof.
  unfold get_base_dir, bind.
  destruct (first_usable cwd (candidates home tmp) s) as [[e|[q|]] s1] eqn:F;
    apply first_usable_result in F; destruct F as (P1 & R).
  - contradiction.
  - intros H. inversion H; subst. destruct R as (I & D & G & O).
    split; [exact I|]. split; [exact D|]. split; [exact P1|]. left. auto.
  - unfold on_fs, print, ret.
    destruct (mkdir_parents (c_fs s1) (resolve cwd (joinpath home data_dir_name)))
      as [e|fs2] eqn:Mk; [discriminate|].
    intros H. inversion H; subst. simpl.
    split; [unfold candidates; simpl; auto|].
    split; [eapply mkdir_parents_is_dir; eauto|].
    split; [eapply probed_trans; [exact P1|]; apply dirs_added_probed;
            eapply mkdir_parents_adds; eauto|].
    right. rewrite R. auto.
Qed.

Lemma make_stage_dirs storage l : forall s r s',
  for_each
    (fun stage => on_fs (fun fs => path_mkdir fs (resolve cwd (joinpath storage stage)) true))
    l s = (r, s') ->
  dirs_added (c_fs s) (c_fs s')
  /\ c_out s' = c_out s
  /\ (r = inr tt ->
      Forall (fun stage => path_is_dir (c_fs s') (resolve cwd (joinpath storage stage)) = true) l).
Proof.
  induction l as [|stage l IH]; intros s r s' H; cbn [for_each] in H.
  - inversion H; subst. split; [apply dirs_added_refl|]. split; [reflexivity|constructor].
  - unfold bind at 1 in H. unfold on_fs at 1 in H.
    destruct (path_mkdir (c_fs s) (resolve cwd (joinpath storage stage)) true)
      as [e|fs1] eqn:Mk.
    + inversion H; subst. split; [apply dirs_added_refl|]. split; [reflexivity|discriminate].
    + destruct (IH _ _ _ H) as (D & O & F). simpl in D, O.
      pose proof (path_mkdir_adds _ _ _ _ Mk) as D1.
      split; [eapply dirs_added_trans; eauto|]. split; [exact O|].
      intros Hr. constructor; [|auto].
      eapply path_is_dir_added; [exact D|]. eapply path_mkdir_is_dir; eauto.
Qed.

Lemma make_stage_dirs_again storage l : forall s,
  Forall (fun stage => path_is_dir (c_fs s) (resolve cwd (joinpath storage stage)) = true) l ->
  for_each
    (fun stage => on_fs (fun fs => path_mkdir fs (resolve cwd (joinpath storage stage)) true))
    l s = (inr tt, s).
Proof.
  induction l as [|stage l IH]; intros s H; cbn [for_each]; [reflexivity|].
  inversion H; subst. unfold bind at 1. unfold on_fs at 1.
  rewrite path_mkdir_existing by assumption.
  destruct s as [fs out]. cbn [c_fs c_out] in *. now apply IH.
Qed.

(** X21: when the statements that make the storage directories end
    without an exception, [uploaded_files] and the directories of the ten
    stages in it are directories; no file was touched and nothing was
    printed; and the same statements run again change nothing. *)
Theorem make_storage_result base_dir s storage s' :
  make_storage cwd base_dir s = (inr storage, s') ->
  storage = joinpath base_dir uploaded_files
  /\ path_is_dir (c_fs s') (resolve cwd storage) = true
  /\ Forall (fun stage => path_is_dir (c_fs s') (resolve cwd (joinpath storage stage)) = true)
       PROJECT_STAGES
  /\ dirs_added (c_fs s) (c_fs s')
  /\ c_out s' = c_out s
  /\ make_storage cwd base_dir s' = (inr storage, s').
Proof.
  unfold make_storage.
  set (st := joinpath base_dir uploaded_files).
  unfold bind at 1. unfold on_fs at 1.
  destruct (path_mkdir (c_fs s) (resolve cwd st) true) as [e|fs1] eqn:Mk; [discriminate|].
  unfold bind at 1.
  match goal with
  | |- context [for_each ?f PROJECT_STAGES ?s1] =>
      destruct (for_each f PROJECT_STAGES s1) as [[e|[]] s2] eqn:L
  end; [discriminate|].
  unfold ret. intros H. inversion H; subst storage s2. clear H.
  apply make_stage_dirs in L. destruct L as (D & O & F). simpl in D, O.
  specialize (F eq_refl).
  pose proof (path_mkdir_adds _ _ _ _ Mk) as D1.
  pose proof (path_mkdir_is_dir _ _ _ Mk) as I1.
  assert (I2 : path_is_dir (c_fs s') (resolve cwd st) = true)
    by (eapply path_is_dir_added; eauto).
  split; [reflexivity|]. split; [exact I2|]. split; [exact F|].
  split; [eapply dirs_added_trans; eauto|]. split; [exact O|].
  unfold bind at 1. unfold on_fs at 1. rewrite (path_mkdir_existing _ _ I2).
  unfold bind. destruct s' as [fs' out']. cbn [c_fs c_out] in *.
  now rewrite (make_stage_dirs_again st PROJECT_STAGES {| c_fs := fs'; c_out := out' |} F).
Qed.

(** ** When the database fails after the files were touched *)

Lemma is_failure_add_failed text : is_failure (msg_add_failed ++ text) = true.
Proof. reflexivity. Qed.

Lemma is_failure_delete_failed text : is_failure (msg_delete_failed ++ text) = true.
Proof. reflexivity. Qed.

(** X22: the uploads that [add_project] has saved are not removed when the
    insert fails: with a name and a database that cannot be written,
    [add_project] returns a failure and the table is as it was, while every
    upload that was saved is still stored under the storage directory. *)
Theorem add_project_failed_insert_keeps_files o stage data remark marked files w :
  dict_get data key_name <> [] ->
  db_write_fails o = true ->
  let res := add_project o stage data remark marked files w in
  exists fps w0,
    save_files o stage (generate_project_id o) (default [] files) [] w = (inr fps, w0)
    /\ is_failure (fst res) = true
    /\ w_table (snd res) = w_table w
    /\ w_fs (snd res) = w_fs w0
    /\ Forall (fun p => path_exists (w_fs (snd res)) (path_join FILE_STORAGE_DIR p) = true) fps.
Proof.
  intros Hn Hw res. subst res. unfold add_project, returning.
  destruct (dict_get data key_name) as [|ch nm] eqn:En; [contradiction|].
  unfold bind, get_db.
  destruct (add_project_block o stage (ch :: nm) data remark marked files (no_session, w))
    as [r [s w1]] eqn:B.
  apply add_block_result in B. destruct B as (fps & w0 & S & -> & -> & ->).
  exists fps, w0. split; [exact S|].
  unfold commit, flush, bind. simpl. unfold bind, sql_insert, bind, now, sql_write.
  simpl. rewrite Hw. simpl.
  destruct (save_files_result _ _ _ _ _ _ _ _ S) as (new & E & _ & Ex & _ & _ & _).
  inversion E; subst fps.
  split; [reflexivity|]. split; [reflexivity|]. split; [reflexivity|exact Ex].
Qed.

(** X23: [delete_project] removes the files before the row, and the files
    do not come back: when the row is found and the database cannot be
    written, [delete_project] returns a failure and the row is still in the
    table, while no stored path of the record leads to a file any more. *)
Theorem delete_project_failed_commit_loses_files o pid w r :
  db_read_fails o = false ->
  db_write_fails o = true ->
  find_row pid (w_table w) = Some r ->
  let res := delete_project o pid w in
  is_failure (fst res) = true
  /\ w_table (snd res) = w_table w
  /\ Forall (fun p => read_file (w_fs (snd res)) (path_join FILE_STORAGE_DIR p) = None)
       (Project.files r)
  /\ fs_shrunk (w_fs w) (w_fs (snd res)).
Proof.
  intros Hr Hw F res. subst res.
  unfold delete_project, returning, get_db, delete_project_block, bind, query_first.
  rewrite Hr. simpl. rewrite F. unfold lift. simpl.
  destruct (delete_project_files r (log EvSelect w)) as [x wa] eqn:D.
  pose proof (delete_project_files_grows _ _ _ _ D) as [T _].
  apply delete_project_files_result in D. cbv zeta in D.
  destruct D as (-> & S & G & _). simpl.
  unfold commit, flush, bind. simpl. unfold sql_update, bind.
  simpl. rewrite T. simpl. rewrite (find_row_id _ _ _ F), F.
  rewrite bool_decide_eq_true_2 by reflexivity. simpl.
  unfold sql_delete, bind, sql_write. rewrite Hw. simpl.
  split; [reflexivity|]. split; [reflexivity|]. split; [exact G|exact S].
Qed.

(** ** Moving a record: the files *)

Lemma nothing_under_spec fs q :
  nothing_under fs q = true ->
  (forall k d, fs_files fs !! k = Some d -> ~ q `prefix_of` k)
  /\ (forall k, k ∈ fs_dirs fs -> ~ q `prefix_of` k).
Proof.
  unfold nothing_under. rewrite forallb_app. intros H.
  apply andb_true_iff in H. destruct H as [Hf Hd].
  rewrite forallb_forall in Hf, Hd. split.
  - intros k d Hk. specialize (Hf k).
    assert (I : In k (List.map fst (map_to_list (fs_files fs)))).
    { apply in_map_iff. exists (k, d). split; [reflexivity|].
      apply list_elem_of_In, elem_of_map_to_list. exact Hk. }
    specialize (Hf I). apply negb_true_iff in Hf. unfold under in Hf.
    now apply bool_decide_eq_false in Hf.
  - intros k Hk. specialize (Hd k).
    assert (I : In k (elements (fs_dirs fs))) by (apply list_elem_of_In, elem_of_elements, Hk).
    specialize (Hd I). apply negb_true_iff in Hd. unfold under in Hd.
    now apply bool_decide_eq_false in Hd.
Qed.

Lemma children_nil fs q k :
  children fs q = [] -> k <> [] -> path_parent k = q ->
  (k ∉ fs_dirs fs) /\ fs_files fs !! k = None.
Proof.
  unfold children. intros H Hk Hp.
  assert (N : forall x, In x (List.map fst (map_to_list (fs_files fs)) ++ elements (fs_dirs fs)) ->
              bool_decide (x <> [] /\ path_parent x = q) = false).
  { intros x Hx. destruct (bool_decide (x <> [] /\ path_parent x = q)) eqn:E; [|reflexivity].
    assert (I : In x (List.filter (fun k => bool_decide (k <> [] /\ path_parent k = q))
                        (List.map fst (map_to_list (fs_files fs)) ++ elements (fs_dirs fs))))
      by (apply filter_In; auto).
    rewrite H in I. destruct I. }
  split.
  - intros Hd. specialize (N k). rewrite bool_decide_eq_true_2 in N by auto.
    assert (I : In k (List.map fst (map_to_list (fs_files fs)) ++ elements (fs_dirs fs))).
    { apply in_or_app. right. apply list_elem_of_In, elem_of_elements, Hd. }
    specialize (N I). discriminate N.
  - destruct (fs_files fs !! k) as [d|] eqn:E; [|reflexivity].
    specialize (N k). rewrite bool_decide_eq_true_2 in N by auto.
    assert (I : In k (List.map fst (map_to_list (fs_files fs)) ++ elements (fs_dirs fs))).
    { apply in_or_app. left. apply in_map_iff. exists (k, d). split; [reflexivity|].
      apply list_elem_of_In, elem_of_map_to_list. exact E. }
    specialize (N I). discriminate N.
Qed.

Lemma node_at_missing fs q :
  node_at fs q = Missing <-> (q <> [] /\ (q ∉ fs_dirs fs) /\ fs_files fs !! q = None).
Proof.
  unfold node_at. case_bool_decide as E.
  - split; [discriminate|]. intros (A & B & _). destruct E; contradiction.
  - destruct (fs_files fs !! q) eqn:F.
    + split; [discriminate|]. intros (_ & _ & H). discriminate H.
    + split; [|reflexivity]. intros _.
      split; [|split; [|reflexivity]]; intros H; apply E; auto.
Qed.

(** A path into a directory. *)
Lemma locate_child fs d q c :
  stat fs d = inr (q, Directory) -> str_eqb c dotdot = false ->
  locate fs (d ++ [c]) = inr (q ++ [c]).
Proof.
  unfold stat, locate. intros S Hc. rewrite walk_app.
  destruct (walk fs [] d) as [e|q'] eqn:W; [discriminate S|].
  destruct (node_at fs q') eqn:K; inversion S; subst q'. simpl. now rewrite K, Hc.
Qed.

Lemma stat_plain fs p q k : plain p = true -> stat fs p = inr (q, k) -> q = p.
Proof.
  unfold stat, locate. intros P S.
  destruct (walk fs [] p) as [e|q'] eqn:W; [discriminate S|].
  apply (walk_plain _ _ _ _ P) in W. simpl in W. subst q'.
  destruct (node_at fs p); inversion S; reflexivity.
Qed.

Lemma stat_last fs p q k :
  List.last p [] <> [] -> str_eqb (List.last p []) dotdot = false ->
  stat fs p = inr (q, k) -> List.last q [] = List.last p [].
Proof.
  intros Hne Hd S. unfold stat, locate in S.
  destruct (walk fs [] p) as [e|q'] eqn:W; [discriminate S|].
  assert (q' = q) by (destruct (node_at fs q'); inversion S; reflexivity). subst q'.
  destruct p as [|x p'] using rev_ind; [simpl in Hne; contradiction|].
  rewrite List.last_last in *. eapply walk_last; eauto.
Qed.

Lemma walk_more_dirs fs fs' p : forall cur q,
  (forall k, k ∈ fs_dirs fs -> k ∈ fs_dirs fs') ->
  walk fs cur p = inr q -> walk fs' cur p = inr q.
Proof.
  induction p as [|c rest IH]; intros cur q Hd H; simpl in *; [exact H|].
  destruct (node_at fs cur) eqn:K; try discriminate H.
  assert (K' : node_at fs' cur = Directory).
  { apply node_at_dir in K. apply node_at_dir. destruct K; auto. }
  rewrite K'. now apply IH.
Qed.

(** [shutil.move] of a regular file to a path in a directory, where no
    directory is in the way. *)
Lemma move_regular_file fs src qs d dparent qp c :
  stat fs src = inr (qs, RegularFile) ->
  fs_files fs !! qs = Some d ->
  ends_with_dotdot src = false ->
  stat fs dparent = inr (qp, Directory) ->
  str_eqb c dotdot = false ->
  node_at fs (qp ++ [c]) <> Directory ->
  qs <> qp ++ [c] ->
  shutil_move fs src (dparent ++ [c])
  = (write_file (remove_file fs qs) (qp ++ [c]) d, None).
Proof.
  intros S F E Sp Hc N Hne.
  pose proof (locate_child _ _ _ _ Sp Hc) as L.
  assert (D : path_is_dir fs (dparent ++ [c]) = false).
  { unfold path_is_dir, stat. rewrite L. destruct (node_at fs (qp ++ [c])); congruence. }
  unfold shutil_move. rewrite D. unfold rename_or_copy, os_rename.
  rewrite E. unfold ends_with_dotdot at 1. rewrite List.last_last, Hc. simpl.
  rewrite S, L. rewrite bool_decide_eq_false_2 by exact Hne.
  destruct (node_at fs (qp ++ [c])); try contradiction; now rewrite F.
Qed.

Lemma os_mkdir_plain fs p fs1 :
  plain p = true -> os_mkdir fs p = inr fs1 -> fs1 = add_dir fs p.
Proof.
  unfold os_mkdir, locate. intros P.
  destruct (walk fs [] p) as [e|q] eqn:W; [discriminate|].
  apply (walk_plain _ _ _ _ P) in W. simpl in W. subst q.
  destruct (node_at fs p); try discriminate. intros H. now inversion H.
Qed.

Lemma path_mkdir_new_dirs fs p ok fs1 k :
  plain p = true -> path_mkdir fs p ok = inr fs1 ->
  k ∈ fs_dirs fs1 -> k ∈ fs_dirs fs \/ k = p.
Proof.
  unfold path_mkdir. intros P H Hk.
  destruct (os_mkdir fs p) as [e|fs'] eqn:E.
  - destruct e; try discriminate H;
      destruct (ok && path_is_dir fs p); try discriminate H;
      inversion H; subst; auto.
  - inversion H; subst. apply (os_mkdir_plain _ _ _ P) in E. subst fs1.
    simpl in Hk. apply elem_of_union in Hk. destruct Hk as [Hk|Hk]; [|auto].
    apply elem_of_singleton in Hk. auto.
Qed.

Lemma mkdir_parents_rev_new_dirs rp : forall fs fs1 k,
  plain (rev rp) = true -> mkdir_parents_rev fs rp = inr fs1 ->
  k ∈ fs_dirs fs1 -> k ∈ fs_dirs fs \/ k `prefix_of` rev rp.
Proof.
  induction rp as [|c rparent IH]; intros fs fs1 k P; cbn [mkdir_parents_rev rev app].
  - destruct (os_mkdir fs []) as [e|fs'] eqn:E; intros H Hk.
    + destruct e; try discriminate H;
        destruct (path_is_dir fs []); try discriminate H;
        inversion H; subst; auto.
    + inversion H; subst. apply (os_mkdir_plain _ _ _ P) in E. subst fs1.
      simpl in Hk. apply elem_of_union in Hk. destruct Hk as [Hk|Hk]; [|auto].
      apply elem_of_singleton in Hk. subst k. right. reflexivity.
  - cbn [rev] in P.
    assert (P' : plain (rev rparent) = true).
    { unfold plain in *. rewrite forallb_app in P. apply andb_true_iff in P. apply P. }
    destruct (os_mkdir fs (rev rparent ++ [c])) as [e|fs'] eqn:E; intros H Hk.
    + destruct e;
        try solve [destruct (path_is_dir fs (rev rparent ++ [c])); try discriminate H;
                   inversion H; subst; auto].
      destruct (mkdir_parents_rev fs rparent) as [e|fs2] eqn:M; [discriminate H|].
      destruct (path_mkdir_new_dirs _ _ _ _ _ P H Hk) as [Hk2| ->]; [|right; reflexivity].
      destruct (IH _ _ _ P' M Hk2) as [?|Hp]; [auto|].
      right. now apply prefix_app_r.
    + inversion H; subst. apply (os_mkdir_plain _ _ _ P) in E. subst fs1.
      simpl in Hk. apply elem_of_union in Hk. destruct Hk as [Hk|Hk]; [|auto].
      apply elem_of_singleton in Hk. subst k. right. reflexivity.
Qed.

Lemma mkdir_parents_new_dirs fs p fs1 k :
  plain p = true -> mkdir_parents fs p = inr fs1 ->
  k ∈ fs_dirs fs1 -> k ∈ fs_dirs fs \/ k `prefix_of` p.
Proof.
  unfold mkdir_parents. intros P H Hk. rewrite <- (rev_involutive p).
  eapply mkdir_parents_rev_new_dirs; eauto. now rewrite rev_involutive.
Qed.

Lemma parse_parts_parts s : Forall (fun x => x <> [] /\ x <> dot) (parse_parts s).
Proof.
  unfold parse_parts. apply List.Forall_forall. intros x Hx.
  apply filter_In in Hx. destruct Hx as [_ Hx]. apply negb_true_iff in Hx.
  apply orb_false_iff in Hx. destruct Hx as [H1 H2]. unfold str_eqb in *.
  apply bool_decide_eq_false in H1, H2. auto.
Qed.

Lemma path_name_part s :
  path_name s <> [] ->
  parse_parts (path_name s) = [path_name s] /\ is_absolute (path_name s) = false.
Proof.
  intros Hne. pose proof (path_name_no_slash s) as N.
  assert (D : path_name s = [] \/ path_name s <> dot).
  { unfold path_name.
    apply (last_Forall (fun x => x = [] \/ x <> dot)); [now left|].
    eapply Forall_impl; [apply parse_parts_parts|]. simpl. tauto. }
  assert (D' : path_name s <> dot) by (destruct D; [contradiction|assumption]).
  split.
  - unfold parse_parts. rewrite (split_slash_plain _ N). cbn [List.filter].
    unfold str_eqb. rewrite !bool_decide_eq_false_2 by assumption. reflexivity.
  - destruct (path_name s) as [|c rest]; [reflexivity|]. simpl in *.
    apply andb_true_iff in N. destruct N as [N _]. now apply negb_true_iff in N.
Qed.

Lemma moved_path_location s2 pid p :
  path_name p <> [] ->
  path_join FILE_STORAGE_DIR (moved_path s2 pid p)
  = path_join FILE_STORAGE_DIR (s2 ++ [slash] ++ pid) ++ [path_name p].
Proof.
  intros Hne. destruct (path_name_part p Hne) as [P A]. unfold moved_path.
  replace (s2 ++ [slash] ++ pid ++ [slash] ++ path_name p)
    with ((s2 ++ [slash] ++ pid) ++ [slash] ++ path_name p)
    by (repeat (rewrite <- app_assoc; simpl); reflexivity).
  rewrite path_join_below; [|destruct s2; discriminate|exact A].
  unfold path_join at 1. now rewrite A, P.
Qed.

Lemma moved_read_other fs qs qd d P x :
  locate fs P = inr x -> x <> qs -> x <> qd ->
  read_file (write_file (remove_file fs qs) qd d) P = read_file fs P.
Proof.
  intros L H1 H2. unfold read_file, stat. unfold locate in *.
  rewrite (same_dirs_walk fs (write_file (remove_file fs qs) qd d) P [] x eq_refl L), L.
  assert (N : node_at (write_file (remove_file fs qs) qd d) x = node_at fs x).
  { unfold node_at. simpl. rewrite lookup_insert_ne by congruence.
    now rewrite lookup_delete_ne by congruence. }
  rewrite N. destruct (node_at fs x); try reflexivity.
  simpl. rewrite lookup_insert_ne by congruence. now rewrite lookup_delete_ne by congruence.
Qed.

Lemma moved_read_none fs qs qd d P :
  read_file fs P = None ->
  (forall x, locate fs P = inr x -> x <> qd) ->
  read_file (write_file (remove_file fs qs) qd d) P = None.
Proof.
  intros R H. unfold read_file, stat, locate in *.
  destruct (walk (write_file (remove_file fs qs) qd d) [] P) as [e|x] eqn:W; [reflexivity|].
  assert (W' : walk fs [] P = inr x)
    by (apply (same_dirs_walk (write_file (remove_file fs qs) qd d) fs P [] x eq_refl W)).
  rewrite W' in R. specialize (H x W').
  destruct (node_at (write_file (remove_file fs qs) qd d) x) eqn:K; try reflexivity.
  apply node_at_file in K. destruct K as (K1 & K2 & v & K3). simpl in K2, K3.
  rewrite lookup_insert_ne in K3 by congruence.
  apply lookup_delete_Some in K3. destruct K3 as [_ K3].
  assert (N : node_at fs x = RegularFile) by (apply node_at_file; eauto).
  rewrite N in R. congruence.
Qed.

Lemma prefix_both (a b : parts) : a `prefix_of` b -> b `prefix_of` a -> a = b.
Proof.
  intros [k ->] [k' E]. rewrite <- app_assoc in E.
  rewrite <- (app_nil_r a) in E at 1. apply app_inv_head in E.
  symmetry in E. apply app_eq_nil in E. destruct E as [-> _]. now rewrite app_nil_r.
Qed.

Lemma not_prefix_child (a : parts) c : a ++ [c] <> a.
Proof.
  intros E. apply (f_equal (@length _)) in E. rewrite length_app in E. simpl in E. lia.
Qed.

Lemma names_differ (done todo : list pystr) p :
  List.NoDup (List.map path_name (done ++ p :: todo)) ->
  forall x, In x done \/ In x todo -> path_name x <> path_name p.
Proof.
  rewrite List.map_app. simpl. intros N x Hx E.
  apply NoDup_remove_2 in N. apply N. apply in_or_app.
  destruct Hx as [Hx|Hx]; [left|right]; rewrite <- E; now apply in_map.
Qed.

(** One turn of the loop, from one state between turns to the next. *)
Lemma relocate_step s2 pid fs0 done p todo acc w out w' :
  let new_dir := path_join FILE_STORAGE_DIR (s2 ++ [slash] ++ pid) in
  (forall x, In x (done ++ p :: todo) ->
     path_name x <> [] /\ str_eqb (path_name x) dotdot = false) ->
  List.NoDup (List.map path_name (done ++ p :: todo)) ->
  plain new_dir = true ->
  moving fs0 (w_fs w) new_dir done (p :: todo) ->
  relocate_files s2 pid (p :: todo) acc w = (inr out, w') ->
  exists w1,
    relocate_files s2 pid todo (acc ++ [moved_path s2 pid p]) w1 = (inr out, w')
    /\ moving fs0 (w_fs w1) new_dir (done ++ [p]) todo.
Proof.
  intros new_dir Hnames Hnodup Hplain (J1 & J2 & J3 & J4 & J7 & J8 & J9 & J6) H.
  destruct (J1 p (in_eq _ _)) as (qs & d & S & F & R0 & Nq).
  destruct (Hnames p (in_elt _ _ _)) as [Hne Hdd].
  set (src := path_join FILE_STORAGE_DIR p) in *.
  set (qd := new_dir ++ [path_name p]).
  cbn [relocate_files] in H. unfold bind at 1 in H. unfold read_fs at 1 in H.
  fold src in H.
  assert (Hex : path_exists (w_fs w) src = true) by (unfold path_exists; now rewrite S).
  rewrite Hex in H.
  change (s2 ++ [slash] ++ pid ++ [slash] ++ path_name p) with (moved_path s2 pid p) in H.
  rewrite (moved_path_location s2 pid p Hne) in H. fold new_dir in H. fold qd in H.
  assert (Hpar : path_parent qd = new_dir) by (unfold path_parent, qd; apply removelast_last).
  rewrite Hpar in H.
  unfold bind at 1 in H. unfold fs_op at 1 in H.
  destruct (mkdir_parents (w_fs w) new_dir) as [e|fs1] eqn:Mk; [discriminate H|].
  pose proof (mkdir_parents_adds _ _ _ Mk) as D1.
  pose proof (mkdir_parents_is_dir _ _ _ Mk) as I1.
  assert (Same : done <> [] -> fs1 = w_fs w).
  { intros Hd. specialize (J6 Hd). unfold path_is_dir in J6.
    destruct (stat (w_fs w) new_dir) as [e|[q [| |]]] eqn:Sn; try discriminate J6.
    rewrite (mkdir_parents_existing _ _ _ Sn) in Mk. now inversion Mk. }
  assert (Sd : stat fs1 new_dir = inr (new_dir, Directory)).
  { unfold path_is_dir in I1.
    destruct (stat fs1 new_dir) as [e|[q [| |]]] eqn:Sn; try discriminate I1.
    now rewrite (stat_plain _ _ _ _ Hplain Sn) in *. }
  assert (S1 : stat fs1 src = inr (qs, RegularFile)) by (eapply dirs_added_stat; eauto).
  assert (F1 : fs_files fs1 !! qs = Some d) by (destruct D1 as (E & _); now rewrite E).
  assert (J3' : forall k, k ∈ fs_dirs fs1 -> new_dir `prefix_of` k -> k = new_dir).
  { intros k Hk Hp.
    destruct (mkdir_parents_new_dirs _ _ _ _ Hplain Mk Hk) as [Hk'|Hk']; [auto|].
    now apply prefix_both. }
  assert (Nd : node_at fs1 qd <> Directory).
  { intros K. apply node_at_dir in K. destruct K as [K|K].
    - unfold qd in K. now destruct new_dir.
    - apply J3' in K; [|now apply prefix_app_r]. now apply not_prefix_child in K. }
  assert (Hq : qs <> qd).
  { intros E. apply Nq. rewrite E. now apply prefix_app_r. }
  assert (He : ends_with_dotdot src = false).
  { unfold ends_with_dotdot, src. now rewrite path_join_last. }
  cbn [w_fs log set_fs] in H.
  unfold bind at 1 in H. unfold fs_op2 at 1 in H. cbn [w_fs log set_fs] in H.
  unfold qd in H.
  rewrite (move_regular_file fs1 src qs d new_dir new_dir (path_name p) S1 F1 He Sd Hdd Nd Hq)
    in H.
  fold qd in H.
  set (fs2 := write_file (remove_file fs1 qs) qd d) in *.
  eexists. split; [exact H|]. cbn [w_fs log set_fs].
  assert (Lq : List.last qs [] = path_name p).
  { rewrite (stat_last _ _ _ _ (eq_ind_r (fun x => x <> []) Hne (path_join_last _ _ Hne))
               (eq_ind_r (fun x => str_eqb x dotdot = false) Hdd (path_join_last _ _ Hne)) S).
    now apply path_join_last. }
  assert (Ld : locate fs1 qd = inr qd) by (apply locate_child; assumption).
  unfold moving. split; [|split; [|split; [|split; [|split; [|split; [|split]]]]]].
  - (* the paths that wait *)
    intros p' Hp'. destruct (J1 p' (in_cons _ _ _ Hp')) as (q' & d' & S' & F' & R0' & Nq').
    destruct (Hnames p' (in_or_app _ _ _ (or_intror (in_cons _ _ _ Hp')))) as [Hne' Hdd'].
    exists q', d'.
    assert (Lq' : List.last q' [] = path_name p').
    { rewrite (stat_last _ _ _ _
                 (eq_ind_r (fun x => x <> []) Hne' (path_join_last _ _ Hne'))
                 (eq_ind_r (fun x => str_eqb x dotdot = false) Hdd' (path_join_last _ _ Hne'))
                 S').
      now apply path_join_last. }
    assert (Hqq : q' <> qs).
    { intros E. apply (names_differ done todo p Hnodup p' (or_intror Hp')). congruence. }
    assert (Hqd : q' <> qd).
    { intros E. apply Nq'. rewrite E. now apply prefix_app_r. }
    pose proof (dirs_added_stat _ _ _ _ _ D1 S') as S1'.
    split.
    + unfold stat, locate in *.
      destruct (walk fs1 [] (path_join FILE_STORAGE_DIR p')) as [e|x] eqn:W; [discriminate S1'|].
      assert (x = q') by (destruct (node_at fs1 x); inversion S1'; reflexivity). subst x.
      rewrite (same_dirs_walk fs1 fs2 _ [] q' eq_refl W).
      replace (node_at fs2 q') with (node_at fs1 q'); [exact S1'|].
      unfold node_at, fs2. simpl. rewrite lookup_insert_ne by congruence.
      now rewrite lookup_delete_ne by congruence.
    + split; [|split; [exact R0'|exact Nq']].
      unfold fs2. simpl. rewrite lookup_insert_ne by congruence.
      rewrite lookup_delete_ne by congruence. destruct D1 as (E & _). now rewrite E.
  - (* the paths that are done *)
    intros p' Hp'. apply in_app_or in Hp'. destruct Hp' as [Hp'|[<-|[]]].
    + assert (Hd : done <> []) by (intros E; rewrite E in Hp'; destruct Hp').
      specialize (Same Hd).
      destruct (J2 p' Hp') as [A B].
      destruct (Hnames p' (in_or_app _ _ _ (or_introl Hp'))) as [Hne' Hdd'].
      pose proof (names_differ done todo p Hnodup p' (or_introl Hp')) as Hn.
      split.
      * rewrite <- A. rewrite <- Same.
        apply (moved_read_other fs1 qs qd d _ (new_dir ++ [path_name p'])).
        -- apply locate_child; assumption.
        -- intros E. apply Nq. rewrite <- E. now apply prefix_app_r.
        -- unfold qd. intros E. apply app_inj_tail in E. destruct E as [_ E]. contradiction.
      * apply moved_read_none; [now rewrite Same|].
        intros x Lx E. subst x.
        assert (Ll : List.last qd [] = path_name p').
        { unfold locate in Lx.
          remember (path_join FILE_STORAGE_DIR p') as P' eqn:EP.
          assert (HP : List.last P' [] = path_name p') by (subst P'; now apply path_join_last).
          destruct P' as [|y P''] using rev_ind.
          - simpl in HP. congruence.
          - rewrite List.last_last in HP. subst y.
            eapply walk_last; eauto. }
        unfold qd in Ll. rewrite List.last_last in Ll. congruence.
    + split.
      * fold src. rewrite R0. fold qd. unfold read_file, stat, locate.
        unfold locate in Ld.
        rewrite (same_dirs_walk fs1 fs2 qd [] qd eq_refl Ld).
        unfold fs2. rewrite (write_file_node (remove_file fs1 qs) qd d).
        -- simpl. apply lookup_insert_eq.
        -- intros K. apply Nd. apply node_at_dir in K. apply node_at_dir. exact K.
      * fold src. unfold read_file, stat, locate in *.
        destruct (walk fs1 [] src) as [e|x] eqn:W; [discriminate S1|].
        assert (x = qs) by (destruct (node_at fs1 x); inversion S1; reflexivity). subst x.
        rewrite (same_dirs_walk fs1 fs2 src [] qs eq_refl W).
        replace (node_at fs2 qs) with Missing; [reflexivity|].
        symmetry. apply node_at_missing.
        assert (K : node_at fs1 qs = RegularFile)
          by (destruct (node_at fs1 qs); inversion S1; reflexivity).
        apply node_at_file in K. destruct K as (K1 & K2 & _).
        split; [exact K1|]. split; [exact K2|].
        unfold fs2. simpl. rewrite lookup_insert_ne by congruence. apply lookup_delete_eq.
  - exact J3'.
  - intros k v Hk Hp. unfold fs2 in Hk. simpl in Hk.
    apply lookup_insert_Some in Hk. destruct Hk as [[<- _]|[_ Hk]].
    + exists p. split; [apply in_or_app; right; now left|reflexivity].
    + apply lookup_delete_Some in Hk. destruct Hk as [_ Hk].
      destruct D1 as (E & _). rewrite E in Hk.
      destruct (J4 k v Hk Hp) as (p' & Hp' & ->).
      exists p'. split; [apply in_or_app; now left|reflexivity].
  - intros k Hk. simpl in Hk.
    destruct (decide (k ∈ fs_dirs (w_fs w))) as [Hin|Hnin]; [now apply J7|].
    destruct D1 as (E & _ & D3). specialize (D3 k Hk Hnin).
    apply node_at_missing in D3. destruct D3 as (_ & _ & D3).
    destruct done as [|x done'].
    + right. rewrite <- J9 by reflexivity. exact D3.
    + rewrite Same in Hk by discriminate. contradiction.
  - intros k Hk. simpl. apply D1. now apply J8.
  - intros E. destruct done; discriminate E.
  - intros _. apply (path_is_dir_same_dirs fs1); [reflexivity|exact I1].
Qed.

Lemma relocate_all s2 pid fs0 todo : forall done acc w out w',
  let new_dir := path_join FILE_STORAGE_DIR (s2 ++ [slash] ++ pid) in
  (forall x, In x (done ++ todo) ->
     path_name x <> [] /\ str_eqb (path_name x) dotdot = false) ->
  List.NoDup (List.map path_name (done ++ todo)) ->
  plain new_dir = true ->
  moving fs0 (w_fs w) new_dir done todo ->
  relocate_files s2 pid todo acc w = (inr out, w') ->
  out = acc ++ List.map (moved_path s2 pid) todo
  /\ moving fs0 (w_fs w') new_dir (done ++ todo) [].
Proof.
  induction todo as [|p todo IH]; intros done acc w out w' new_dir Hn Hd Hp M H.
  - inversion H; subst. rewrite !app_nil_r. auto.
  - destruct (relocate_step s2 pid fs0 done p todo acc w out w' Hn Hd Hp M H) as (w1 & H1 & M1).
    assert (E : (done ++ [p]) ++ todo = done ++ p :: todo) by now rewrite <- app_assoc.
    destruct (IH (done ++ [p]) (acc ++ [moved_path s2 pid p]) w1 out w') as (O & M2);
      try (rewrite E); auto.
    split.
    + rewrite O, <- app_assoc. reflexivity.
    + now rewrite <- E.
Qed.

Lemma remove_if_empty_result p w r w' :
  remove_if_empty p w = (r, w') ->
  r = inr tt
  /\ (w_fs w' = w_fs w
      \/ exists q, children (w_fs w) q = [] /\ w_fs w' = remove_dir (w_fs w) q).
Proof.
  unfold remove_if_empty, swallow, bind, read_fs, iterdir, path_exists, fs_op, os_rmdir.
  destruct (stat (w_fs w) p) as [e|[q k]] eqn:S; cbn.
  - intros H. inversion H; subst. auto.
  - rewrite S. destruct k; cbn; try (intros H; inversion H; subst; now auto).
    destruct (children (w_fs w) q) eqn:C; cbn; [|intros H; inversion H; subst; now auto].
    destruct (ends_with_dotdot p); cbn; [intros H; inversion H; subst; now auto|].
    rewrite S. destruct q as [|c q']; cbn; [intros H; inversion H; subst; now auto|].
    rewrite C. cbn. intros H. inversion H; subst. split; [reflexivity|]. right.
    exists (c :: q'). auto.
Qed.

Lemma walk_without_empty_dir fs q p : forall cur x,
  children fs q = [] -> plain p = true ->
  walk fs cur p = inr x -> (p <> [] -> node_at fs x <> Missing) ->
  walk (remove_dir fs q) cur p = inr x.
Proof.
  induction p as [|c rest IH]; intros cur x C P W N; simpl in *; [exact W|].
  apply andb_true_iff in P. destruct P as [Pc Pr]. apply negb_true_iff in Pc.
  rewrite Pc in *.
  destruct (node_at fs cur) eqn:K; try discriminate W.
  assert (Hne : cur ++ [c] <> []) by (now destruct cur).
  assert (Hpar : path_parent (cur ++ [c]) = cur) by (unfold path_parent; apply removelast_last).
  assert (Hq : cur = [] \/ cur <> q).
  { destruct cur as [|c0 cur0]; [now left|right]. intros E.
    rewrite E in Hne, Hpar, W. rewrite E in K. clear E.
    destruct (children_nil fs q (q ++ [c]) C Hne Hpar) as [Hd Hf].
    assert (Hm : node_at fs (q ++ [c]) = Missing) by (apply node_at_missing; auto).
    destruct rest as [|c' rest'].
    - simpl in W. inversion W; subst. apply N; [discriminate|exact Hm].
    - simpl in W. rewrite Hm in W. discriminate W. }
  assert (K' : node_at (remove_dir fs q) cur = Directory).
  { apply node_at_dir. apply node_at_dir in K.
    destruct Hq as [->|Hq]; [now left|]. destruct K as [K|K]; [now left|right].
    simpl. apply elem_of_difference. split; [exact K|].
    intros E. apply elem_of_singleton in E. contradiction. }
  rewrite K'. apply IH; auto.
Qed.

Lemma read_after_rmdir fs q P d :
  children fs q = [] -> plain P = true ->
  read_file fs P = Some d -> read_file (remove_dir fs q) P = Some d.
Proof.
  intros C Pl R. unfold read_file, stat, locate in *.
  destruct (walk fs [] P) as [e|x] eqn:W; [discriminate R|].
  destruct (node_at fs x) eqn:K; try discriminate R.
  rewrite (walk_without_empty_dir fs q P [] x C Pl W) by (intros _; congruence).
  apply node_at_file in K. destruct K as (K1 & K2 & v & K3).
  replace (node_at (remove_dir fs q) x) with RegularFile; [exact R|].
  symmetry. apply node_at_file. split; [exact K1|]. split; [|exists v; exact K3].
  simpl. intros E. apply elem_of_difference in E. destruct E. contradiction.
Qed.

Lemma read_none_after_rmdir fs0 fs q P qp :
  stat fs0 P = inr (qp, RegularFile) ->
  (forall k, k ∈ fs_dirs fs0 -> k ∈ fs_dirs fs) ->
  (forall k, k ∈ fs_dirs fs -> k ∈ fs_dirs fs0 \/ fs_files fs0 !! k = None) ->
  read_file fs P = None -> read_file (remove_dir fs q) P = None.
Proof.
  intros S0 J8 J7 R.
  destruct (read_file (remove_dir fs q) P) as [v|] eqn:E; [|reflexivity]. exfalso.
  unfold read_file, stat, locate in *.
  destruct (walk (remove_dir fs q) [] P) as [e|x] eqn:W; [discriminate E|].
  destruct (node_at (remove_dir fs q) x) eqn:K; try discriminate E.
  assert (W1 : walk fs [] P = inr x).
  { apply (walk_more_dirs (remove_dir fs q) fs P [] x); [|exact W].
    intros k Hk. simpl in Hk. apply elem_of_difference in Hk. apply Hk. }
  destruct (walk fs0 [] P) as [e|x0] eqn:W0; [discriminate S0|].
  assert (x0 = qp /\ node_at fs0 qp = RegularFile).
  { destruct (node_at fs0 x0) eqn:K0; inversion S0; subst; auto. }
  destruct H as [-> K0].
  pose proof (walk_more_dirs fs0 fs P [] qp J8 W0) as W2.
  assert (x = qp) by congruence. subst x.
  apply node_at_file in K0. destruct K0 as (A0 & B0 & v0 & C0).
  apply node_at_file in K. destruct K as (A & B & v' & C). simpl in C.
  rewrite W1 in R.
  destruct (decide (qp ∈ fs_dirs fs)) as [Hin|Hnin].
  - destruct (J7 qp Hin) as [H|H]; [contradiction|congruence].
  - assert (N : node_at fs qp = RegularFile) by (apply node_at_file; eauto).
    rewrite N in R. congruence.
Qed.

Lemma move_block_run o pid s2 w msg s w1 r :
  update_project_stage_block o pid s2 (no_session, w) = (inr msg, (s, w1)) ->
  find_row pid (w_table w) = Some r ->
  exists new wa,
    relocate_files s2 pid (Project.files r) [] (log EvSelect w) = (inr new, wa)
    /\ remove_if_empty
         (path_join (path_join FILE_STORAGE_DIR (Project.stage r)) pid) wa = (inr tt, w1)
    /\ s = {| s_new := [];
              s_loaded := [Project.set_files new (Project.set_stage s2 r)];
              s_deleted := [] |}.
Proof.
  intros H F. unfold update_project_stage_block, bind, query_first in H.
  destruct (db_read_fails o); simpl in H; [discriminate H|].
  rewrite F in H. pose proof (find_row_id _ _ _ F) as Hid.
  unfold set_attr in H. simpl in H. rewrite Hid, str_eqb_refl in H.
  destruct (Project.files r) as [|p l] eqn:Fl.
  - unfold ret at 1 in H. unfold lift in H. simpl in H.
    match type of H with
    | context [remove_if_empty ?d ?w0] =>
        destruct (remove_if_empty d w0) as [[e|[]] wb] eqn:R
    end; simpl in H; [discriminate H|].
    inversion H; subst. exists [], (log EvSelect w).
    split; [reflexivity|]. split; [exact R|].
    rewrite set_files_same by (simpl; exact Fl). reflexivity.
  - remember (relocate_files s2 pid (p :: l) []) as reloc eqn:Er.
    unfold lift at 1 in H. simpl in H.
    destruct (reloc (log EvSelect w)) as [[e|new] wa] eqn:Rl;
      simpl in H; [discriminate H|].
    simpl in H. rewrite Hid, str_eqb_refl in H.
    unfold lift in H. simpl in H.
    match type of H with
    | context [remove_if_empty ?d ?w0] =>
        destruct (remove_if_empty d w0) as [[e|[]] wb] eqn:R
    end; simpl in H; [discriminate H|].
    inversion H; subst. exists new, wa. auto.
Qed.

Lemma in_place_facts fs stage pid p :
  in_place fs stage pid p = true ->
  (exists q d, stat fs (path_join FILE_STORAGE_DIR p) = inr (q, RegularFile)
               /\ fs_files fs !! q = Some d
               /\ read_file fs (path_join FILE_STORAGE_DIR p) = Some d)
  /\ path_name p <> [] /\ str_eqb (path_name p) dotdot = false.
Proof.
  unfold in_place. intros H.
  destruct (stat fs (path_join FILE_STORAGE_DIR p)) as [e|[q k]] eqn:S; [discriminate H|].
  destruct k; try discriminate H.
  apply andb_true_iff in H. destruct H as [H Hdd].
  apply andb_true_iff in H. destruct H as [_ Hne].
  unfold str_eqb in Hne. apply negb_true_iff, bool_decide_eq_false in Hne.
  apply negb_true_iff in Hdd.
  split; [|auto].
  assert (K : node_at fs q = RegularFile).
  { unfold stat in S.
    destruct (locate fs (path_join FILE_STORAGE_DIR p)) as [e|x]; [discriminate S|].
    destruct (node_at fs x) eqn:K; inversion S; subst; exact K. }
  apply node_at_file in K. destruct K as (_ & _ & d & K).
  exists q, d. split; [reflexivity|]. split; [exact K|].
  unfold read_file. rewrite S. exact K.
Qed.

(** X24: [update_project_stage] moves the files.  For a record whose
    stored paths lead to files in its directory, with file names that are
    pairwise different, and a new directory [{storage}/{new stage}/{id}]
    without [..] at or under which the file system has nothing yet: after a
    successful call the row lists every file under its new path, the
    content of each file is at the new path, and the old path leads to no
    file. *)
Theorem update_project_stage_moves_files o pid s2 w msg w' r :
  update_project_stage o pid s2 w = (msg, w') ->
  is_success msg = true ->
  find_row pid (w_table w) = Some r ->
  forallb (in_place (w_fs w) (Project.stage r) pid) (Project.files r) = true ->
  List.NoDup (List.map path_name (Project.files r)) ->
  plain (path_join FILE_STORAGE_DIR (s2 ++ [slash] ++ pid)) = true ->
  nothing_under (w_fs w) (path_join FILE_STORAGE_DIR (s2 ++ [slash] ++ pid)) = true ->
  (exists row,
     find_row pid (w_table w') = Some row
     /\ Project.stage row = s2
     /\ Project.files row = List.map (moved_path s2 pid) (Project.files r))
  /\ Forall
       (fun p =>
          (exists d,
             read_file (w_fs w) (path_join FILE_STORAGE_DIR p) = Some d
             /\ read_file (w_fs w') (path_join FILE_STORAGE_DIR (moved_path s2 pid p))
                = Some d)
          /\ read_file (w_fs w') (path_join FILE_STORAGE_DIR p) = None)
       (Project.files r).
Proof.
  intros H Hs F Hin Hnd Hpl Hnu.
  set (new_dir := path_join FILE_STORAGE_DIR (s2 ++ [slash] ++ pid)) in *.
  unfold update_project_stage, returning in H.
  destruct (get_db o (update_project_stage_block o pid s2) w) as [[e|a] wg] eqn:G.
  { inversion H; subst. discriminate Hs. }
  inversion H; subst a wg. clear H.
  apply get_db_returns in G. destruct G as (s & w1 & u & B & C).
  destruct (move_block_run _ _ _ _ _ _ _ _ B F) as (new & wa & Rl & Re & ->).
  pose proof (keeps_fs_commit _ _ _ _ _ C) as Hfs.
  pose proof (find_row_id _ _ _ F) as Hid.
  assert (T1 : w_table w1 = w_table w).
  { destruct (move_block_detail _ _ _ _ _ _ _ _ B F) as (kept & _ & _ & T & _). exact T. }
  assert (F1 : find_row
                 (Project.id (Project.set_files new (Project.set_stage s2 r)))
                 (w_table w1) = Some r) by (simpl; rewrite Hid, T1; exact F).
  destruct (commit_loaded_row _ _ _ _ _ _ C F1) as (t & Row & _). cbv zeta in Row.
  simpl in Row. rewrite Hid in Row.
  rewrite forallb_forall in Hin.
  assert (Hnames : forall x, In x ([] ++ Project.files r) ->
            path_name x <> [] /\ str_eqb (path_name x) dotdot = false).
  { intros x Hx. apply (in_place_facts _ _ _ _ (Hin x Hx)). }
  destruct (nothing_under_spec _ _ Hnu) as [Nf Ndir].
  assert (M0 : moving (w_fs w) (w_fs (log EvSelect w)) new_dir [] (Project.files r)).
  { unfold moving. simpl.
    split; [|split; [|split; [|split; [|split; [|split; [|split]]]]]].
    - intros p Hp. destruct (in_place_facts _ _ _ _ (Hin p Hp)) as ((q & d & S & Fq & R) & _).
      exists q, d. repeat split; auto. now apply (Nf q d).
    - intros p [].
    - intros k Hk Hp. now apply Ndir in Hp.
    - intros k d Hk Hp. now apply (Nf k d) in Hp.
    - intros k Hk. now left.
    - intros k Hk. exact Hk.
    - intros _. reflexivity.
    - intros E. now contradiction E. }
  destruct (relocate_all s2 pid (w_fs w) (Project.files r) [] [] _ _ _ Hnames Hnd Hpl M0 Rl)
    as (-> & (_ & J2 & _ & _ & J7 & J8 & _)).
  simpl in J2.
  split.
  { eexists. split; [exact Row|]. split; reflexivity. }
  apply Forall_forall. intros p Hp. apply list_elem_of_In in Hp.
  destruct (in_place_facts _ _ _ _ (Hin p Hp)) as ((q & d & S & Fq & R) & Hne & Hdd).
  destruct (J2 p Hp) as [A Bn]. rewrite R in A.
  rewrite (moved_path_location s2 pid p Hne). fold new_dir. rewrite Hfs.
  apply remove_if_empty_result in Re. destruct Re as [_ [E|(qr & Ch & E)]]; rewrite E.
  - split; [exists d; auto|exact Bn].
  - split.
    + exists d. split; [exact R|]. apply read_after_rmdir; [exact Ch| |exact A].
      unfold plain in *. rewrite forallb_app, Hpl. simpl. now rewrite Hdd.
    + eapply read_none_after_rmdir; eauto.
Qed.

(** What [remove_if_empty] leaves: a path without [..] that is not the
    root does not lead to a directory without entries. *)
Lemma remove_if_empty_leaves p w r w' :
  remove_if_empty p w = (r, w') ->
  p <> [] -> plain p = true ->
  empty_dir (w_fs w') p = false.
Proof.
  intros H Hne Hpl.
  unfold remove_if_empty, swallow, bind, read_fs, iterdir, path_exists, fs_op, os_rmdir in H.
  rewrite (plain_not_ends_with_dotdot _ Hpl) in H.
  destruct (stat (w_fs w) p) as [e|[q k]] eqn:S; cbn in H.
  - inversion H; subst. unfold empty_dir. now rewrite S.
  - rewrite S in H. pose proof (stat_plain _ _ _ _ Hpl S) as ->.
    destruct k; cbn in H; try (inversion H; subst; unfold empty_dir; now rewrite S).
    destruct (children (w_fs w) p) eqn:C; cbn in H.
    + rewrite S in H. destruct p as [|c p']; [contradiction|]. rewrite C in H. cbn in H.
      inversion H; subst. cbn [w_fs log set_fs]. unfold empty_dir, stat, locate.
      destruct (walk (remove_dir (w_fs w) (c :: p')) [] (c :: p')) as [e|x] eqn:W;
        [reflexivity|].
      apply (walk_plain _ _ _ _ Hpl) in W. simpl in W. subst x.
      replace (node_at (remove_dir (w_fs w) (c :: p')) (c :: p'))
        with (match fs_files (w_fs w) !! (c :: p') with
              | Some _ => RegularFile
              | None => Missing
              end).
      * destruct (fs_files (w_fs w) !! (c :: p')); reflexivity.
      * unfold node_at. rewrite bool_decide_eq_false_2; [reflexivity|].
        intros [E|E]; [discriminate E|]. simpl in E. apply elem_of_difference in E.
        destruct E as [_ E]. apply E. now apply elem_of_singleton.
    + inversion H; subst. unfold empty_dir. now rewrite S, C.
Qed.

(** X25: a successful [update_project_stage] does not leave the old
    directory of the record behind empty: when
    [{storage}/{old stage}/{id}] has no [..] in it and is not the root, it
    is not a directory without entries afterwards. *)
Theorem update_project_stage_leaves_no_empty_directory o pid s2 w msg w' r :
  update_project_stage o pid s2 w = (msg, w') ->
  is_success msg = true ->
  find_row pid (w_table w) = Some r ->
  let old_dir := path_join (path_join FILE_STORAGE_DIR (Project.stage r)) pid in
  old_dir <> [] ->
  plain old_dir = true ->
  empty_dir (w_fs w') old_dir = false.
Proof.
  intros H Hs F old_dir Hne Hpl.
  unfold update_project_stage, returning in H.
  destruct (get_db o (update_project_stage_block o pid s2) w) as [[e|a] wg] eqn:G.
  { inversion H; subst. discriminate Hs. }
  inversion H; subst a wg. clear H.
  apply get_db_returns in G. destruct G as (s & w1 & u & B & C).
  destruct (move_block_run _ _ _ _ _ _ _ _ B F) as (new & wa & _ & Re & _).
  rewrite (keeps_fs_commit _ _ _ _ _ C).
  eapply remove_if_empty_leaves; eauto.
Qed.

(** ** Record ids: the random bytes that count *)

Lemma hex_digits_split b : forall a v acc,
  hex_digits (b + a) v acc
  = hex_digits a (v / 16 ^ Z.of_nat b) (hex_digits b v acc).
Proof.
  induction b as [|b IH]; intros a v acc.
  - simpl. now rewrite Z.div_1_r.
  - cbn [Nat.add hex_digits]. rewrite IH.
    rewrite Z.div_div by lia.
    replace (16 * 16 ^ Z.of_nat b) with (16 ^ Z.of_nat (S b))
      by (rewrite Nat2Z.inj_succ, Z.pow_succ_r by lia; reflexivity).
    reflexivity.
Qed.

Lemma uuid_hex_head u :
  slice_to 8 (uuid_hex u) = hex_digits 8 (u / 2 ^ 96) [].
Proof.
  unfold uuid_hex, slice_to.
  change 32%nat with (24 + 8)%nat. rewrite hex_digits_split, hex_digits_app.
  change (16 ^ Z.of_nat 24) with (2 ^ 96).
  destruct (hex_digits_shape 8 (u / 2 ^ 96)) as [L _].
  change (Z.to_nat 8) with 8%nat. rewrite <- L at 1. apply take_app_length.
Qed.

(** The version and the variant that [uuid4] sets are below the first four
    bytes. *)
Lemma uuid4_int_head rnd : uuid4_int rnd / 2 ^ 96 = (rnd mod 2 ^ 128) / 2 ^ 96.
Proof.
  rewrite <- !Z.shiftr_div_pow2 by lia. unfold uuid4_int. cbv zeta.
  repeat (rewrite Z.shiftr_lor || rewrite Z.shiftr_land).
  change (Z.shiftr (Z.shiftl 4 76) 96) with 0.
  change (Z.shiftr (Z.lnot (Z.shiftl 61440 64)) 96) with (-1).
  change (Z.shiftr (Z.shiftl 32768 48) 96) with 0.
  change (Z.shiftr (Z.lnot (Z.shiftl 49152 48)) 96) with (-1).
  now rewrite !Z.land_m1_r, !Z.lor_0_r.
Qed.

Lemma hexdigit_inj a b : 0 <= a < 16 -> 0 <= b < 16 -> hexdigit a = hexdigit b -> a = b.
Proof.
  unfold hexdigit. change (chr "0") with 48. change (chr "a") with 97. intros Ha Hb.
  destruct (a <? 10) eqn:Ea; destruct (b <? 10) eqn:Eb;
    try apply Z.ltb_lt in Ea; try apply Z.ltb_ge in Ea;
    try apply Z.ltb_lt in Eb; try apply Z.ltb_ge in Eb; lia.
Qed.

Lemma hex_digits_inj n : forall v v',
  hex_digits n v [] = hex_digits n v' [] -> v mod 16 ^ Z.of_nat n = v' mod 16 ^ Z.of_nat n.
Proof.
  induction n as [|n IH]; intros v v' H.
  - simpl. now rewrite !Z.mod_1_r.
  - cbn [hex_digits] in H. rewrite (hex_digits_app n (v / 16)), (hex_digits_app n (v' / 16)) in H.
    apply app_inj_tail in H. destruct H as [H1 H2].
    apply hexdigit_inj in H2; try (apply Z.mod_pos_bound; lia).
    apply IH in H1.
    rewrite Nat2Z.inj_succ, Z.pow_succ_r by lia.
    rewrite !(Z.rem_mul_r _ 16) by lia. congruence.
Qed.

(** X26: the id is the hexadecimal form of the first four of the sixteen
    random bytes: the version and the variant of the UUID do not reach it.
    Two calls give the same id exactly when these four bytes agree, so
    there are [2 ^ 32] ids. *)
Theorem generate_project_id_first_bytes o1 o2 :
  generate_project_id o1 = proj_ ++ hex_digits 8 ((uuid_bytes o1 mod 2 ^ 128) / 2 ^ 96) []
  /\ 0 <= (uuid_bytes o1 mod 2 ^ 128) / 2 ^ 96 < 2 ^ 32
  /\ (generate_project_id o1 = generate_project_id o2
      <-> (uuid_bytes o1 mod 2 ^ 128) / 2 ^ 96 = (uuid_bytes o2 mod 2 ^ 128) / 2 ^ 96).
Proof.
  assert (E : forall o,
             generate_project_id o
             = proj_ ++ hex_digits 8 ((uuid_bytes o mod 2 ^ 128) / 2 ^ 96) []).
  { intros o. unfold generate_project_id, project_id_of.
    now rewrite uuid_hex_head, uuid4_int_head. }
  assert (B : forall o, 0 <= (uuid_bytes o mod 2 ^ 128) / 2 ^ 96 < 2 ^ 32).
  { intros o. pose proof (Z.mod_pos_bound (uuid_bytes o) (2 ^ 128) ltac:(lia)) as M.
    split; [apply Z.div_pos; lia|].
    apply Z.div_lt_upper_bound; [lia|]. change (2 ^ 96 * 2 ^ 32) with (2 ^ 128). lia. }
  split; [apply E|]. split; [apply B|]. split.
  - rewrite !E. intros H. apply app_inv_head in H. apply hex_digits_inj in H.
    change (16 ^ Z.of_nat 8) with (2 ^ 32) in H.
    rewrite (Z.mod_small _ _ (B o1)), (Z.mod_small _ _ (B o2)) in H. exact H.
  - intros H. now rewrite !E, H.
Qed.

(** ** Saving an uploaded file: the copy *)

Lemma os_read_file_spec fs s data :
  os_read_file fs cwd s = Some data
  <-> (s <> [] /\ wants_directory s = false
       /\ read_file fs (path_join cwd s) = Some data).
Proof.
  unfold os_read_file, os_stat, read_file. destruct s as [|c s].
  - split; [discriminate|]. intros (H & _). contradiction.
  - destruct (stat fs (path_join cwd (c :: s))) as [e|[q [| |]]];
      destruct (wants_directory (c :: s)); split;
      try discriminate; try (intros (_ & ? & ?); discriminate);
      try (intros H; repeat split; [discriminate|exact H]);
      intros (_ & _ & H); exact H.
Qed.

Lemma os_read_file_stat fs s data :
  os_read_file fs cwd s = Some data ->
  exists q,
    os_stat fs cwd s = inr (q, RegularFile)
    /\ stat fs (path_join cwd s) = inr (q, RegularFile)
    /\ fs_files fs !! q = Some data.
Proof.
  unfold os_read_file, os_stat. destruct s as [|c s]; [discriminate|].
  destruct (stat fs (path_join cwd (c :: s))) as [e|[q [| |]]];
    destruct (wants_directory (c :: s)); try discriminate.
  intros H. exists q. auto.
Qed.

(** A regular file copied to a name that a directory does not have yet. *)
Lemma shutil_copy2_new_file fs src data d c :
  os_read_file fs cwd src = Some data ->
  plain d = true ->
  path_is_dir fs d = true ->
  str_eqb c dotdot = false ->
  node_at fs (d ++ [c]) = Missing ->
  shutil_copy2 fs cwd src (d ++ [c]) = inr (write_file fs (d ++ [c]) data).
Proof.
  intros R Pd Dd Hc N.
  destruct (os_read_file_stat _ _ _ R) as (q & Os & St & F).
  assert (Sd : stat fs d = inr (d, Directory)).
  { unfold path_is_dir in Dd. destruct (stat fs d) as [e|[qd k]] eqn:E; [discriminate|].
    destruct k; try discriminate.
    now rewrite (stat_plain _ _ _ _ Pd E). }
  pose proof (locate_child _ _ _ _ Sd Hc) as L.
  assert (St' : stat fs (d ++ [c]) = inl FileNotFoundError).
  { unfold stat. now rewrite L, N. }
  unfold shutil_copy2. rewrite Os. unfold copy2_at, path_is_dir, samefile.
  repeat (rewrite St' || rewrite St || rewrite F || rewrite L || rewrite N).
  reflexivity.
Qed.

Lemma read_written_file fs q data p :
  locate fs p = inr q -> node_at fs q <> Directory ->
  read_file (write_file fs q data) p = Some data.
Proof.
  intros L N. unfold read_file, stat. unfold locate in *.
  rewrite (same_dirs_walk fs (write_file fs q data) p [] q eq_refl L).
  rewrite (write_file_node _ _ _ N). simpl. apply lookup_insert_eq.
Qed.

Lemma stored_name_not_dotdot t s :
  str_eqb (strftime_stamp t ++ [chr "_"] ++ s) dotdot = false.
Proof.
  destruct (stamp_head t) as (c & rest & E & Hc). rewrite E.
  unfold str_eqb. apply bool_decide_eq_false. intros H. inversion H; subst.
  change (chr "0") with 48 in Hc. change (chr ".") with 46 in Hc. lia.
Qed.

(** The three ways through [save_uploaded_file] for an upload that has a
    [name]. *)
Lemma save_uploaded_file_run o src stage pid w :
  let res := save_uploaded_file o (TempFile src) stage pid w in
  let abs_dir := path_join FILE_STORAGE_DIR (stage ++ [slash] ++ pid) in
  let file_name :=
    strftime_stamp (clock o (w_ticks w)) ++ [chr "_"]
    ++ sanitize_filename unicode_isalnum Posix (path_name src) in
  match mkdir_parents (w_fs w) abs_dir with
  | inl _ => fst res = None /\ w_fs (snd res) = w_fs w
  | inr fs1 =>
      match shutil_copy2 fs1 cwd src (path_join abs_dir file_name) with
      | inl _ => fst res = None /\ w_fs (snd res) = fs1
      | inr fs2 =>
          fst res = Some (stage ++ [slash] ++ pid ++ [slash] ++ file_name)
          /\ w_fs (snd res) = fs2
      end
  end.
Proof.
  cbv zeta. unfold save_uploaded_file. cbn [truthy negb].
  unfold returning, bind, fs_op, now, ret.
  destruct (mkdir_parents (w_fs w) _) as [e|fs1] eqn:Mk; cbn; [auto|].
  match goal with
  | |- context [shutil_copy2 fs1 cwd src ?d] =>
      destruct (shutil_copy2 fs1 cwd src d) as [e|fs2] eqn:Cp
  end; cbn; [auto|].
  split; [|reflexivity]. repeat (rewrite <- app_assoc; simpl). reflexivity.
Qed.

(** An upload without a [name]: the result is [None], and nothing but the
    directory is made. *)
Lemma save_uploaded_file_no_name o s stage pid w :
  fst (save_uploaded_file o (StrPath s) stage pid w) = None
  /\ (forall e,
        mkdir_parents (w_fs w) (path_join FILE_STORAGE_DIR (stage ++ [slash] ++ pid)) = inl e ->
        w_fs (snd (save_uploaded_file o (StrPath s) stage pid w)) = w_fs w).
Proof.
  unfold save_uploaded_file. destruct s as [|c s]; cbn [truthy negb]; [auto|].
  unfold returning, bind, fs_op, now, ret, raise.
  destruct (mkdir_parents (w_fs w) _) as [e|fs1] eqn:Mk; cbn; split; auto; discriminate.
Qed.

(** C9: [save_uploaded_file] copies.  The source keeps its content on every
    way through the function.  For a source that is a regular file, a
    directory [{storage}/{stage}/{id}] without [..] that can be made, and
    nothing stored yet under the new name, the result is the path
    [{stage}/{id}/{timestamp}_{sanitized name}], relative to the storage
    directory, and the content of the source is at that path.  More
    generally a path is returned whenever [mkdir] and [shutil.copy2] go
    through; a returned path has this form, and the content is at it, or in
    it under the base name of the source when the path is a directory.
    When the directory cannot be made, when the
    copy fails, or when the upload has no [name], the result is [None].
    Nothing is raised: the function is total. *)
Theorem save_uploaded_file_copies o file stage pid w :
  let res := save_uploaded_file o file stage pid w in
  let fs' := w_fs (snd res) in
  let abs_dir := path_join FILE_STORAGE_DIR (stage ++ [slash] ++ pid) in
  let file_name src :=
    strftime_stamp (clock o (w_ticks w)) ++ [chr "_"]
    ++ sanitize_filename unicode_isalnum Posix (path_name src) in
  let stored src := stage ++ [slash] ++ pid ++ [slash] ++ file_name src in
  (forall src data,
     file = TempFile src ->
     read_file (w_fs w) (path_join cwd src) = Some data ->
     read_file fs' (path_join cwd src) = Some data)
  /\ (forall src data fs1,
        file = TempFile src ->
        os_read_file (w_fs w) cwd src = Some data ->
        plain abs_dir = true ->
        mkdir_parents (w_fs w) abs_dir = inr fs1 ->
        node_at (w_fs w) (path_join abs_dir (file_name src)) = Missing ->
        fst res = Some (stored src)
        /\ read_file fs' (path_join FILE_STORAGE_DIR (stored src)) = Some data
        /\ os_read_file fs' cwd src = Some data)
  /\ (forall src fs1 fs2,
        file = TempFile src ->
        mkdir_parents (w_fs w) abs_dir = inr fs1 ->
        shutil_copy2 fs1 cwd src (path_join abs_dir (file_name src)) = inr fs2 ->
        fst res = Some (stored src) /\ fs' = fs2)
  /\ (forall p,
        fst res = Some p ->
        exists src data,
          file = TempFile src
          /\ p = stored src
          /\ os_read_file fs' cwd src = Some data
          /\ (read_file fs' (path_join FILE_STORAGE_DIR p) = Some data
              \/ (path_is_dir fs' (path_join FILE_STORAGE_DIR p) = true
                  /\ read_file fs'
                       (path_join FILE_STORAGE_DIR p ++ parse_parts (basename src))
                     = Some data)))
  /\ (forall e, mkdir_parents (w_fs w) abs_dir = inl e -> fst res = None /\ fs' = w_fs w)
  /\ (forall src fs1 e,
        file = TempFile src ->
        mkdir_parents (w_fs w) abs_dir = inr fs1 ->
        shutil_copy2 fs1 cwd src (path_join abs_dir (file_name src)) = inl e ->
        fst res = None /\ fs' = fs1)
  /\ (forall s, file = StrPath s -> fst res = None).
Proof.
  cbv zeta.
  set (abs_dir := path_join FILE_STORAGE_DIR (stage ++ [slash] ++ pid)).
  assert (Hj : forall src,
             path_join FILE_STORAGE_DIR
               (stage ++ [slash] ++ pid ++ [slash]
                ++ strftime_stamp (clock o (w_ticks w)) ++ [chr "_"]
                ++ sanitize_filename unicode_isalnum Posix (path_name src))
             = path_join abs_dir
                 (strftime_stamp (clock o (w_ticks w)) ++ [chr "_"]
                  ++ sanitize_filename unicode_isalnum Posix (path_name src))).
  { intros src. subst abs_dir. rewrite <- path_join_below.
    - repeat (rewrite <- app_assoc; simpl). reflexivity.
    - destruct stage; discriminate.
    - apply stamp_not_absolute. }
  destruct file as [src0|s].
  - pose proof (save_uploaded_file_run o src0 stage pid w) as Run. cbv zeta in Run.
    fold abs_dir in Run.
    set (res := save_uploaded_file o (TempFile src0) stage pid w) in *.
    set (fn := strftime_stamp (clock o (w_ticks w)) ++ [chr "_"]
               ++ sanitize_filename unicode_isalnum Posix (path_name src0)) in *.
    pose proof (Hj src0) as Hj0. fold fn in Hj0.
    assert (Src : forall data,
               read_file (w_fs w) (path_join cwd src0) = Some data ->
               read_file (w_fs (snd res)) (path_join cwd src0) = Some data).
    { intros data R.
      destruct (mkdir_parents (w_fs w) abs_dir) as [e|fs1] eqn:Mk.
      - destruct Run as [_ ->]. exact R.
      - pose proof (dirs_added_read _ _ _ _ (mkdir_parents_adds _ _ _ Mk) R) as R1.
        destruct (shutil_copy2 fs1 cwd src0 (path_join abs_dir fn)) as [e|fs2] eqn:Cp.
        + destruct Run as [_ ->]. exact R1.
        + destruct Run as [_ ->].
          apply shutil_copy2_result, copy2_at_keeps_source in Cp.
          destruct Cp as (d & Ra & Rb & _). congruence. }
    assert (Ok : forall fs1 fs2,
               mkdir_parents (w_fs w) abs_dir = inr fs1 ->
               shutil_copy2 fs1 cwd src0 (path_join abs_dir fn) = inr fs2 ->
               fst res = Some (stage ++ [slash] ++ pid ++ [slash] ++ fn)
               /\ w_fs (snd res) = fs2).
    { intros fs1 fs2 Mk Cp. rewrite Mk, Cp in Run. exact Run. }
    split; [|split; [|split; [|split; [|split; [|split]]]]].
    + intros src data Hs. inversion Hs; subst src. apply Src.
    + intros src data fs1 Hs R Pd Mk N. inversion Hs; subst src. fold fn in N |- *.
      destruct (stored_name_one_part (clock o (w_ticks w)) (path_name src0))
        as (_ & Pp & Ab). cbv zeta in Pp, Ab. fold fn in Pp, Ab.
      assert (Ht : path_join abs_dir fn = abs_dir ++ [fn]).
      { unfold path_join. now rewrite Ab, Pp. }
      rewrite Ht in N.
      pose proof (mkdir_parents_adds _ _ _ Mk) as Ad.
      assert (R1 : os_read_file fs1 cwd src0 = Some data).
      { apply os_read_file_spec in R. destruct R as (R0 & Rw & R).
        apply os_read_file_spec. repeat split; auto.
        eapply dirs_added_read; eauto. }
      assert (N1 : node_at fs1 (abs_dir ++ [fn]) = Missing).
      { apply node_at_missing in N. destruct N as (N0 & Nd & Nf).
        apply node_at_missing. split; [exact N0|]. split.
        - intros Hin.
          destruct (mkdir_parents_new_dirs _ _ _ _ Pd Mk Hin) as [Hold|Hpre];
            [contradiction|].
          apply prefix_length in Hpre. rewrite length_app in Hpre. simpl in Hpre. lia.
        - destruct Ad as (Ef & _). now rewrite Ef. }
      pose proof (shutil_copy2_new_file fs1 src0 data abs_dir fn R1 Pd
                    (mkdir_parents_is_dir _ _ _ Mk)
                    (stored_name_not_dotdot _ _) N1) as Cp.
      rewrite <- Ht in Cp.
      destruct (Ok _ _ Mk Cp) as [E1 E2]. split; [exact E1|].
      rewrite E2, Hj0, Ht. split.
      * apply read_written_file.
        -- apply locate_child with (d := abs_dir);
             [|apply stored_name_not_dotdot].
           pose proof (mkdir_parents_is_dir _ _ _ Mk) as Dd.
           unfold path_is_dir in Dd.
           destruct (stat fs1 abs_dir) as [e|[qd k]] eqn:E; [discriminate|].
           destruct k; try discriminate.
           now rewrite (stat_plain _ _ _ _ Pd E).
        -- rewrite N1. discriminate.
      * apply os_read_file_spec in R1. destruct R1 as (R0 & Rw & R1).
        apply os_read_file_spec. repeat split; auto.
        rewrite Ht in Cp.
        apply shutil_copy2_result, copy2_at_keeps_source in Cp.
        destruct Cp as (d & Ra & Rb & _). congruence.
    + intros src fs1 fs2 Hs Mk Cp. inversion Hs; subst src. apply (Ok fs1 fs2 Mk Cp).
    + intros p Hp.
      destruct (mkdir_parents (w_fs w) abs_dir) as [e|fs1] eqn:Mk;
        [destruct Run as [Rn _]; rewrite Rn in Hp; discriminate Hp|].
      destruct (shutil_copy2 fs1 cwd src0 (path_join abs_dir fn)) as [e|fs2] eqn:Cp;
        [destruct Run as [Rn _]; rewrite Rn in Hp; discriminate Hp|].
      destruct Run as [Rn Rf]. rewrite Rn in Hp. inversion Hp; subst p. clear Hp.
      pose proof Cp as Cp0. unfold shutil_copy2 in Cp0.
      destruct (os_stat fs1 cwd src0) as [e|[q k]] eqn:Os; [discriminate Cp0|].
      apply shutil_copy2_result in Cp.
      pose proof (copy2_at_keeps_source _ _ _ _ _ Cp) as (data & Ra & Rb & Rc).
      exists src0, data. split; [reflexivity|]. split; [reflexivity|].
      assert (Hw : src0 <> [] /\ wants_directory src0 = false).
      { unfold os_stat in Os. destruct src0 as [|c0 s0]; [discriminate Os|].
        split; [discriminate|].
        unfold read_file in Ra.
        destruct (stat fs1 (path_join cwd (c0 :: s0))) as [e|[q1 [| |]]];
          try discriminate.
        destruct (wants_directory (c0 :: s0)); [discriminate Os|reflexivity]. }
      destruct Hw as [H0 Hw].
      rewrite Rf. split.
      * apply os_read_file_spec. repeat split; auto.
      * change (stage ++ slash :: pid ++ slash :: fn)
          with (stage ++ [slash] ++ pid ++ [slash] ++ fn).
        rewrite Hj0. unfold copy_target in Rc.
        destruct (path_is_dir fs2 (path_join abs_dir fn)) eqn:D; [right|left]; auto.
    + intros e Mk. rewrite Mk in Run. exact Run.
    + intros src fs1 e Hs Mk Cp. inversion Hs; subst src. fold fn in Cp.
      rewrite Mk, Cp in Run. exact Run.
    + intros s Hs. discriminate Hs.
  - destruct (save_uploaded_file_no_name o s stage pid w) as [Hn Hf].
    split; [|split; [|split; [|split; [|split; [|split]]]]];
      try (intros; discriminate).
    + intros p Hp. rewrite Hn in Hp. discriminate Hp.
    + intros e Mk. split; [exact Hn|exact (Hf e Mk)].
    + intros _ _. exact Hn.
Qed.

(** ** Record ids: what [generate_project_id] keeps of the UUID *)

Lemma generate_project_id_head o :
  generate_project_id o = proj_ ++ hex_digits 8 ((uuid_bytes o mod 2 ^ 128) / 2 ^ 96) [].
Proof.
  unfold generate_project_id, project_id_of. now rewrite uuid_hex_head, uuid4_int_head.
Qed.

Lemma random_head_bound rnd : 0 <= (rnd mod 2 ^ 128) / 2 ^ 96 < 2 ^ 32.
Proof.
  pose proof (Z.mod_pos_bound rnd (2 ^ 128) ltac:(lia)) as M.
  split; [apply Z.div_pos; lia|].
  apply Z.div_lt_upper_bound; [lia|]. change (2 ^ 96 * 2 ^ 32) with (2 ^ 128). lia.
Qed.

Lemma generate_project_id_same o1 o2 :
  generate_project_id o1 = generate_project_id o2
  <-> (uuid_bytes o1 mod 2 ^ 128) / 2 ^ 96 = (uuid_bytes o2 mod 2 ^ 128) / 2 ^ 96.
Proof.
  rewrite !generate_project_id_head. split.
  - intros H. apply app_inv_head in H. apply hex_digits_inj in H.
    change (16 ^ Z.of_nat 8) with (2 ^ 32) in H.
    rewrite (Z.mod_small _ _ (random_head_bound (uuid_bytes o1))),
      (Z.mod_small _ _ (random_head_bound (uuid_bytes o2))) in H. exact H.
  - intros H. now rewrite H.
Qed.

(** The last bit of the random bytes is the last bit of the UUID. *)
Lemma uuid4_int_bit0 rnd : Z.testbit (uuid4_int rnd) 0 = Z.testbit rnd 0.
Proof.
  unfold uuid4_int. cbv zeta.
  rewrite Z.lor_spec, Z.land_spec, Z.lor_spec, Z.land_spec.
  rewrite Z.mod_pow2_bits_low by lia.
  change (Z.testbit (Z.shiftl 4 76) 0) with false.
  change (Z.testbit (Z.lnot (Z.shiftl 61440 64)) 0) with true.
  change (Z.testbit (Z.shiftl 32768 48) 0) with false.
  change (Z.testbit (Z.lnot (Z.shiftl 49152 48)) 0) with true.
  now rewrite !andb_true_r, !orb_false_r.
Qed.

(** The random bytes with their last bit turned over: another UUID, the
    same first four bytes. *)
Lemma flip_last_bit rnd :
  uuid4_int rnd <> uuid4_int (Z.lxor rnd 1)
  /\ (Z.lxor rnd 1 mod 2 ^ 128) / 2 ^ 96 = (rnd mod 2 ^ 128) / 2 ^ 96.
Proof.
  split.
  - intros H. apply (f_equal (fun u => Z.testbit u 0)) in H.
    rewrite !uuid4_int_bit0, Z.lxor_spec in H.
    change (Z.testbit 1 0) with true in H. destruct (Z.testbit rnd 0); discriminate H.
  - apply Z.bits_inj'. intros n Hn.
    rewrite !Z.div_pow2_bits by lia.
    destruct (Z.ltb_spec (n + 96) 128) as [Hl|Hg].
    + rewrite !Z.mod_pow2_bits_low by lia. rewrite Z.lxor_spec.
      change 1 with (2 ^ 0). rewrite Z.pow2_bits_false by lia. apply xorb_false_r.
    + rewrite !Z.mod_pow2_bits_high by lia. reflexivity.
Qed.

(** C10: a generated id is [proj_] and eight lower-case hexadecimal digits,
    thirteen characters in all.  It is cut from a random UUID: the digits
    are the first eight of the thirty-two of [uuid4] of the random bytes,
    which are the first four of the sixteen bytes; so two calls give the
    same id exactly when these four bytes agree, and for every UUID there
    is another one with the same id.  Nothing is looked up before the
    insert: the trace of [add_project] holds no query, and with an id that
    a row has already [add_project] fails and leaves the table as it
    was. *)
Theorem generate_project_id_shape :
  (forall o,
     exists h,
       generate_project_id o = proj_ ++ h
       /\ length h = 8%nat
       /\ forallb is_lower_hex h = true
       /\ length (generate_project_id o) = 13%nat)
  /\ (forall o,
        generate_project_id o = proj_ ++ slice_to 8 (uuid_hex (uuid4_int (uuid_bytes o)))
        /\ generate_project_id o
           = proj_ ++ hex_digits 8 ((uuid_bytes o mod 2 ^ 128) / 2 ^ 96) [])
  /\ (forall o1 o2,
        generate_project_id o1 = generate_project_id o2
        <-> (uuid_bytes o1 mod 2 ^ 128) / 2 ^ 96 = (uuid_bytes o2 mod 2 ^ 128) / 2 ^ 96)
  /\ (forall o1,
        exists o2,
          uuid4_int (uuid_bytes o1) <> uuid4_int (uuid_bytes o2)
          /\ generate_project_id o1 = generate_project_id o2)
  /\ (forall o stage project_data remark marked files w,
        exists steps,
          w_log (snd (add_project o stage project_data remark marked files w))
          = w_log w ++ steps
          /\ forallb (fun ev => negb (is_select ev)) steps = true)
  /\ (forall o stage project_data remark marked files w r,
        find_row (generate_project_id o) (w_table w) = Some r ->
        is_failure (fst (add_project o stage project_data remark marked files w)) = true
        /\ w_table (snd (add_project o stage project_data remark marked files w))
           = w_table w).
Proof.
  split; [|split; [|split; [|split; [|split]]]].
  - intros o. apply project_id_of_shape.
  - intros o. split; [reflexivity|apply generate_project_id_head].
  - apply generate_project_id_same.
  - intros o1.
    exists {| uuid_bytes := Z.lxor (uuid_bytes o1) 1; clock := clock o1;
              db_read_fails := db_read_fails o1; db_write_fails := db_write_fails o1 |}.
    destruct (flip_last_bit (uuid_bytes o1)) as [Hd He].
    split; [exact Hd|]. apply generate_project_id_same. cbn [uuid_bytes]. now rewrite He.
  - intros o stage project_data remark marked files w.
    destruct (add_project_trace o stage project_data remark marked files w)
      as (saves & rest & Hlog & Fs & Fr).
    exists (saves ++ rest). split; [exact Hlog|].
    rewrite forallb_app. apply andb_true_iff. split.
    + apply forallb_forall. intros ev Hev. rewrite forallb_forall in Fs.
      specialize (Fs _ Hev). destruct ev; try discriminate; reflexivity.
    + apply forallb_forall. intros ev Hev. rewrite forallb_forall in Fr.
      specialize (Fr _ Hev). destruct ev; try discriminate; reflexivity.
  - intros o stage project_data remark marked files w r Hr.
    destruct (add_project_transactional o stage project_data remark marked files w)
      as [[Hs _]|[Hf Ht]]; [|auto].
    exfalso.
    destruct (add_project_success o stage project_data remark marked files w _ _
                (surjective_pairing _) Hs) as (fps & w0 & c & u & _ & _ & Hn & _).
    rewrite Hr in Hn. discriminate Hn.
Qed.

End Platform.

(** * A concrete platform and concrete runs *)

(** A Unicode database in which no character beyond ASCII is alphanumeric;
    the runs below use ASCII file names, on which every database agrees. *)
Definition ascii_database : Z -> bool := fun _ => false.

Definition demo_storage : parts := Eval vm_compute in [py "data"; py "uploaded_files"].
Definition demo_cwd : parts := Eval vm_compute in [py "srv"].

Definition demo_exn_text (e : exn) : pystr :=
  match e with
  | FileNotFoundError => py "No such file or directory"
  | NotADirectoryError => py "Not a directory"
  | FileExistsError => py "File exists"
  | IsADirectoryError => py "Is a directory"
  | OtherOSError => py "OSError"
  | SameFileError => py "are the same file"
  | ShutilError => py "shutil.Error"
  | AttributeError => py "'str' object has no attribute 'name'"
  | IntegrityError => py "UNIQUE constraint failed: projects.id"
  | OperationalError => py "database is locked"
  end.

Definition demo_clock (n : nat) : datetime :=
  {| year := 2024; month := 3; day := 5; hour := 9; minute := 7;
     second := Z.of_nat n; microsecond := 0 |}.

Definition demo_oracle : oracle :=
  {| uuid_bytes := 1512366075204170929049582354406559215;
     clock := demo_clock; db_read_fails := false; db_write_fails := false |}.

Definition locked_oracle : oracle :=
  {| uuid_bytes := 1512366075204170929049582354406559215;
     clock := demo_clock; db_read_fails := true; db_write_fails := true |}.

(** One uploaded file waits in [/tmp]; the table is empty. *)
Definition demo_fs : filesystem :=
  {| fs_files := {[ [py "tmp"; py "up.pdf"] := [37; 80; 68; 70] ]};
     fs_dirs := {[ [py "tmp"] ]} |}.

Definition demo_world : world :=
  {| w_fs := demo_fs; w_table := []; w_ticks := 0; w_log := [] |}.

Definition demo_data : gmap pystr pystr := {[ key_name := py "Alpha Corp" ]}.

Definition stage_reserve : pystr := Eval vm_compute in py "储备项目".
Definition stage_approval : pystr := Eval vm_compute in py "立项阶段".
Definition normal : pystr := Eval vm_compute in py "normal".

Definition demo_id : pystr := Eval vm_compute in generate_project_id demo_oracle.

Definition demo_add (files : option (list (option upload))) (w : world) : pystr * world :=
  add_project ascii_database demo_storage demo_cwd demo_exn_text demo_oracle
    stage_reserve demo_data [] normal files w.

(** The world after "Alpha Corp" was added with one file. *)
Definition world_with_record : world :=
  snd (demo_add (Some [Some (TempFile (py "/tmp/up.pdf"))]) demo_world).

Definition demo_stored_path : pystr :=
  Eval vm_compute in py "储备项目/proj_01234567/20240305_090700_up.pdf".

(** The same world after the stored file was deleted from outside. *)
Definition world_with_lost_file : world :=
  set_fs (remove_file (w_fs world_with_record) (path_join demo_storage demo_stored_path))
    world_with_record.

(** The world after "Alpha Corp" was added with an upload whose temporary
    file was gone: the directory of the record was made, no file was
    saved. *)
Definition world_without_files : world :=
  snd (demo_add (Some [Some (TempFile (py "/tmp/gone.pdf"))]) demo_world).

Definition demo_dir : parts :=
  path_join (path_join demo_storage stage_reserve) demo_id.

Definition demo_move (new_stage : pystr) (w : world) : pystr * world :=
  update_project_stage demo_storage demo_exn_text demo_oracle demo_id new_stage w.

Definition demo_delete (w : world) : pystr * world :=
  delete_project demo_storage demo_exn_text demo_oracle demo_id w.

Definition demo_row : Project.t := Eval vm_compute in
  default
    {| Project.id := []; Project.name := []; Project.stage := [];
       Project.project_type := []; Project.industry := []; Project.industry_code := [];
       Project.financial_data := []; Project.team := []; Project.business_model := [];
       Project.core_resource := []; Project.market_share := [];
       Project.business_outlook := []; Project.other_info := []; Project.remark := [];
       Project.marked := []; Project.files := []; Project.create_time := None;
       Project.update_time := None |}
    (find_row demo_id (w_table world_with_record)).

(** ** Concrete runs *)

Example add_then_list :
  fst (demo_add (Some [Some (TempFile (py "/tmp/up.pdf"))]) demo_world)
  = py "✅ 项目「Alpha Corp」新增成功！ID：proj_01234567"
  /\ Project.files demo_row = [demo_stored_path]
  /\ read_file (w_fs world_with_record) (path_join demo_storage demo_stored_path)
     = Some [37; 80; 68; 70]
  /\ read_file (w_fs world_with_record) [py "tmp"; py "up.pdf"] = Some [37; 80; 68; 70]
  /\ List.map sum_id
       (fst (get_projects_by_stage demo_exn_text demo_oracle stage_reserve 100
               world_with_record))
     = [demo_id].
Proof. vm_compute. repeat split; reflexivity. Qed.

Example add_trace :
  w_log world_with_record
  = [EvMkdir demo_dir;
     EvCopy (py "/tmp/up.pdf") (path_join demo_storage demo_stored_path);
     EvSessionAdd demo_id; EvInsert demo_id; EvCommit].
Proof. vm_compute. reflexivity. Qed.

Example move_then_delete :
  fst (demo_move stage_approval world_with_record) = py "✅ 项目已从「储备项目」移至「立项阶段」"
  /\ path_is_dir (w_fs (snd (demo_move stage_approval world_with_record))) demo_dir = false
  /\ fst (demo_delete (snd (demo_move stage_approval world_with_record)))
     = py "✅ 项目「Alpha Corp」已删除！"
  /\ w_table (snd (demo_delete (snd (demo_move stage_approval world_with_record)))) = []
  /\ path_is_dir (w_fs (snd (demo_delete (snd (demo_move stage_approval world_with_record)))))
       (path_join (path_join demo_storage stage_approval) demo_id) = false.
Proof. vm_compute. repeat split; reflexivity. Qed.

(** A second record with the id of the first is rejected by the primary
    key, after its file was saved. *)
Example add_with_colliding_id :
  fst (demo_add (Some [Some (TempFile (py "/tmp/up.pdf"))]) world_with_record)
  = py "❌ 新增失败：UNIQUE constraint failed: projects.id"
  /\ w_table (snd (demo_add (Some [Some (TempFile (py "/tmp/up.pdf"))]) world_with_record))
     = w_table world_with_record.
Proof. vm_compute. split; reflexivity. Qed.

Example sanitize_examples :
  sanitize_filename ascii_database Posix (py "../../etc/passwd") = py "....etcpasswd.bin"
  /\ sanitize_filename ascii_database Posix (py "report (final).PDF") = py "report final.PDF"
  /\ sanitize_filename ascii_database Posix (py "报告.docx") = py "报告.docx"
  /\ sanitize_filename ascii_database Posix [] = py "unnamed_file.bin"
  /\ sanitize_filename ascii_database Nt (py "C:\dir.d\name") = py "Cdir.dname.bin"
  /\ sanitize_filename ascii_database Posix (py "///") = py "unnamed_file.bin".
Proof. vm_compute. repeat split; reflexivity. Qed.

(** The all-zero random bytes give the nil UUID with its version and
    variant bits set. *)
Example uuid_hex_example :
  uuid_hex (uuid4_int 0) = py "00000000000040008000000000000000"
  /\ generate_project_id demo_oracle = py "proj_01234567".
Proof. vm_compute. split; reflexivity. Qed.

Example save_uploaded_file_example :
  fst (save_uploaded_file ascii_database demo_storage demo_cwd demo_exn_text demo_oracle
         (TempFile (py "/tmp/up.pdf")) stage_reserve demo_id demo_world)
  = Some demo_stored_path
  /\ fst (save_uploaded_file ascii_database demo_storage demo_cwd demo_exn_text demo_oracle
            (TempFile (py "/tmp/gone.pdf")) stage_reserve demo_id demo_world)
     = None
  /\ fst (save_uploaded_file ascii_database demo_storage demo_cwd demo_exn_text demo_oracle
            (StrPath (py "/tmp/up.pdf")) stage_reserve demo_id demo_world)
     = None.
Proof. vm_compute. repeat split; reflexivity. Qed.

(** A move to the stage the record is in removes the directory of a record
    that has no stored file. *)
Example move_to_current_stage_removes_empty_directory :
  path_is_dir (w_fs world_without_files) demo_dir = true
  /\ fst (demo_move stage_reserve world_without_files)
     = py "✅ 项目已从「储备项目」移至「储备项目」"
  /\ path_is_dir (w_fs (snd (demo_move stage_reserve world_without_files))) demo_dir = false.
Proof. vm_compute. repeat split; reflexivity. Qed.

(** ** Witnesses and counterexamples *)

Lemma update_project_stage_places_files_witness :
  exists r,
    find_row demo_id (w_table (snd (demo_move stage_approval world_with_record))) = Some r
    /\ Project.id r = demo_id
    /\ Project.stage r = stage_approval
    /\ forallb (placed_under stage_approval (Project.id r)) (Project.files r) = true.
Proof.
  apply (update_project_stage_places_files demo_storage demo_exn_text demo_oracle demo_id
           stage_approval world_with_record
           (fst (demo_move stage_approval world_with_record))
           (snd (demo_move stage_approval world_with_record))).
  - vm_compute. reflexivity.
  - vm_compute. reflexivity.
Defined.

Lemma add_project_rejects_empty_name_witness :
  add_project ascii_database demo_storage demo_cwd demo_exn_text demo_oracle
    stage_reserve ∅ [] normal (Some [Some (TempFile (py "/tmp/up.pdf"))]) demo_world
  = (msg_name_empty, demo_world)
  /\ is_failure msg_name_empty = true.
Proof.
  apply (add_project_rejects_empty_name ascii_database demo_storage demo_cwd demo_exn_text
           demo_oracle stage_reserve ∅ [] normal
           (Some [Some (TempFile (py "/tmp/up.pdf"))]) demo_world).
  reflexivity.
Defined.

Lemma move_to_current_stage_changes_nothing_witness :
  is_success (fst (demo_move (Project.stage demo_row) world_with_record)) = true
  /\ w_fs (snd (demo_move (Project.stage demo_row) world_with_record)) = w_fs world_with_record
  /\ w_table (snd (demo_move (Project.stage demo_row) world_with_record))
     = w_table world_with_record
  /\ w_ticks (snd (demo_move (Project.stage demo_row) world_with_record))
     = w_ticks world_with_record.
Proof.
  apply (move_to_current_stage_changes_nothing demo_storage demo_exn_text demo_oracle
           demo_id world_with_record demo_row).
  - reflexivity.
  - vm_compute. reflexivity.
  - vm_compute. reflexivity.
  - vm_compute. reflexivity.
Defined.

Lemma add_project_saves_before_insert_witness :
  w_log world_with_record !! 3%nat = Some (EvInsert demo_id)
  /\ w_log world_with_record !! 1%nat
     = Some (EvCopy (py "/tmp/up.pdf") (path_join demo_storage demo_stored_path))
  /\ (1 < 3)%nat.
Proof.
  split; [vm_compute; reflexivity|]. split; [vm_compute; reflexivity|].
  destruct (add_project_saves_before_insert ascii_database demo_storage demo_cwd
              demo_exn_text demo_oracle stage_reserve demo_data [] normal
              (Some [Some (TempFile (py "/tmp/up.pdf"))]) demo_world)
    as (steps & Hlog & H).
  change (w_log world_with_record = steps) in Hlog.
  apply (H 3%nat 1%nat (EvInsert demo_id)
           (EvCopy (py "/tmp/up.pdf") (path_join demo_storage demo_stored_path)));
    try reflexivity; rewrite <- Hlog; vm_compute; reflexivity.
Defined.

Lemma manager_results_witness :
  fst (get_project_detail demo_storage demo_exn_text demo_oracle demo_id world_with_record)
  = (detail_text demo_row, [path_join demo_storage demo_stored_path])
  /\ fst (get_projects_by_stage demo_exn_text locked_oracle stage_reserve 100
            world_with_record) = [].
Proof.
  destruct (manager_results ascii_database demo_storage demo_cwd demo_exn_text demo_oracle
              world_with_record) as (_ & _ & _ & Hd & _).
  destruct (manager_results ascii_database demo_storage demo_cwd demo_exn_text locked_oracle
              world_with_record) as (_ & _ & _ & _ & Hl).
  split.
  - destruct (Hd demo_id) as (_ & _ & H). rewrite (H demo_row); [|reflexivity|vm_compute; reflexivity].
    vm_compute. reflexivity.
  - destruct (Hl stage_reserve 100%nat) as (_ & H & _). apply H. reflexivity.
Defined.

(** C2 as stated fails: the record lists a file that is no longer on disk;
    the move to the stage the record is in succeeds and empties the list of
    stored paths (and removes the directory, now empty). *)
Lemma move_to_current_stage_drops_lost_file :
  Project.stage demo_row = stage_reserve
  /\ find_row demo_id (w_table world_with_lost_file) = Some demo_row
  /\ Project.files demo_row = [demo_stored_path]
  /\ is_success (fst (demo_move stage_reserve world_with_lost_file)) = true
  /\ List.map Project.files (w_table (snd (demo_move stage_reserve world_with_lost_file)))
     = [[]]
  /\ path_is_dir (w_fs world_with_lost_file) demo_dir = true
  /\ path_is_dir (w_fs (snd (demo_move stage_reserve world_with_lost_file))) demo_dir = false.
Proof. vm_compute. repeat split; reflexivity. Qed.

(** C5 as stated fails: the extension of [a.b_c] keeps its underscore,
    whatever the Unicode database. *)
Lemma sanitize_filename_keeps_underscore_in_extension :
  ~ exists alnum,
      sanitize_filename alnum Posix (py "a.b_c")
      = sanitize_by alnum (keep_in_ext_described alnum) Posix (py "a.b_c").
Proof. intros [alnum H]. vm_compute in H. discriminate H. Qed.

(** C8 as stated fails for [get_projects_by_stage]: its result does not
    tell a failed query from a stage without records. *)
Lemma listing_does_not_tell_failure :
  ~ exists failed : list summary -> bool,
      forall o,
        failed (fst (get_projects_by_stage demo_exn_text o stage_approval 100 demo_world))
        = db_read_fails o.
Proof.
  intros [failed H].
  pose proof (H demo_oracle) as H1. pose proof (H locked_oracle) as H2.
  vm_compute in H1, H2. congruence.
Qed.

(** C4 fails in the code: the record has no stored path, its directory
    exists; [delete_project] removes the row and leaves the directory. *)
Lemma delete_project_leaves_directory :
  Project.files
    (default demo_row (find_row demo_id (w_table world_without_files))) = []
  /\ path_is_dir (w_fs world_without_files) demo_dir = true
  /\ is_success (fst (demo_delete world_without_files)) = true
  /\ find_row demo_id (w_table (snd (demo_delete world_without_files))) = None
  /\ path_is_dir (w_fs (snd (demo_delete world_without_files))) demo_dir = true.
Proof. vm_compute. repeat split; reflexivity. Qed.

(** ** Concrete inputs for the further properties *)

Definition demo_upload : option (list (option upload)) :=
  Some [Some (TempFile (py "/tmp/up.pdf"))].

(** A database that can be read and cannot be written. *)
Definition readonly_oracle : oracle :=
  {| uuid_bytes := 1512366075204170929049582354406559215;
     clock := demo_clock; db_read_fails := false; db_write_fails := true |}.

Definition demo_home : pypath := Eval vm_compute in Path (py "/home/user").
Definition demo_tmp : pypath := Eval vm_compute in Path (py "/tmp").
Definition demo_console : console := {| c_fs := demo_fs; c_out := [] |}.
Definition demo_base_dir : pypath := Eval vm_compute in Path (py "D:/lvtou_investment_data").

Example get_base_dir_example :
  fst (get_base_dir demo_cwd demo_home demo_tmp demo_console) = inr demo_base_dir
  /\ c_out (snd (get_base_dir demo_cwd demo_home demo_tmp demo_console))
     = [py "✅ 数据目录已选择: D:/lvtou_investment_data"]
  /\ path_is_dir (c_fs (snd (get_base_dir demo_cwd demo_home demo_tmp demo_console)))
       [py "srv"; py "D:"; py "lvtou_investment_data"] = true.
Proof. vm_compute. repeat split; reflexivity. Qed.

(** ** Witnesses of the further properties *)

Lemma sanitize_filename_keeps_clean_name_witness :
  sanitize_filename ascii_database Posix (py "report.pdf") = py "report.pdf".
Proof.
  apply (sanitize_filename_keeps_clean_name ascii_database Posix (py "report.pdf"));
    vm_compute; try discriminate; reflexivity.
Defined.

Lemma save_uploaded_file_stays_inside_witness :
  exists file_name,
    demo_stored_path = stage_reserve ++ [slash] ++ demo_id ++ [slash] ++ file_name
    /\ no_char slash file_name = true
    /\ placed_under stage_reserve demo_id demo_stored_path = true
    /\ path_join demo_storage demo_stored_path
       = path_join demo_storage (stage_reserve ++ [slash] ++ demo_id) ++ [file_name].
Proof.
  apply (save_uploaded_file_stays_inside ascii_database demo_storage demo_cwd demo_exn_text
           demo_oracle (TempFile (py "/tmp/up.pdf")) stage_reserve demo_id demo_world
           demo_stored_path).
  vm_compute. reflexivity.
Defined.

Lemma save_uploaded_file_failure_writes_nothing_witness :
  dirs_added (w_fs demo_world)
    (w_fs (snd (save_uploaded_file ascii_database demo_storage demo_cwd demo_exn_text
                  demo_oracle (TempFile (py "/tmp/gone.pdf")) stage_reserve demo_id
                  demo_world))).
Proof.
  apply (save_uploaded_file_failure_writes_nothing ascii_database demo_storage demo_cwd
           demo_exn_text demo_oracle (TempFile (py "/tmp/gone.pdf")) stage_reserve demo_id
           demo_world).
  vm_compute. reflexivity.
Defined.

Lemma add_project_appends_row_witness :
  exists c u,
    w_table (snd (demo_add demo_upload demo_world))
    = w_table demo_world
      ++ [Project.set_times (Some c) (Some u)
            (Project.set_files [demo_stored_path]
               (new_project demo_oracle stage_reserve (dict_get demo_data key_name)
                  demo_data [] normal))]
    /\ path_exists (w_fs (snd (demo_add demo_upload demo_world)))
         (path_join demo_storage demo_stored_path) = true.
Proof.
  assert (Hs : is_success (fst (demo_add demo_upload demo_world)) = true)
    by (vm_compute; reflexivity).
  destruct (add_project_appends_row ascii_database demo_storage demo_cwd demo_exn_text
              demo_oracle stage_reserve demo_data [] normal demo_upload demo_world
              (fst (demo_add demo_upload demo_world)) (snd (demo_add demo_upload demo_world))
              (surjective_pairing _) Hs)
    as (fps & w0 & c & u & _ & _ & _ & _ & T & _ & Ex & _ & One & _).
  set (saved := save_uploaded_file ascii_database demo_storage demo_cwd demo_exn_text
                  demo_oracle (TempFile (py "/tmp/up.pdf")) stage_reserve
                  (generate_project_id demo_oracle) demo_world).
  assert (Hp : fst saved = Some demo_stored_path) by (vm_compute; reflexivity).
  assert (Sv : saved = (Some demo_stored_path, snd saved))
    by (rewrite (surjective_pairing saved), Hp; reflexivity).
  destruct (One (TempFile (py "/tmp/up.pdf")) demo_stored_path (snd saved) eq_refl Sv)
    as [E _].
  subst fps. exists c, u. split; [exact T|]. inversion Ex; assumption.
Defined.

Lemma add_project_then_detail_witness :
  exists row,
    find_row (generate_project_id demo_oracle) (w_table (snd (demo_add demo_upload demo_world)))
    = Some row
    /\ Project.name row = dict_get demo_data key_name
    /\ Project.stage row = stage_reserve
    /\ fst (get_project_detail demo_storage demo_exn_text demo_oracle
              (generate_project_id demo_oracle) (snd (demo_add demo_upload demo_world)))
       = (detail_text row, List.map (path_join demo_storage) (Project.files row)).
Proof.
  apply (add_project_then_detail ascii_database demo_storage demo_cwd demo_exn_text
           demo_oracle demo_oracle stage_reserve demo_data [] normal demo_upload demo_world
           (fst (demo_add demo_upload demo_world)) (snd (demo_add demo_upload demo_world))).
  - apply surjective_pairing.
  - vm_compute. reflexivity.
  - reflexivity.
Defined.

Lemma unknown_id_changes_nothing_witness :
  (forall new_stage,
     update_project_stage demo_storage demo_exn_text demo_oracle demo_id new_stage demo_world
     = (msg_not_found, log EvCommit (log EvSelect demo_world)))
  /\ delete_project demo_storage demo_exn_text demo_oracle demo_id demo_world
     = (msg_not_found, log EvCommit (log EvSelect demo_world))
  /\ is_failure msg_not_found = true.
Proof.
  apply (unknown_id_changes_nothing demo_storage demo_exn_text demo_oracle demo_id demo_world);
    reflexivity.
Defined.

Lemma delete_project_removes_row_witness :
  (exists r,
     find_row demo_id (w_table world_with_record) = Some r
     /\ fst (demo_delete world_with_record) = ok_project ++ Project.name r ++ ok_deleted)
  /\ w_table (snd (demo_delete world_with_record))
     = List.filter (fun x => negb (str_eqb (Project.id x) demo_id)) (w_table world_with_record)
  /\ fst (get_project_detail demo_storage demo_exn_text demo_oracle demo_id
            (snd (demo_delete world_with_record)))
     = (msg_not_found, []).
Proof.
  apply (delete_project_removes_row demo_storage demo_exn_text demo_oracle demo_oracle demo_id
           world_with_record (fst (demo_delete world_with_record))
           (snd (demo_delete world_with_record))).
  - apply surjective_pairing.
  - vm_compute. reflexivity.
  - reflexivity.
Defined.

Lemma delete_project_removes_files_witness :
  Forall
    (fun p =>
       read_file (w_fs (snd (demo_delete world_with_record))) (path_join demo_storage p) = None)
    (Project.files demo_row)
  /\ fs_shrunk (w_fs world_with_record) (w_fs (snd (demo_delete world_with_record))).
Proof.
  apply (delete_project_removes_files demo_storage demo_exn_text demo_oracle demo_id
           world_with_record (fst (demo_delete world_with_record))
           (snd (demo_delete world_with_record)) demo_row).
  - apply surjective_pairing.
  - vm_compute. reflexivity.
  - vm_compute. reflexivity.
Defined.

Lemma delete_project_removes_directory_witness :
  path_is_dir (w_fs (snd (demo_delete world_with_record)))
    (path_join (path_join demo_storage (Project.stage demo_row)) (Project.id demo_row))
  = false.
Proof.
  apply (delete_project_removes_directory demo_storage demo_exn_text demo_oracle demo_id
           world_with_record (fst (demo_delete world_with_record))
           (snd (demo_delete world_with_record)) demo_row).
  - apply surjective_pairing.
  - vm_compute. reflexivity.
  - vm_compute. reflexivity.
  - vm_compute. discriminate.
  - vm_compute. discriminate.
  - vm_compute. reflexivity.
Defined.

Lemma update_project_stage_rewrites_row_witness :
  exists r kept t,
    find_row demo_id (w_table world_with_record) = Some r
    /\ sublist kept (Project.files r)
    /\ fst (demo_move stage_approval world_with_record)
       = ok_moved_from ++ Project.stage r ++ ok_moved_to ++ stage_approval ++ ok_moved_end
    /\ find_row demo_id (w_table (snd (demo_move stage_approval world_with_record)))
       = Some (Project.set_times (Project.create_time r) t
                 (Project.set_files (List.map (moved_path stage_approval demo_id) kept)
                    (Project.set_stage stage_approval r)))
    /\ length (w_table (snd (demo_move stage_approval world_with_record)))
       = length (w_table world_with_record)
    /\ (forall pid',
          pid' <> demo_id ->
          find_row pid' (w_table (snd (demo_move stage_approval world_with_record)))
          = find_row pid' (w_table world_with_record)).
Proof.
  apply (update_project_stage_rewrites_row demo_storage demo_exn_text demo_oracle demo_id
           stage_approval world_with_record
           (fst (demo_move stage_approval world_with_record))
           (snd (demo_move stage_approval world_with_record))).
  - apply surjective_pairing.
  - vm_compute. reflexivity.
Defined.

Lemma primary_key_stays_unique_witness :
  (forall stage data remark marked files,
     List.NoDup
       (List.map Project.id
          (w_table
             (snd (add_project ascii_database demo_storage demo_cwd demo_exn_text demo_oracle
                     stage data remark marked files world_with_record)))))
  /\ (forall pid new_stage,
        List.NoDup
          (List.map Project.id
             (w_table
                (snd (update_project_stage demo_storage demo_exn_text demo_oracle pid
                        new_stage world_with_record)))))
  /\ (forall pid,
        List.NoDup
          (List.map Project.id
             (w_table
                (snd (delete_project demo_storage demo_exn_text demo_oracle pid
                        world_with_record))))).
Proof.
  apply (primary_key_stays_unique ascii_database demo_storage demo_cwd demo_exn_text
           demo_oracle world_with_record).
  vm_compute. constructor; [intros []|constructor].
Defined.

Lemma stored_paths_stay_in_place_witness :
  (forall stage data remark marked files,
     forallb well_placed
       (w_table
          (snd (add_project ascii_database demo_storage demo_cwd demo_exn_text demo_oracle
                  stage data remark marked files world_with_record))) = true)
  /\ (forall pid new_stage,
        forallb well_placed
          (w_table
             (snd (update_project_stage demo_storage demo_exn_text demo_oracle pid new_stage
                     world_with_record))) = true)
  /\ (forall pid,
        forallb well_placed
          (w_table
             (snd (delete_project demo_storage demo_exn_text demo_oracle pid
                     world_with_record))) = true).
Proof.
  apply (stored_paths_stay_in_place ascii_database demo_storage demo_cwd demo_exn_text
           demo_oracle world_with_record).
  vm_compute. reflexivity.
Defined.

Lemma get_projects_by_stage_lists_newest_witness :
  exists rows rest,
    fst (get_projects_by_stage demo_exn_text demo_oracle stage_reserve 100 world_with_record)
    = List.map summary_of rows
    /\ rows ++ rest
       ≡ₚ List.filter (fun r => str_eqb (Project.stage r) stage_reserve)
            (w_table world_with_record)
    /\ newest_first (rows ++ rest) = true
    /\ (length rows <= 100)%nat
    /\ (rest <> [] -> length rows = 100%nat)
    /\ Forall (fun s => sum_remark s <> []) (List.map summary_of rows).
Proof.
  apply (get_projects_by_stage_lists_newest demo_exn_text demo_oracle stage_reserve 100
           world_with_record).
  reflexivity.
Defined.

Lemma submit_form_stores_fields_witness :
  exists row,
    find_row (generate_project_id demo_oracle)
      (w_table
         (snd (submit_form ascii_database demo_storage demo_cwd demo_exn_text demo_oracle
                 stage_reserve (py "Alpha Corp") (py "equity") (py "tourism") (py "R90")
                 normal (py "first talks") (py "revenue 12m") (py "two partners")
                 (py "tickets") (py "licence") (py "15%") (py "growth") [] demo_upload
                 demo_world)))
    = Some row
    /\ py "Alpha Corp" <> []
    /\ Project.name row = py "Alpha Corp"
    /\ Project.stage row = stage_reserve
    /\ Project.project_type row = py "equity"
    /\ Project.industry row = py "tourism"
    /\ Project.industry_code row = py "R90"
    /\ Project.financial_data row = py "revenue 12m"
    /\ Project.team row = py "two partners"
    /\ Project.business_model row = py "tickets"
    /\ Project.core_resource row = py "licence"
    /\ Project.market_share row = py "15%"
    /\ Project.business_outlook row = py "growth"
    /\ Project.other_info row = []
    /\ Project.remark row = py "first talks"
    /\ Project.marked row = normal.
Proof.
  apply (submit_form_stores_fields ascii_database demo_storage demo_cwd demo_exn_text
           demo_oracle stage_reserve (py "Alpha Corp") (py "equity") (py "tourism") (py "R90")
           normal (py "first talks") (py "revenue 12m") (py "two partners") (py "tickets")
           (py "licence") (py "15%") (py "growth") [] demo_upload demo_world
           (fst (submit_form ascii_database demo_storage demo_cwd demo_exn_text demo_oracle
                   stage_reserve (py "Alpha Corp") (py "equity") (py "tourism") (py "R90")
                   normal (py "first talks") (py "revenue 12m") (py "two partners")
                   (py "tickets") (py "licence") (py "15%") (py "growth") [] demo_upload
                   demo_world))).
  - apply surjective_pairing.
  - vm_compute. reflexivity.
Defined.

Lemma get_base_dir_result_witness :
  In demo_base_dir (candidates demo_home demo_tmp)
  /\ path_is_dir (c_fs (snd (get_base_dir demo_cwd demo_home demo_tmp demo_console)))
       (resolve demo_cwd demo_base_dir) = true
  /\ probed (c_fs demo_console)
       (c_fs (snd (get_base_dir demo_cwd demo_home demo_tmp demo_console)))
  /\ ((c_out (snd (get_base_dir demo_cwd demo_home demo_tmp demo_console))
       = c_out demo_console ++ [msg_chosen ++ path_str demo_base_dir]
       /\ read_file (c_fs (snd (get_base_dir demo_cwd demo_home demo_tmp demo_console)))
            (resolve demo_cwd demo_base_dir ++ [write_test]) = None)
      \/ (c_out (snd (get_base_dir demo_cwd demo_home demo_tmp demo_console))
          = c_out demo_console ++ [msg_default ++ path_str demo_base_dir]
          /\ demo_base_dir = joinpath demo_home data_dir_name)).
Proof.
  assert (H : fst (get_base_dir demo_cwd demo_home demo_tmp demo_console) = inr demo_base_dir)
    by (vm_compute; reflexivity).
  apply (get_base_dir_result demo_cwd demo_home demo_tmp demo_console demo_base_dir
           (snd (get_base_dir demo_cwd demo_home demo_tmp demo_console))).
  rewrite (surjective_pairing (get_base_dir demo_cwd demo_home demo_tmp demo_console)), H.
  reflexivity.
Defined.

Lemma make_storage_result_witness :
  let s := snd (get_base_dir demo_cwd demo_home demo_tmp demo_console) in
  let storage := joinpath demo_base_dir uploaded_files in
  let s' := snd (make_storage demo_cwd demo_base_dir s) in
  storage = joinpath demo_base_dir uploaded_files
  /\ path_is_dir (c_fs s') (resolve demo_cwd storage) = true
  /\ Forall (fun stage => path_is_dir (c_fs s') (resolve demo_cwd (joinpath storage stage)) = true)
       PROJECT_STAGES
  /\ dirs_added (c_fs s) (c_fs s')
  /\ c_out s' = c_out s
  /\ make_storage demo_cwd demo_base_dir s' = (inr storage, s').
Proof.
  intros s storage s'.
  assert (H : fst (make_storage demo_cwd demo_base_dir s) = inr storage)
    by (vm_compute; reflexivity).
  apply (make_storage_result demo_cwd demo_base_dir s storage s').
  rewrite (surjective_pairing (make_storage demo_cwd demo_base_dir s)), H. reflexivity.
Defined.

Lemma add_project_failed_insert_keeps_files_witness :
  let res :=
    add_project ascii_database demo_storage demo_cwd demo_exn_text locked_oracle
      stage_reserve demo_data [] normal demo_upload demo_world in
  exists fps w0,
    save_files ascii_database demo_storage demo_cwd demo_exn_text locked_oracle stage_reserve
      (generate_project_id locked_oracle) (default [] demo_upload) [] demo_world
    = (inr fps, w0)
    /\ is_failure (fst res) = true
    /\ w_table (snd res) = w_table demo_world
    /\ w_fs (snd res) = w_fs w0
    /\ Forall (fun p => path_exists (w_fs (snd res)) (path_join demo_storage p) = true) fps.
Proof.
  apply (add_project_failed_insert_keeps_files ascii_database demo_storage demo_cwd
           demo_exn_text locked_oracle stage_reserve demo_data [] normal demo_upload
           demo_world).
  - vm_compute. discriminate.
  - reflexivity.
Defined.

Lemma delete_project_failed_commit_loses_files_witness :
  let res := delete_project demo_storage demo_exn_text readonly_oracle demo_id world_with_record in
  is_failure (fst res) = true
  /\ w_table (snd res) = w_table world_with_record
  /\ Forall (fun p => read_file (w_fs (snd res)) (path_join demo_storage p) = None)
       (Project.files demo_row)
  /\ fs_shrunk (w_fs world_with_record) (w_fs (snd res)).
Proof.
  apply (delete_project_failed_commit_loses_files demo_storage demo_exn_text readonly_oracle
           demo_id world_with_record demo_row).
  - reflexivity.
  - reflexivity.
  - vm_compute. reflexivity.
Defined.

Lemma update_project_stage_moves_files_witness :
  (exists row,
     find_row demo_id (w_table (snd (demo_move stage_approval world_with_record))) = Some row
     /\ Project.stage row = stage_approval
     /\ Project.files row
        = List.map (moved_path stage_approval demo_id) (Project.files demo_row))
  /\ Forall
       (fun p =>
          (exists d,
             read_file (w_fs world_with_record) (path_join demo_storage p) = Some d
             /\ read_file (w_fs (snd (demo_move stage_approval world_with_record)))
                  (path_join demo_storage (moved_path stage_approval demo_id p))
                = Some d)
          /\ read_file (w_fs (snd (demo_move stage_approval world_with_record)))
               (path_join demo_storage p) = None)
       (Project.files demo_row).
Proof.
  apply (update_project_stage_moves_files demo_storage demo_exn_text demo_oracle demo_id
           stage_approval world_with_record
           (fst (demo_move stage_approval world_with_record))
           (snd (demo_move stage_approval world_with_record)) demo_row).
  - apply surjective_pairing.
  - vm_compute. reflexivity.
  - vm_compute. reflexivity.
  - vm_compute. reflexivity.
  - vm_compute. constructor; [intros []|constructor].
  - vm_compute. reflexivity.
  - vm_compute. reflexivity.
Defined.

Lemma update_project_stage_leaves_no_empty_directory_witness :
  empty_dir (w_fs (snd (demo_move stage_approval world_with_record)))
    (path_join (path_join demo_storage (Project.stage demo_row)) demo_id)
  = false.
Proof.
  apply (update_project_stage_leaves_no_empty_directory demo_storage demo_exn_text
           demo_oracle demo_id stage_approval world_with_record
           (fst (demo_move stage_approval world_with_record))
           (snd (demo_move stage_approval world_with_record)) demo_row).
  - apply surjective_pairing.
  - vm_compute. reflexivity.
  - vm_compute. reflexivity.
  - vm_compute. discriminate.
  - vm_compute. reflexivity.
Defined.

(** The file system after the directory of the first record was made. *)
Definition demo_made : filesystem :=
  match mkdir_parents demo_fs (path_join demo_storage (stage_reserve ++ [slash] ++ demo_id)) with
  | inr fs1 => fs1
  | inl _ => demo_fs
  end.

(** A name with a slash at its end is not the name of a regular file: the
    copy fails, nothing is stored, and the result is [None]. *)
Example save_uploaded_file_trailing_slash :
  os_read_file demo_fs demo_cwd (py "/tmp/up.pdf") = Some [37; 80; 68; 70]
  /\ os_stat demo_fs demo_cwd (py "/tmp/up.pdf/") = inl NotADirectoryError
  /\ fst (save_uploaded_file ascii_database demo_storage demo_cwd demo_exn_text demo_oracle
            (TempFile (py "/tmp/up.pdf/")) stage_reserve demo_id demo_world) = None
  /\ fs_files
       (w_fs (snd (save_uploaded_file ascii_database demo_storage demo_cwd demo_exn_text
                     demo_oracle (TempFile (py "/tmp/up.pdf/")) stage_reserve demo_id
                     demo_world)))
     = fs_files demo_fs.
Proof. vm_compute. repeat split; reflexivity. Qed.

Lemma save_uploaded_file_copies_witness :
  let res := save_uploaded_file ascii_database demo_storage demo_cwd demo_exn_text demo_oracle
               (TempFile (py "/tmp/up.pdf")) stage_reserve demo_id demo_world in
  fst res = Some demo_stored_path
  /\ read_file (w_fs (snd res)) (path_join demo_storage demo_stored_path)
     = Some [37; 80; 68; 70]
  /\ os_read_file (w_fs (snd res)) demo_cwd (py "/tmp/up.pdf") = Some [37; 80; 68; 70].
Proof.
  intros res.
  destruct (save_uploaded_file_copies ascii_database demo_storage demo_cwd demo_exn_text
              demo_oracle (TempFile (py "/tmp/up.pdf")) stage_reserve demo_id demo_world)
    as (_ & H & _).
  apply (H (py "/tmp/up.pdf") [37; 80; 68; 70] demo_made); vm_compute; reflexivity.
Defined.
